(** * MCQ-Mastery backend: crop engine, segmentation client, page renderer
      and analysis orchestrator

    A shallow embedding of the Python backend (services/image.py,
    services/gemini.py, services/pdf.py, routers/analyze.py and
    models/schemas.py) together with the properties its specification states.

    Modelling conventions.
    - A finite Python [float] is given as the rational [Q] it denotes.  The
      arithmetic of the crop engine on bounding-box coordinates is IEEE 754
      binary64: the exact result rounded to the nearest representable value,
      ties to the even significand, with subnormals and overflow ([round64],
      [finite64]).  Clock readings are only subtracted and compared with
      zero, which rounding does not change; they are not rounded.  [int(x)]
      is truncation toward zero.  Infinities and NaN are not values of the
      model.
    - Python [str] and [bytes] values are [string]s (sequences of bytes; text
      is its UTF-8 encoding).
    - A Python exception is a value of [exn]; code that may raise returns a
      [result].  Code that talks to the outside world (upload, PDF library,
      model invocation, clock, callbacks) runs in the monad [M], which threads
      the trace of external events.
    - Libraries that are not part of the repository (Pillow's codecs, base64,
      PyMuPDF, the google-genai client, json, pydantic) are interfaces
      (type classes); every theorem holds for all their implementations.
    - [print] logging is not modelled. *)

From Stdlib Require Import ZArith QArith Qround Qabs Qpower.
From Stdlib Require Import String Ascii List Bool Lia.
From Stdlib Require Import DecimalString.
Import ListNotations.

Local Open Scope string_scope.
Local Open Scope list_scope.
Local Open Scope Z_scope.

(** ** Exceptions and results *)

(** The exception classes the handlers of the backend distinguish.
    [JSONDecodeError] (json) and [ValidationError] (pydantic) are subclasses
    of [ValueError]; every class below is a subclass of [Exception]. *)
Inductive exn : Type :=
| ValueError (msg : string)
| OverflowError (msg : string)
| JSONDecodeError (msg : string)
| ValidationError (msg : string)
| AttributeError (msg : string)
| TypeError (msg : string)
| SystemError (msg : string)
| RuntimeError (msg : string)
| HTTPException (status_code : Z) (detail : string).

(** [isinstance(e, ValueError)] *)
Definition is_ValueError (e : exn) : bool :=
  match e with
  | ValueError _ | JSONDecodeError _ | ValidationError _ => true
  | _ => false
  end.

(** [isinstance(e, json.JSONDecodeError)] *)
Definition is_JSONDecodeError (e : exn) : bool :=
  match e with
  | JSONDecodeError _ => true
  | _ => false
  end.

Definition string_of_Z (z : Z) : string :=
  NilZero.string_of_int (Z.to_int z).

(** [str(e)] *)
Definition exn_str (e : exn) : string :=
  match e with
  | ValueError m | OverflowError m | JSONDecodeError m | ValidationError m
  | AttributeError m | TypeError m | SystemError m | RuntimeError m => m
  | HTTPException c d => (string_of_Z c ++ ": " ++ d)%string
  end.

Inductive result (A : Type) : Type :=
| Ok (a : A)
| Raise (e : exn).
Arguments Ok {A} a.
Arguments Raise {A} e.

Definition rbind {A B : Type} (m : result A) (k : A -> result B) : result B :=
  match m with
  | Ok a => k a
  | Raise e => Raise e
  end.

Declare Scope result_scope.
Delimit Scope result_scope with result.
Notation "x <- m ;; k" := (rbind m (fun x => k))
  (at level 61, m at next level, right associativity) : result_scope.

(** ** Numbers *)

(** [int(q)] on a float: truncation toward zero. *)
Definition Qtrunc (q : Q) : Z := Z.quot (Qnum q) (Zpos (Qden q)).

(** *** binary64 *)

(** [2 ** e] *)
Definition pow2 (e : Z) : Q := Qpower 2 e.

(** The binary exponent of a positive rational: the [e] with
    [2 ** e <= x < 2 ** (e + 1)]. *)
Definition Qlog2 (x : Q) : Z :=
  let k := Z.log2 (Qnum x) - Z.log2 (Zpos (Qden x)) in
  if Qle_bool (pow2 k) x then k else k - 1.

(** The nearest integer, a tie going to the even one. *)
Definition rne (x : Q) : Z :=
  let f := Qfloor x in
  match (x - inject_Z f ?= 1 # 2)%Q with
  | Lt => f
  | Gt => f + 1
  | Eq => if Z.even f then f else f + 1
  end.

(** The exponent of the last bit of the significand of the float nearest to
    [x]: 53 bits of precision, and no bit below [2 ** -1074] (subnormal
    numbers). *)
Definition ulp_exp (x : Q) : Z := Z.max (Qlog2 (Qabs x) - 52) (-1074).

(** The multiple of [2 ** s] nearest to [x], a tie going to the even one. *)
Definition round_at (s : Z) (x : Q) : Q :=
  (inject_Z (rne (x * pow2 (- s))) * pow2 s)%Q.

(** Rounding to binary64, before the test for overflow. *)
Definition round64 (x : Q) : Q := round_at (ulp_exp x) x.

(** The rounded value is a finite float; otherwise the operation gives an
    infinity. *)
Definition finite64 (x : Q) : bool := negb (Qle_bool (pow2 1024) (Qabs x)).

(** The conversion of an [int] operand of a float operation. *)
Definition float_of_int (n : Z) : result Q :=
  let x := round64 (inject_Z n) in
  if finite64 x then Ok x
  else Raise (OverflowError "int too large to convert to float").

(** [int(x)] on the result of a float operation that rounds to [x]. *)
Definition int_of_rounded (x : Q) : result Z :=
  if finite64 x then Ok (Qtrunc x)
  else Raise (OverflowError "cannot convert float infinity to integer").

(** The integers up to this bound are floats. *)
Definition max_exact_int : Z := 2 ^ 53.

(** ** Strings *)

(** [sub in s] *)
Definition contains (sub s : string) : bool :=
  match String.index 0 sub s with
  | Some _ => true
  | None => false
  end.

(** [s.split(sep)], for a non-empty separator.  [fuel] bounds the number of
    pieces; [length s + 1] is always enough. *)
Fixpoint split_fuel (fuel : nat) (sep s : string) : list string :=
  match fuel with
  | O => [s]
  | S fuel' =>
      match String.index 0 sep s with
      | None => [s]
      | Some i =>
          let rest := (String.length s - (i + String.length sep))%nat in
          substring 0 i s
            :: split_fuel fuel' sep (substring (i + String.length sep) rest s)
      end
  end.

Definition split (sep s : string) : list string :=
  split_fuel (S (String.length s)) sep s.

Definition lower_ascii (c : ascii) : ascii :=
  let n := nat_of_ascii c in
  if ((65 <=? n) && (n <=? 90))%nat then ascii_of_nat (n + 32) else c.

(** [s.lower()].  Only ASCII letters are mapped; no character outside ASCII
    lowers to an ASCII character of [".pdf"], so suffix tests against ASCII
    literals agree with Python's. *)
Fixpoint lower (s : string) : string :=
  match s with
  | EmptyString => EmptyString
  | String c s' => String (lower_ascii c) (lower s')
  end.

(** [s.endswith(suffix)] *)
Definition endswith (s suffix : string) : bool :=
  let n := String.length s in
  let k := String.length suffix in
  (k <=? n)%nat && String.eqb (substring (n - k) k s) suffix.

(** ["=" * n] *)
Fixpoint repeat_eq (n : nat) : string :=
  match n with
  | O => ""
  | S n' => String "="%char (repeat_eq n')
  end.

(** ** models/schemas.py *)

Record BoundingBox : Type := mkBoundingBox {
  ymin : Q;
  xmin : Q;
  ymax : Q;
  xmax : Q
}.

Record QuestionSegment : Type := mkQuestionSegment {
  qs_id : string;
  qs_boundingBox : BoundingBox;
  qs_text : string;
  qs_cropUrl : option string;
  qs_imageUrl : option string;
  qs_sourceImageUrl : option string;
  qs_subject : option string;
  qs_chapter : option string;
  qs_correctAnswer : option string
}.

Record AnalysisResult : Type := mkAnalysisResult {
  questions : list QuestionSegment
}.

Record CroppedSegment : Type := mkCroppedSegment {
  cs_id : string;
  cs_boundingBox : BoundingBox;
  cs_text : string;
  cs_cropUrl : string;
  cs_subject : option string;
  cs_chapter : option string;
  cs_correctAnswer : option string
}.

Record AnalyzeImageResponse : Type := mkAnalyzeImageResponse {
  air_success : bool;
  air_questions : list QuestionSegment;
  air_error : option string;
  air_processingTimeMs : option Z
}.

Record CropImageResponse : Type := mkCropImageResponse {
  cir_success : bool;
  cir_segments : list CroppedSegment;
  cir_error : option string
}.

Record PDFAnalysisResponse : Type := mkPDFAnalysisResponse {
  success : bool;
  taskId : string;
  pages : Z;
  allQuestions : list QuestionSegment;
  pageResults : list AnalysisResult;
  error : option string;
  processingTimeMs : option Z
}.

Record AnalyzeImageRequest : Type := mkAnalyzeImageRequest {
  req_image : string;
  req_mimeType : option string
}.

Record CropImageRequest : Type := mkCropImageRequest {
  creq_image : string;
  creq_segments : list QuestionSegment
}.

(** ** Pillow images *)

Definition rgb : Type := (Z * Z * Z)%type.
Definition white : rgb := (255, 255, 255).
Definition black : rgb := (0, 0, 0).

(** An RGB image: its size and its pixels (meaningful inside the size). *)
Record Image : Type := mkImage {
  im_width : Z;
  im_height : Z;
  im_pixel : Z -> Z -> rgb
}.

Definition inside (im : Image) (x y : Z) : bool :=
  (0 <=? x) && (x <? im_width im) && (0 <=? y) && (y <? im_height im).

(** [img.crop((x1, y1, x2, y2))]: Pillow refuses a box whose right edge is
    left of its left edge, or whose lower edge is above its upper edge; the
    part of the box outside the image is black. *)
Definition pil_crop (im : Image) (box : Z * Z * Z * Z) : result Image :=
  let '(x1, y1, x2, y2) := box in
  if x2 <? x1 then Raise (ValueError "Coordinate 'right' is less than 'left'")
  else if y2 <? y1 then
    Raise (ValueError "Coordinate 'lower' is less than 'upper'")
  else Ok {| im_width := x2 - x1;
             im_height := y2 - y1;
             im_pixel := fun x y =>
               if inside im (x + x1) (y + y1)
               then im_pixel im (x + x1) (y + y1) else black |}.

(** [Image.new("RGB", (w, h), color)] *)
Definition pil_new (w h : Z) (color : rgb) : result Image :=
  if (w <? 0) || (h <? 0) then
    Raise (ValueError "Width and height must be >= 0")
  else Ok {| im_width := w; im_height := h; im_pixel := fun _ _ => color |}.

(** [canvas.paste(src, (ox, oy))]: mutates the canvas; here the new canvas. *)
Definition pil_paste (canvas src : Image) (ox oy : Z) : Image :=
  {| im_width := im_width canvas;
     im_height := im_height canvas;
     im_pixel := fun x y =>
       if inside src (x - ox) (y - oy)
       then im_pixel src (x - ox) (y - oy) else im_pixel canvas x y |}.

(** The codecs the services call: base64, Pillow's PNG encoder and Pillow's
    decoder ([Image.open(io.BytesIO(b)).convert("RGB")]). *)
Class Codec : Type := {
  b64encode : string -> string;
  b64decode : string -> result string;
  png_encode : Image -> string;
  image_open : string -> result Image
}.

Section ImageService.

Context {codec : Codec}.

Local Open Scope result_scope.

(** [canvas.save(buffer, format="PNG", optimize=True); buffer.getvalue()]:
    Pillow's encoder refuses an image without pixels. *)
Definition pil_save_png (canvas : Image) : result string :=
  if (im_width canvas <=? 0) || (im_height canvas <=? 0) then
    Raise (SystemError "tile cannot extend outside image")
  else Ok (png_encode canvas).

(** [f"data:image/png;base64,{base64_str}"] *)
Definition png_data_url (png : string) : string :=
  ("data:image/png;base64," ++ b64encode png)%string.

(** ** services/image.py *)

Record ImageService : Type := mkImageService {
  padding : Z
}.

(** [ImageService()]: the default padding. *)
Definition default_image_service : ImageService := {| padding := 10 |}.

(** [int((coord / 1000) * size)]: a float division, a float multiplication
    by an [int], and the truncation of the product. *)
Definition scale_coord (coord : Q) (size : Z) : result Z :=
  let ratio := round64 (coord / 1000) in
  size_f <- float_of_int size ;;
  int_of_rounded (round64 (ratio * size_f)).

(** The padded, clamped pixel rectangle [(x1, y1, x2, y2)] of a box. *)
Definition crop_rect (self : ImageService) (bbox : BoundingBox)
    (width height : Z) : result (Z * Z * Z * Z) :=
  x1 <- scale_coord (xmin bbox) width ;;
  y1 <- scale_coord (ymin bbox) height ;;
  x2 <- scale_coord (xmax bbox) width ;;
  y2 <- scale_coord (ymax bbox) height ;;
  let x1 := Z.max 0 (x1 - padding self) in
  let y1 := Z.max 0 (y1 - padding self) in
  let x2 := Z.min width (x2 + padding self) in
  let y2 := Z.min height (y2 + padding self) in
  Ok (x1, y1, x2, y2).

Definition _crop_segment (self : ImageService) (img : Image)
    (bbox : BoundingBox) (width height : Z) : result string :=
  rect <- crop_rect self bbox width height ;;
  let '(x1, y1, x2, y2) := rect in
  cropped <- pil_crop img (x1, y1, x2, y2) ;;
  let canvas_width := x2 - x1 in
  let canvas_height := y2 - y1 in
  canvas <- pil_new canvas_width canvas_height white ;;
  let canvas := pil_paste canvas cropped 0 0 in
  png <- pil_save_png canvas ;;
  Ok (png_data_url png).

(** [base64_image.split("base64,")[1]] when the marker occurs. *)
Definition strip_data_url_prefix (base64_image : string) : string :=
  if contains "base64," base64_image
  then nth 1 (split "base64," base64_image) ""
  else base64_image.

Definition _decode_image (base64_image : string) : result Image :=
  let base64_image := strip_data_url_prefix base64_image in
  image_bytes <- b64decode base64_image ;;
  image_open image_bytes.

(** One iteration of the loop of [extract_crops]: the [try] body and its
    [except Exception] handler. *)
Definition crop_one (self : ImageService) (img : Image) (width height : Z)
    (segment : QuestionSegment) : CroppedSegment :=
  match _crop_segment self img (qs_boundingBox segment) width height with
  | Ok crop_url =>
      {| cs_id := qs_id segment;
         cs_boundingBox := qs_boundingBox segment;
         cs_text := qs_text segment;
         cs_cropUrl := crop_url;
         cs_subject := qs_subject segment;
         cs_chapter := qs_chapter segment;
         cs_correctAnswer := qs_correctAnswer segment |}
  | Raise _ =>
      {| cs_id := qs_id segment;
         cs_boundingBox := qs_boundingBox segment;
         cs_text := qs_text segment;
         cs_cropUrl := "";
         cs_subject := qs_subject segment;
         cs_chapter := qs_chapter segment;
         cs_correctAnswer := qs_correctAnswer segment |}
  end.

(** The [for segment in segments] loop, appending to [cropped_segments]. *)
Fixpoint crop_loop (self : ImageService) (img : Image) (width height : Z)
    (segments : list QuestionSegment) (cropped_segments : list CroppedSegment)
    : list CroppedSegment :=
  match segments with
  | [] => cropped_segments
  | segment :: rest =>
      crop_loop self img width height rest
        (cropped_segments ++ [crop_one self img width height segment])
  end.

Definition extract_crops (self : ImageService) (base64_image : string)
    (segments : list QuestionSegment) : result (list CroppedSegment) :=
  img <- _decode_image base64_image ;;
  let width := im_width img in
  let height := im_height img in
  Ok (crop_loop self img width height segments []).

Definition extract_single_crop (self : ImageService) (base64_image : string)
    (bounding_box : BoundingBox) : result string :=
  img <- _decode_image base64_image ;;
  _crop_segment self img bounding_box (im_width img) (im_height img).

End ImageService.

(** ** The outside world: events, clock and the monad [M] *)

(** What the service does to its collaborators, in the order it happens. *)
Inductive event : Type :=
| FileRead (filename : string)
| DocOpen
| PageRender (page_num : Z)
| Progress (current_page total_pages : Z)
| DocClose
| ModelCall (model : string) (mime_type : option string).

(** The trace of events so far and the number of clock readings taken. *)
Record world : Type := mkWorld {
  trace : list event;
  clock_reads : nat
}.

Definition M (A : Type) : Type := world -> result A * world.

Definition ret {A : Type} (a : A) : M A := fun w => (Ok a, w).

Definition raise {A : Type} (e : exn) : M A := fun w => (Raise e, w).

Definition bind {A B : Type} (m : M A) (k : A -> M B) : M B :=
  fun w =>
    match m w with
    | (Ok a, w') => k a w'
    | (Raise e, w') => (Raise e, w')
    end.

Declare Scope M_scope.
Delimit Scope M_scope with M.
Notation "x <- m ;; k" := (bind m (fun x => k))
  (at level 61, m at next level, right associativity) : M_scope.
Notation "m ;;; k" := (bind m (fun _ => k))
  (at level 61, right associativity) : M_scope.

(** A computation without effects, run inside [M]. *)
Definition lift {A : Type} (r : result A) : M A := fun w => (r, w).

(** [try: m  except Exception as e: h e] *)
Definition try_except {A : Type} (m : M A) (h : exn -> M A) : M A :=
  fun w =>
    match m w with
    | (Ok a, w') => (Ok a, w')
    | (Raise e, w') => h e w'
    end.

(** [try: m  finally: f] *)
Definition try_finally {A : Type} (m : M A) (f : M unit) : M A :=
  fun w =>
    match m w with
    | (r, w') =>
        match f w' with
        | (Ok _, w'') => (r, w'')
        | (Raise e, w'') => (Raise e, w'')
        end
    end.

Definition emit (e : event) : M unit :=
  fun w => (Ok tt, {| trace := trace w ++ [e]; clock_reads := clock_reads w |}).

(** The wall clock: its n-th reading. *)
Class Clock : Type := {
  clock : nat -> Q
}.

(** [time.time()] *)
Definition time_time {clk : Clock} : M Q :=
  fun w => (Ok (clock (clock_reads w)),
            {| trace := trace w; clock_reads := S (clock_reads w) |}).

(** [int((now - start_time) * 1000)] *)
Definition elapsed_ms_between (start_time now : Q) : Z :=
  Qtrunc ((now - start_time) * 1000)%Q.

(** [os.getenv] *)
Class Environ : Type := {
  getenv : string -> option string
}.

(** ** Parsed JSON and the Python library functions applied to it *)

(** What [json.loads] returns. *)
#[warnings="-register-all"]
Inductive json : Type :=
| JNull
| JBool (b : bool)
| JInt (z : Z)
| JFloat (q : Q)
| JStr (s : string)
| JList (items : list json)
| JDict (entries : list (string * json)).

Fixpoint assoc (k : string) (entries : list (string * json)) : option json :=
  match entries with
  | [] => None
  | (k', v) :: rest => if String.eqb k k' then Some v else assoc k rest
  end.

(** [d.get(k, default)]: only a dict has the method. *)
Definition dict_get (d : json) (k : string) (default : json) : result json :=
  match d with
  | JDict entries =>
      Ok (match assoc k entries with
          | Some v => v
          | None => default
          end)
  | _ => Raise (AttributeError "object has no attribute 'get'")
  end.

(** The items a [for] loop over a JSON value visits: the elements of a list,
    the keys of a dict, the characters of a string. *)
Definition py_iter (v : json) : result (list json) :=
  match v with
  | JList items => Ok items
  | JDict entries => Ok (map (fun kv => JStr (fst kv)) entries)
  | JStr s => Ok (map (fun c => JStr (String c "")) (list_ascii_of_string s))
  | _ => Raise (TypeError "object is not iterable")
  end.

(** json, str and pydantic, as far as the segmentation client uses them.
    The validators are pydantic's for a [str], an [Optional[str]] and a
    [float] field; the laws are the cases on which every pydantic version
    agrees.  An integer is converted to the float of the same value when it
    is one (up to [max_exact_int]); nothing is assumed of larger ones, which
    pydantic rounds or refuses. *)
Class PyLib : Type := {
  str_strip : string -> string;
  json_loads : string -> result json;
  py_repr : json -> string;
  validate_str : json -> result string;
  validate_opt_str : json -> result (option string);
  validate_float : json -> result Q;
  validate_str_JStr : forall s, validate_str (JStr s) = Ok s;
  validate_opt_str_JNull : validate_opt_str JNull = Ok None;
  validate_opt_str_JStr : forall s, validate_opt_str (JStr s) = Ok (Some s);
  validate_float_JInt :
    forall z, Z.abs z <= max_exact_int ->
              validate_float (JInt z) = Ok (inject_Z z);
  validate_float_JFloat : forall q, validate_float (JFloat q) = Ok q
}.

(** [str(v)] *)
Definition py_str {py : PyLib} (v : json) : string :=
  match v with
  | JStr s => s
  | _ => py_repr v
  end.

(** The google-genai client: [client.models.generate_content(...)] and the
    [text] of its response. *)
Class GenAI : Type := {
  generate_content :
    string -> string -> option string -> result (option string)
}.

(** ** services/gemini.py *)

Record GeminiService : Type := mkGeminiService {
  api_key : string;
  model : string
}.

Section GeminiService.

Context {codec : Codec} {py : PyLib} {genai : GenAI} {clk : Clock}
        {env : Environ}.

(** [GeminiService()]: the key and the model name come from the environment;
    an absent or empty key is refused. *)
Definition new_GeminiService : result GeminiService :=
  match getenv "GEMINI_API_KEY" with
  | Some (String c k) =>
      Ok {| api_key := String c k;
            model := match getenv "GEMINI_MODEL" with
                     | Some m => m
                     | None => "gemini-2.0-flash"
                     end |}
  | _ => Raise (ValueError "GEMINI_API_KEY environment variable is required")
  end.

(** [get_gemini_service()]: the singleton, built at first use. *)
Definition get_gemini_service : result GeminiService := new_GeminiService.

Definition _decode_base64 (base64_string : string) : result string :=
  let padding := (4 - String.length base64_string mod 4)%nat in
  let base64_string :=
    if (padding =? 4)%nat then base64_string
    else (base64_string ++ repeat_eq padding)%string in
  b64decode base64_string.

Local Open Scope result_scope.

(** [BoundingBox(ymin=..., xmin=..., ymax=..., xmax=...)] *)
Definition validate_BoundingBox (ymin_v xmin_v ymax_v xmax_v : json)
    : result BoundingBox :=
  y0 <- validate_float ymin_v ;;
  x0 <- validate_float xmin_v ;;
  y1 <- validate_float ymax_v ;;
  x1 <- validate_float xmax_v ;;
  Ok {| ymin := y0; xmin := x0; ymax := y1; xmax := x1 |}.

(** [QuestionSegment(id=..., text=..., subject=..., correctAnswer=...,
    boundingBox=...)]; the other fields take their default [None]. *)
Definition validate_QuestionSegment (id : string)
    (text_v subject_v correct_v : json) (box : BoundingBox)
    : result QuestionSegment :=
  text <- validate_str text_v ;;
  subject <- validate_opt_str subject_v ;;
  correct <- validate_opt_str correct_v ;;
  Ok {| qs_id := id;
        qs_boundingBox := box;
        qs_text := text;
        qs_cropUrl := None;
        qs_imageUrl := None;
        qs_sourceImageUrl := None;
        qs_subject := subject;
        qs_chapter := None;
        qs_correctAnswer := correct |}.

(** The body of the loop over the parsed questions. *)
Definition parse_question (q : json) : result QuestionSegment :=
  bbox <- dict_get q "boundingBox" (JDict []) ;;
  id_v <- dict_get q "id" (JStr "") ;;
  text_v <- dict_get q "text" (JStr "") ;;
  subject_v <- dict_get q "subject" JNull ;;
  correct_v <- dict_get q "correctAnswer" JNull ;;
  ymin_v <- dict_get bbox "ymin" (JInt 0) ;;
  xmin_v <- dict_get bbox "xmin" (JInt 0) ;;
  ymax_v <- dict_get bbox "ymax" (JInt 1000) ;;
  xmax_v <- dict_get bbox "xmax" (JInt 1000) ;;
  box <- validate_BoundingBox ymin_v xmin_v ymax_v xmax_v ;;
  validate_QuestionSegment (py_str id_v) text_v subject_v correct_v box.

(** [for q in ...: questions.append(...)] *)
Fixpoint parse_questions (items : list json) (questions : list QuestionSegment)
    : result (list QuestionSegment) :=
  match items with
  | [] => Ok questions
  | q :: rest =>
      seg <- parse_question q ;;
      parse_questions rest (questions ++ [seg])
  end.

(** From [response.text] to the [AnalysisResult]. *)
Definition parse_response (response_text : option string)
    : result AnalysisResult :=
  match response_text with
  | None | Some "" => Raise (ValueError "Empty response from Gemini")
  | Some text =>
      result_data <- json_loads (str_strip text) ;;
      qs <- dict_get result_data "questions" (JList []) ;;
      items <- py_iter qs ;;
      questions <- parse_questions items [] ;;
      Ok {| questions := questions |}
  end.

Local Open Scope M_scope.

(** The [try] block of [GeminiService.analyze_image]. *)
Definition analyze_image_body (self : GeminiService) (base64_image : string)
    (mime_type : option string) : M AnalysisResult :=
  let base64_image := strip_data_url_prefix base64_image in
  data <- lift (_decode_base64 base64_image) ;;
  emit (ModelCall (model self) mime_type) ;;;
  response_text <- lift (generate_content (model self) data mime_type) ;;
  result <- lift (parse_response response_text) ;;
  _ <- time_time ;;
  ret result.

(** [GeminiService.analyze_image]: a [JSONDecodeError] is turned into a
    [ValueError]; everything else is raised again unchanged. *)
Definition GeminiService_analyze_image (self : GeminiService)
    (base64_image : string) (mime_type : option string) : M AnalysisResult :=
  _ <- time_time ;;
  try_except (analyze_image_body self base64_image mime_type)
    (fun e =>
       if is_JSONDecodeError e
       then raise (ValueError
                     ("Failed to parse Gemini response: " ++ exn_str e)%string)
       else raise e).

End GeminiService.

(** ** services/pdf.py *)

(** PyMuPDF: opening a document gives its pages; rendering a page at a zoom
    factor gives PNG bytes
    ([page.get_pixmap(matrix=fitz.Matrix(zoom, zoom), alpha=False)
      .tobytes("png")]). *)
Class Fitz : Type := {
  Page : Type;
  fitz_open : string -> result (list Page);
  render_png : Page -> Q -> result string
}.

Record PDFService : Type := mkPDFService {
  dpi : Z;
  zoom : Q
}.

(** [PDFService(dpi)]: [zoom = dpi / 72]. *)
Definition new_PDFService (dpi : Z) : PDFService :=
  {| dpi := dpi; zoom := (inject_Z dpi / 72)%Q |}.

(** [get_pdf_service()]: the singleton, with the default resolution. *)
Definition get_pdf_service : PDFService := new_PDFService 200.

(** [range(n)] *)
Definition range (n : nat) : list Z := map Z.of_nat (seq 0 n).

Section PDFService.

Context {codec : Codec} {fitz : Fitz}.

Local Open Scope M_scope.

(** [len(doc)] *)
Definition page_count (doc : list Page) : Z := Z.of_nat (List.length doc).

(** [doc[page_num]]: a negative number counts from the end. *)
Definition doc_getitem (doc : list Page) (page_num : Z) : result Page :=
  if page_count doc <=? page_num then
    Raise (RuntimeError "page not in document")
  else
    match nth_error doc (Z.to_nat (page_num mod page_count doc)) with
    | Some page => Ok page
    | None => Raise (RuntimeError "page not in document")
    end.

(** [fitz.open(stream=pdf_bytes, filetype="pdf")] *)
Definition open_document (pdf_bytes : string) : M (list Page) :=
  doc <- lift (fitz_open pdf_bytes) ;;
  emit DocOpen ;;;
  ret doc.

(** Rendering one page to its data URL. *)
Definition render_page (self : PDFService) (doc : list Page) (page_num : Z)
    : M string :=
  page <- lift (doc_getitem doc page_num) ;;
  emit (PageRender page_num) ;;;
  png_bytes <- lift (render_png page (zoom self)) ;;
  ret (png_data_url png_bytes).

(** The [for page_num in range(total_pages)] loop of [pdf_to_images]. *)
Fixpoint render_loop (self : PDFService) (doc : list Page) (total_pages : Z)
    (on_progress : option (Z -> Z -> M unit)) (page_nums : list Z)
    (images : list string) : M (list string) :=
  match page_nums with
  | [] => ret images
  | page_num :: rest =>
      data_url <- render_page self doc page_num ;;
      let images := images ++ [data_url] in
      match on_progress with
      | Some callback => callback (page_num + 1) total_pages
      | None => ret tt
      end ;;;
      render_loop self doc total_pages on_progress rest images
  end.

Definition pdf_to_images (self : PDFService) (pdf_bytes : string)
    (on_progress : option (Z -> Z -> M unit)) : M (list string) :=
  doc <- open_document pdf_bytes ;;
  let total_pages := page_count doc in
  try_finally
    (render_loop self doc total_pages on_progress
       (range (List.length doc)) [])
    (emit DocClose).

Definition get_page_count (pdf_bytes : string) : M Z :=
  doc <- open_document pdf_bytes ;;
  let count := page_count doc in
  emit DocClose ;;;
  ret count.

Definition pdf_to_single_image (self : PDFService) (pdf_bytes : string)
    (page_num : Z) : M string :=
  doc <- open_document pdf_bytes ;;
  try_finally
    (if page_count doc <=? page_num then
       raise (ValueError
                ("Page " ++ string_of_Z page_num
                 ++ " does not exist (PDF has "
                 ++ string_of_Z (page_count doc) ++ " pages)")%string)
     else render_page self doc page_num)
    (emit DocClose).

End PDFService.

(** ** routers/analyze.py *)

(** An uploaded file: its name and what reading it gives. *)
Record UploadFile : Type := mkUploadFile {
  filename : string;
  file_content : result string
}.

(** [await file.read()] *)
Definition file_read (file : UploadFile) : M string :=
  bind (emit (FileRead (filename file))) (fun _ => lift (file_content file)).

(** [get_image_service()]: the singleton, with the default padding. *)
Definition get_image_service : ImageService := default_image_service.

(** [enumerate(xs)], from index [j]. *)
Fixpoint enumerate_from {A : Type} (j : nat) (xs : list A) : list (nat * A) :=
  match xs with
  | [] => []
  | x :: rest => (j, x) :: enumerate_from (S j) rest
  end.

(** The loop that copies the crop artifacts into the questions
    ([q.cropUrl = cropped[j].cropUrl], and the page reference when the
    caller has one), guarded by [j < len(cropped)]. *)
Definition attach_crops (source : option string)
    (qs : list QuestionSegment) (cropped : list CroppedSegment)
    : list QuestionSegment :=
  map (fun jq : nat * QuestionSegment =>
         let (j, q) := jq in
         match nth_error cropped j with
         | Some c =>
             {| qs_id := qs_id q;
                qs_boundingBox := qs_boundingBox q;
                qs_text := qs_text q;
                qs_cropUrl := Some (cs_cropUrl c);
                qs_imageUrl := qs_imageUrl q;
                qs_sourceImageUrl :=
                  match source with
                  | Some page_image => Some page_image
                  | None => qs_sourceImageUrl q
                  end;
                qs_subject := qs_subject q;
                qs_chapter := qs_chapter q;
                qs_correctAnswer := qs_correctAnswer q |}
         | None => q
         end)
      (enumerate_from 0 qs).

(** [bool(xs)] of a list *)
Definition nonempty {A : Type} (xs : list A) : bool :=
  match xs with
  | [] => false
  | _ :: _ => true
  end.

Section Router.

Context {codec : Codec} {py : PyLib} {genai : GenAI} {clk : Clock}
        {env : Environ} {fitz : Fitz}.

Local Open Scope M_scope.

(** The [try] block of the endpoint [POST /api/analyze]. *)
Definition analyze_image_try (request : AnalyzeImageRequest)
    (start_time : Q) : M AnalyzeImageResponse :=
  gemini <- lift get_gemini_service ;;
  result <- GeminiService_analyze_image gemini (req_image request)
              (req_mimeType request) ;;
  now <- time_time ;;
  let elapsed_ms := elapsed_ms_between start_time now in
  ret {| air_success := true;
         air_questions := questions result;
         air_error := None;
         air_processingTimeMs := Some elapsed_ms |}.

(** [POST /api/analyze].  An exception that leaves the handler is the
    protocol-level error the framework answers with. *)
Definition analyze_image (request : AnalyzeImageRequest)
    : M AnalyzeImageResponse :=
  start_time <- time_time ;;
  try_except (analyze_image_try request start_time)
    (fun e =>
       if is_ValueError e then raise (HTTPException 400 (exn_str e))
       else ret {| air_success := false;
                   air_questions := [];
                   air_error := Some (exn_str e);
                   air_processingTimeMs := None |}).

(** One page of the document: analyse it and, when it has questions, crop
    them and attach the artifacts and the page reference. *)
Definition analyze_page (gemini : GeminiService) (image_service : ImageService)
    (page_image : string) : M AnalysisResult :=
  result <- GeminiService_analyze_image gemini page_image (Some "image/png") ;;
  if nonempty (questions result) then
    cropped <- lift (extract_crops image_service page_image
                       (questions result)) ;;
    ret {| questions :=
             attach_crops (Some page_image) (questions result) cropped |}
  else ret result.

(** The [for i, page_image in enumerate(page_images)] loop. *)
Fixpoint pages_loop (gemini : GeminiService) (image_service : ImageService)
    (page_images : list string) (all_questions : list QuestionSegment)
    (page_results : list AnalysisResult)
    : M (list QuestionSegment * list AnalysisResult) :=
  match page_images with
  | [] => ret (all_questions, page_results)
  | page_image :: rest =>
      result <- analyze_page gemini image_service page_image ;;
      pages_loop gemini image_service rest
        (all_questions ++ questions result) (page_results ++ [result])
  end.

(** The [try] block of the endpoint [POST /api/analyze-pdf]. *)
Definition analyze_pdf_try (file : UploadFile) (start_time : Q)
    : M PDFAnalysisResponse :=
  pdf_bytes <- file_read file ;;
  let pdf_service := get_pdf_service in
  gemini <- lift get_gemini_service ;;
  let image_service := get_image_service in
  page_images <- pdf_to_images pdf_service pdf_bytes None ;;
  let total_pages := Z.of_nat (List.length page_images) in
  acc <- pages_loop gemini image_service page_images [] [] ;;
  let (all_questions, page_results) := acc in
  now <- time_time ;;
  let elapsed_ms := elapsed_ms_between start_time now in
  stamp <- time_time ;;
  ret {| success := true;
         taskId := ("pdf_" ++ string_of_Z (Qtrunc stamp))%string;
         pages := total_pages;
         allQuestions := all_questions;
         pageResults := page_results;
         error := None;
         processingTimeMs := Some elapsed_ms |}.

(** The failure response of [POST /api/analyze-pdf]. *)
Definition pdf_failure (e : exn) : PDFAnalysisResponse :=
  {| success := false;
     taskId := "";
     pages := 0;
     allQuestions := [];
     pageResults := [];
     error := Some (exn_str e);
     processingTimeMs := None |}.

(** [POST /api/analyze-pdf] *)
Definition analyze_pdf (file : UploadFile) : M PDFAnalysisResponse :=
  start_time <- time_time ;;
  if negb (endswith (lower (filename file)) ".pdf") then
    raise (HTTPException 400 "File must be a PDF")
  else
    try_except (analyze_pdf_try file start_time)
      (fun e => ret (pdf_failure e)).

(** [POST /api/crop] *)
Definition crop_image (request : CropImageRequest) : M CropImageResponse :=
  try_except
    (let image_service := get_image_service in
     cropped <- lift (extract_crops image_service (creq_image request)
                        (creq_segments request)) ;;
     ret {| cir_success := true; cir_segments := cropped; cir_error := None |})
    (fun e => ret {| cir_success := false;
                     cir_segments := [];
                     cir_error := Some (exn_str e) |}).

(** [POST /api/analyze-with-crop] *)
Definition analyze_and_crop (request : AnalyzeImageRequest)
    : M AnalyzeImageResponse :=
  start_time <- time_time ;;
  try_except
    (gemini <- lift get_gemini_service ;;
     let image_service := get_image_service in
     result <- GeminiService_analyze_image gemini (req_image request)
                 (req_mimeType request) ;;
     qs <- (if nonempty (questions result) then
              cropped <- lift (extract_crops image_service (req_image request)
                                 (questions result)) ;;
              ret (attach_crops None (questions result) cropped)
            else ret (questions result)) ;;
     now <- time_time ;;
     let elapsed_ms := elapsed_ms_between start_time now in
     ret {| air_success := true;
            air_questions := qs;
            air_error := None;
            air_processingTimeMs := Some elapsed_ms |})
    (fun e => ret {| air_success := false;
                     air_questions := [];
                     air_error := Some (exn_str e);
                     air_processingTimeMs := None |}).

End Router.

(** ** main.py and the remaining methods *)

Record HealthResponse : Type := mkHealthResponse {
  hr_status : string;
  hr_version : string;
  geminiConfigured : bool
}.

(** [bool(s)] of an [Optional[str]] *)
Definition truthy (o : option string) : bool :=
  match o with
  | Some (String _ _) => true
  | _ => false
  end.

(** [GeminiService.is_configured] *)
Definition is_configured (self : GeminiService) : bool :=
  truthy (Some (api_key self)).

(** [GET /health] *)
Definition health_check {env : Environ} : HealthResponse :=
  {| hr_status := "healthy";
     hr_version := "1.0.0";
     geminiConfigured := truthy (getenv "GEMINI_API_KEY") |}.

(** [GET /] *)
Definition root {env : Environ} : HealthResponse :=
  {| hr_status := "healthy";
     hr_version := "1.0.0";
     geminiConfigured := truthy (getenv "GEMINI_API_KEY") |}.

(** ** A small concrete world, on which the definitions run *)

Module Sample.

Definition blank (w h : Z) : Image :=
  {| im_width := w; im_height := h; im_pixel := fun _ _ => white |}.

(** Base64 is the identity here, a PNG is summarised by its size, and every
    byte string that starts with [pg] decodes to a white 100 x 100 image. *)
Definition codec : Codec :=
  {| b64encode := fun s => s;
     b64decode := fun s => Ok s;
     png_encode := fun im =>
       ("PNG" ++ string_of_Z (im_width im) ++ "x"
        ++ string_of_Z (im_height im))%string;
     image_open := fun s =>
       if String.prefix "pg" s then Ok (blank 100 100)
       else Raise (RuntimeError "cannot identify image file") |}.

Definition question_1 : json :=
  JDict [("id", JStr "1"); ("text", JStr "2 + 2 = ?");
         ("subject", JStr "Math"); ("correctAnswer", JStr "B");
         ("boundingBox",
          JDict [("ymin", JInt 100); ("xmin", JInt 0);
                 ("ymax", JInt 300); ("xmax", JInt 1000)])].

Definition question_bare : json := JDict [].

Definition question_degenerate : json :=
  JDict [("id", JStr "7"); ("text", JStr "x");
         ("boundingBox",
          JDict [("ymin", JInt 2000); ("xmin", JInt 2000);
                 ("ymax", JInt 2000); ("xmax", JInt 2000)])].

(** An integer beyond [max_exact_int] as a float field: rounded, and refused
    when it rounds to an infinity. *)
Definition float_of_large_int (z : Z) : result Q :=
  let x := round64 (inject_Z z) in
  if finite64 x then Ok x
  else Raise (ValidationError "Input should be a finite number").

Definition float_of_json (v : json) : result Q :=
  match v with
  | JInt z =>
      if Z.abs z <=? max_exact_int then Ok (inject_Z z)
      else float_of_large_int z
  | JFloat q => Ok q
  | _ => Raise (ValidationError "Input should be a valid number")
  end.

Definition pylib : PyLib :=
  {| str_strip := fun s => s;
     json_loads := fun s =>
       if String.eqb s "one" then
         Ok (JDict [("questions", JList [question_1])])
       else if String.eqb s "none" then Ok (JDict [("questions", JList [])])
       else if String.eqb s "two" then
         Ok (JDict [("questions", JList [question_bare; question_degenerate])])
       else Raise (JSONDecodeError "Expecting value: line 1 column 1 (char 0)");
     py_repr := fun _ => "?";
     validate_str := fun v =>
       match v with
       | JStr s => Ok s
       | _ => Raise (ValidationError "Input should be a valid string")
       end;
     validate_opt_str := fun v =>
       match v with
       | JNull => Ok None
       | JStr s => Ok (Some s)
       | _ => Raise (ValidationError "Input should be a valid string")
       end;
     validate_float := float_of_json;
     validate_str_JStr := fun _ => eq_refl;
     validate_opt_str_JNull := eq_refl;
     validate_opt_str_JStr := fun _ => eq_refl;
     validate_float_JInt := fun z H =>
       f_equal (fun b : bool =>
                  if b then Ok (inject_Z z) else float_of_large_int z)
               (proj2 (Z.leb_le (Z.abs z) max_exact_int) H);
     validate_float_JFloat := fun _ => eq_refl |}.

(** The model answers by the image it is shown. *)
Definition genai : GenAI :=
  {| generate_content := fun _ data _ =>
       if String.eqb data "pg01" then Ok (Some "one")
       else if String.eqb data "pg02" then Ok (Some "none")
       else if String.eqb data "pg03" then Ok (Some "two")
       else if String.eqb data "pg04" then Ok (Some "<html>")
       else if String.eqb data "pg05" then Ok None
       else Raise (RuntimeError "503 UNAVAILABLE") |}.

Definition clk : Clock :=
  {| clock := fun n => inject_Z (1700000000 + Z.of_nat n) |}.

Definition env : Environ :=
  {| getenv := fun k =>
       if String.eqb k "GEMINI_API_KEY" then Some "secret" else None |}.

(** A document is the list of the byte strings its pages render to. *)
Definition fitz : Fitz :=
  {| Page := string;
     fitz_open := fun b =>
       if String.eqb b "%PDF three" then Ok ["pg01"; "pg02"; "pg03"]
       else if String.eqb b "%PDF bad page" then Ok ["pg01"; "pg04"]
       else Raise (RuntimeError "Failed to open stream");
     render_png := fun p _ => Ok p |}.

Definition w0 : world := {| trace := []; clock_reads := 0 |}.

Definition segment (id : string) (y0 x0 y1 x1 : Z) : QuestionSegment :=
  {| qs_id := id;
     qs_boundingBox := {| ymin := inject_Z y0; xmin := inject_Z x0;
                          ymax := inject_Z y1; xmax := inject_Z x1 |};
     qs_text := "text of " ++ id;
     qs_cropUrl := Some "stale";
     qs_imageUrl := Some "image";
     qs_sourceImageUrl := None;
     qs_subject := Some "Physics";
     qs_chapter := None;
     qs_correctAnswer := Some "C" |}.

(** A document whose second page cannot be rendered. *)
Definition fitz_torn : Fitz :=
  {| Page := string;
     fitz_open := fun b =>
       if String.eqb b "%PDF torn" then Ok ["pg01"; "torn"; "pg03"]
       else Raise (RuntimeError "Failed to open stream");
     render_png := fun p _ =>
       if String.eqb p "torn" then Raise (RuntimeError "cannot render page")
       else Ok p |}.

(** An environment without an API key. *)
Definition env_unset : Environ := {| getenv := fun _ => None |}.

(** A model that answers with JSON of other shapes, and the parser for it. *)
Definition genai_shapes : GenAI :=
  {| generate_content := fun _ data _ =>
       if String.eqb data "pg01" then Ok (Some "{}")
       else Ok (Some "[]") |}.

Definition pylib_shapes : PyLib :=
  {| str_strip := fun s => s;
     json_loads := fun s =>
       if String.eqb s "{}" then Ok (JDict [])
       else if String.eqb s "[]" then Ok (JList [])
       else Raise (JSONDecodeError "Expecting value: line 1 column 1 (char 0)");
     py_repr := fun _ => "?";
     validate_str := validate_str (PyLib := pylib);
     validate_opt_str := validate_opt_str (PyLib := pylib);
     validate_float := validate_float (PyLib := pylib);
     validate_str_JStr := fun _ => eq_refl;
     validate_opt_str_JNull := eq_refl;
     validate_opt_str_JStr := fun _ => eq_refl;
     validate_float_JInt := validate_float_JInt (PyLib := pylib);
     validate_float_JFloat := fun _ => eq_refl |}.

End Sample.

(** ** Vocabulary of the properties *)

(** A box on the 0-1000 scale, with its corners in order. *)
Definition in_scale (bbox : BoundingBox) : Prop :=
  (0 <= ymin bbox /\ ymin bbox <= ymax bbox /\ ymax bbox <= 1000)%Q
  /\ (0 <= xmin bbox /\ xmin bbox <= xmax bbox /\ xmax bbox <= 1000)%Q.

(** A box without area. *)
Definition degenerate (bbox : BoundingBox) : Prop :=
  (ymin bbox == ymax bbox)%Q \/ (xmin bbox == xmax bbox)%Q.

(** A pixel rectangle whose edges are in the wrong order. *)
Definition inverted (rect : Z * Z * Z * Z) : Prop :=
  let '(x1, y1, x2, y2) := rect in x2 < x1 \/ y2 < y1.

(** Two segments that differ at most in [cropUrl], [imageUrl] and
    [sourceImageUrl]. *)
Definition same_content (s s' : QuestionSegment) : Prop :=
  qs_id s = qs_id s'
  /\ qs_boundingBox s = qs_boundingBox s'
  /\ qs_text s = qs_text s'
  /\ qs_subject s = qs_subject s'
  /\ qs_chapter s = qs_chapter s'
  /\ qs_correctAnswer s = qs_correctAnswer s'.

(** The whole image, as a box. *)
Definition whole_image : BoundingBox :=
  {| ymin := 0; xmin := 0; ymax := 1000; xmax := 1000 |}.

(** The width and the height of a pixel rectangle. *)
Definition rect_width (rect : Z * Z * Z * Z) : Z :=
  let '(x1, _, x2, _) := rect in x2 - x1.

Definition rect_height (rect : Z * Z * Z * Z) : Z :=
  let '(_, y1, _, y2) := rect in y2 - y1.

(** The value under a key of a JSON object, when it is there. *)
Definition field (v : json) (k : string) : option json :=
  match v with
  | JDict entries => assoc k entries
  | _ => None
  end.

Definition absent_or (P : json -> bool) (o : option json) : bool :=
  match o with
  | None => true
  | Some v => P v
  end.

Definition is_dict (v : json) : bool :=
  match v with
  | JDict _ => true
  | _ => false
  end.

Definition is_str (v : json) : bool :=
  match v with
  | JStr _ => true
  | _ => false
  end.

Definition is_opt_str (v : json) : bool :=
  match v with
  | JNull | JStr _ => true
  | _ => false
  end.

(** A JSON number that a float field takes as it is: a float, or an integer
    that is a float. *)
Definition is_number (v : json) : bool :=
  match v with
  | JInt z => Z.abs z <=? max_exact_int
  | JFloat _ => true
  | _ => false
  end.

(** The float a JSON number denotes. *)
Definition number_of (v : json) : Q :=
  match v with
  | JInt z => inject_Z z
  | JFloat q => q
  | _ => 0%Q
  end.

(** The string a JSON string is. *)
Definition string_of (v : json) : string :=
  match v with
  | JStr s => s
  | _ => ""
  end.

(** The optional string a JSON string or [null] is. *)
Definition opt_string_of (v : json) : option string :=
  match v with
  | JStr s => Some s
  | _ => None
  end.

(** The field [o] of a record is decoded to [x]: to the default [d] when the
    field is absent, to the reading [f v] of its value [v] when it is
    there. *)
Definition decodes {A : Type} (o : option json) (d : A) (f : json -> A)
    (x : A) : Prop :=
  match o with
  | None => x = d
  | Some v => x = f v
  end.

(** A bounding-box object whose coordinates, where present, are numbers. *)
Definition well_typed_box (b : json) : bool :=
  is_dict b
  && absent_or is_number (field b "ymin")
  && absent_or is_number (field b "xmin")
  && absent_or is_number (field b "ymax")
  && absent_or is_number (field b "xmax").

(** A question record in which every field that is present has the type the
    response shape gives it; any field may be absent. *)
Definition well_typed_question (q : json) : bool :=
  is_dict q
  && absent_or is_str (field q "text")
  && absent_or is_opt_str (field q "subject")
  && absent_or is_opt_str (field q "correctAnswer")
  && absent_or well_typed_box (field q "boundingBox").

(** The bounding-box object of a question record, [{}] when absent. *)
Definition box_of (q : json) : json :=
  match field q "boundingBox" with
  | Some b => b
  | None => JDict []
  end.

(** The reply of the external model carries no text. *)
Definition empty_reply (reply : option string) : bool :=
  match reply with
  | None | Some "" => true
  | Some _ => false
  end.

(** The callback that records its calls in the trace. *)
Definition record_progress (current total : Z) : M unit :=
  emit (Progress current total).

(** The events of rendering the pages [page_nums] of a document of [total]
    pages, with or without a recording progress callback. *)
Definition page_events (with_progress : bool) (total : Z)
    (page_nums : list Z) : list event :=
  flat_map (fun page_num =>
              PageRender page_num
                :: (if with_progress then [Progress (page_num + 1) total]
                    else []))
           page_nums.

(** The progress reports in a trace, in order. *)
Definition progress_calls (tr : list event) : list (Z * Z) :=
  flat_map (fun ev => match ev with
                      | Progress current total => [(current, total)]
                      | _ => []
                      end) tr.

(** The world after more events. *)
Definition after (w : world) (evs : list event) : world :=
  {| trace := trace w ++ evs; clock_reads := clock_reads w |}.

(** The world after one more clock reading. *)
Definition tick (w : world) : world :=
  {| trace := trace w; clock_reads := S (clock_reads w) |}.

(** The event is the rendering of a page. *)
Definition is_page_render (ev : event) : bool :=
  match ev with
  | PageRender _ => true
  | _ => false
  end.

(** A clock that never runs backwards. *)
Definition monotone_clock (clk : Clock) : Prop :=
  forall n m : nat, (n <= m)%nat -> (clock n <= clock m)%Q.

(** A question as the segmentation client creates it: nothing but the
    decoded fields is set. *)
Definition fresh_question (q : QuestionSegment) : Prop :=
  qs_cropUrl q = None /\ qs_imageUrl q = None
  /\ qs_sourceImageUrl q = None /\ qs_chapter q = None.

(** What leaves [GeminiService.analyze_image] when [e] is raised inside its
    [try] block. *)
Definition reraised (e : exn) : exn :=
  if is_JSONDecodeError e
  then ValueError ("Failed to parse Gemini response: " ++ exn_str e)%string
  else e.

(** The failure body of the single-image endpoints. *)
Definition image_failure (msg : string) : AnalyzeImageResponse :=
  {| air_success := false;
     air_questions := [];
     air_error := Some msg;
     air_processingTimeMs := None |}.

(** * Properties *)

(** ** Truncation, rounding and scaling *)

(** *** Powers of two *)

Lemma pow2_pos (e : Z) : (0 < pow2 e)%Q.
Proof. apply Qpower_0_lt. reflexivity. Qed.

Lemma pow2_add (a b : Z) : (pow2 (a + b) == pow2 a * pow2 b)%Q.
Proof. apply Qpower_plus. discriminate. Qed.

Lemma pow2_Z (k : Z) : 0 <= k -> (pow2 k == inject_Z (2 ^ k))%Q.
Proof. intros Hk. unfold pow2. now rewrite Zpower_Qpower. Qed.

Lemma pow2_le (a b : Z) : a <= b -> (pow2 a <= pow2 b)%Q.
Proof. intros H. apply Qpower_le_compat_l; [exact H | discriminate]. Qed.

Lemma pow2_lt_inv (a b : Z) : (pow2 a < pow2 b)%Q -> a < b.
Proof. intros H. apply (Qpower_lt_compat_l_inv 2); [exact H | reflexivity]. Qed.

Lemma pow2_cancel (s : Z) : (pow2 (- s) * pow2 s == 1)%Q.
Proof. rewrite <- pow2_add. now replace (- s + s) with 0 by lia. Qed.

(** *** Rounding to the nearest integer *)

#[local] Instance rne_comp : Proper (Qeq ==> eq) rne.
Proof.
  intros x y E. unfold rne. rewrite (Qfloor_comp _ _ E).
  rewrite E. reflexivity.
Qed.

Lemma rne_Z (n : Z) : rne (inject_Z n) = n.
Proof.
  unfold rne. rewrite Qfloor_Z.
  assert (E : (inject_Z n - inject_Z n == 0)%Q) by ring.
  rewrite E. reflexivity.
Qed.

Lemma rne_cases (x : Q) :
  (rne x = Qfloor x /\ (x - inject_Z (Qfloor x) <= 1 # 2)%Q
   /\ ((x - inject_Z (Qfloor x) == 1 # 2)%Q -> Z.even (Qfloor x) = true))
  \/ (rne x = Qfloor x + 1 /\ (1 # 2 <= x - inject_Z (Qfloor x))%Q
      /\ ((x - inject_Z (Qfloor x) == 1 # 2)%Q -> Z.even (Qfloor x) = false)).
Proof.
  unfold rne.
  destruct (Qcompare_spec (x - inject_Z (Qfloor x)) (1 # 2)) as [E | L | G].
  - destruct (Z.even (Qfloor x)) eqn:Ev.
    + left. repeat split; auto. rewrite E. apply Qle_refl.
    + right. repeat split; auto. rewrite E. apply Qle_refl.
  - left. repeat split.
    + now apply Qlt_le_weak.
    + intros E. rewrite E in L. now apply Qlt_irrefl in L.
  - right. repeat split.
    + now apply Qlt_le_weak.
    + intros E. rewrite E in G. now apply Qlt_irrefl in G.
Qed.

Lemma rne_mono (x y : Q) : (x <= y)%Q -> rne x <= rne y.
Proof.
  intros Hxy.
  pose proof (Qfloor_resp_le _ _ Hxy) as Hf.
  destruct (rne_cases x) as [[Rx [Bx Tx]] | [Rx [Bx Tx]]];
    destruct (rne_cases y) as [[Ry [By Ty]] | [Ry [By Ty]]];
    rewrite Rx, Ry; try lia.
  destruct (Z.eq_dec (Qfloor x) (Qfloor y)) as [E | N]; [|lia].
  exfalso. rewrite E in Bx, Tx.
  assert (Ex : (x - inject_Z (Qfloor y) == 1 # 2)%Q).
  { apply Qle_antisym; [|exact Bx].
    apply Qle_trans with (y - inject_Z (Qfloor y))%Q; [|exact By].
    apply Qplus_le_compat; [exact Hxy | apply Qle_refl]. }
  assert (Ey : (y - inject_Z (Qfloor y) == 1 # 2)%Q).
  { apply Qle_antisym; [exact By|].
    rewrite <- Ex. apply Qplus_le_compat; [exact Hxy | apply Qle_refl]. }
  rewrite (Tx Ex) in Ty. specialize (Ty Ey). discriminate.
Qed.

Lemma rne_nonneg (x : Q) : (0 <= x)%Q -> 0 <= rne x.
Proof. intros H. change 0 with (rne (inject_Z 0)). now apply rne_mono. Qed.

(** *** Rounding to a multiple of a power of two *)

Lemma round_at_mono (s : Z) (x y : Q) :
  (x <= y)%Q -> (round_at s x <= round_at s y)%Q.
Proof.
  intros H. unfold round_at.
  apply Qmult_le_compat_r; [|apply Qlt_le_weak, pow2_pos].
  rewrite <- Zle_Qle. apply rne_mono.
  apply Qmult_le_compat_r; [exact H | apply Qlt_le_weak, pow2_pos].
Qed.

#[local] Instance round_at_comp (s : Z) : Proper (Qeq ==> Qeq) (round_at s).
Proof. intros x y E. unfold round_at. now rewrite E. Qed.

Lemma round_at_fix (s n : Z) :
  (round_at s (inject_Z n * pow2 s) == inject_Z n * pow2 s)%Q.
Proof.
  unfold round_at.
  assert (E : (inject_Z n * pow2 s * pow2 (- s) == inject_Z n)%Q).
  { rewrite <- Qmult_assoc, (Qmult_comm (pow2 s)), pow2_cancel. ring. }
  rewrite E, rne_Z. reflexivity.
Qed.

Lemma round_at_pow2 (s e : Z) :
  s <= e -> (round_at s (pow2 e) == pow2 e)%Q.
Proof.
  intros H.
  assert (E : (pow2 e == inject_Z (2 ^ (e - s)) * pow2 s)%Q).
  { rewrite <- pow2_Z by lia. rewrite <- pow2_add.
    now replace (e - s + s) with e by lia. }
  rewrite E at 1. rewrite round_at_fix. now rewrite <- E.
Qed.

Lemma round_at_nonneg (s : Z) (x : Q) : (0 <= x)%Q -> (0 <= round_at s x)%Q.
Proof.
  intros H. unfold round_at. apply Qmult_le_0_compat.
  - change 0%Q with (inject_Z 0). rewrite <- Zle_Qle. apply rne_nonneg.
    apply Qmult_le_0_compat; [exact H | apply Qlt_le_weak, pow2_pos].
  - apply Qlt_le_weak, pow2_pos.
Qed.

(** *** The binary exponent *)

Lemma Qabs_pos_eq (x : Q) : (0 < x)%Q -> Qabs x = x.
Proof.
  destruct x as [[|p|p] d]; unfold Qlt; cbn; intros H; try lia. reflexivity.
Qed.

Lemma Qlog2_spec (x : Q) :
  (0 < x)%Q -> (pow2 (Qlog2 x) <= x)%Q /\ (x < pow2 (Qlog2 x + 1))%Q.
Proof.
  intros Hx. destruct x as [n d].
  assert (Hn : 0 < n) by (unfold Qlt in Hx; cbn in Hx; lia).
  pose proof (Z.log2_spec n Hn) as [Ln Un].
  pose proof (Z.log2_spec (Zpos d) (Pos2Z.is_pos d)) as [Ld Ud].
  pose proof (Z.log2_nonneg n) as Nn.
  pose proof (Z.log2_nonneg (Zpos d)) as Nd.
  unfold Qlog2. cbn [Qnum Qden].
  set (ln := Z.log2 n) in *. set (ld := Z.log2 (Zpos d)) in *.
  assert (Hd : (0 < inject_Z (Zpos d))%Q) by reflexivity.
  assert (Ex : (n # d == inject_Z n / inject_Z (Zpos d))%Q) by apply Qmake_Qdiv.
  assert (A : (n # d < pow2 (ln - ld + 1))%Q).
  { rewrite Ex. apply Qlt_shift_div_r; [exact Hd|].
    apply Qlt_le_trans with (pow2 (ln + 1)).
    - rewrite pow2_Z by lia. now rewrite <- Zlt_Qlt.
    - replace (ln + 1) with ((ln - ld + 1) + ld) by lia.
      rewrite pow2_add. apply Qmult_le_l; [apply pow2_pos|].
      rewrite pow2_Z by lia. now rewrite <- Zle_Qle. }
  assert (B : (pow2 (ln - ld - 1) < n # d)%Q).
  { rewrite Ex. apply Qlt_shift_div_l; [exact Hd|].
    apply Qlt_le_trans with (pow2 ln).
    - replace ln with ((ln - ld - 1) + (ld + 1)) at 2 by lia.
      rewrite pow2_add. apply Qmult_lt_l; [apply pow2_pos|].
      rewrite pow2_Z by lia. now rewrite <- Zlt_Qlt.
    - rewrite pow2_Z by lia. now rewrite <- Zle_Qle. }
  destruct (Qle_bool (pow2 (ln - ld)) (n # d)) eqn:T.
  - split; [now apply Qle_bool_iff | exact A].
  - split; [now apply Qlt_le_weak|].
    replace (ln - ld - 1 + 1) with (ln - ld) by lia.
    apply Qnot_le_lt. intros C. apply Qle_bool_iff in C. congruence.
Qed.

Lemma Qlog2_mono (x y : Q) : (0 < x)%Q -> (x <= y)%Q -> Qlog2 x <= Qlog2 y.
Proof.
  intros Hx Hxy.
  destruct (Qlog2_spec x Hx) as [Lx _].
  destruct (Qlog2_spec y (Qlt_le_trans _ _ _ Hx Hxy)) as [_ Uy].
  assert (Qlog2 x < Qlog2 y + 1); [|lia].
  apply pow2_lt_inv.
  apply Qle_lt_trans with x; [exact Lx|].
  now apply Qle_lt_trans with y.
Qed.

(** *** Rounding to binary64 *)

Lemma round_at_0 (s : Z) (x : Q) : (x == 0)%Q -> (round_at s x == 0)%Q.
Proof.
  intros E. rewrite E.
  assert (E0 : (0 == inject_Z 0 * pow2 s)%Q) by ring.
  rewrite E0 at 1. rewrite round_at_fix. ring.
Qed.

Lemma round64_nonneg (x : Q) : (0 <= x)%Q -> (0 <= round64 x)%Q.
Proof. apply round_at_nonneg. Qed.

Lemma round64_mono (x y : Q) :
  (0 <= x)%Q -> (x <= y)%Q -> (round64 x <= round64 y)%Q.
Proof.
  intros Hx Hxy.
  destruct (Qlt_le_dec 0 x) as [Px | Zx].
  - assert (Py : (0 < y)%Q) by now apply Qlt_le_trans with x.
    unfold round64, ulp_exp. rewrite (Qabs_pos_eq x Px), (Qabs_pos_eq y Py).
    pose proof (Qlog2_mono x y Px Hxy) as He.
    destruct (Qlog2_spec x Px) as [_ Ux].
    destruct (Qlog2_spec y Py) as [Ly _].
    set (ex := Qlog2 x) in *. set (ey := Qlog2 y) in *.
    destruct (Z.eq_dec (Z.max (ex - 52) (-1074)) (Z.max (ey - 52) (-1074)))
      as [E | N].
    + rewrite E. now apply round_at_mono.
    + assert (Hlt : ex < ey) by lia.
      apply Qle_trans with (pow2 ey).
      * rewrite <- (round_at_pow2 (Z.max (ex - 52) (-1074)) ey) by lia.
        apply round_at_mono. apply Qlt_le_weak.
        apply Qlt_le_trans with (pow2 (ex + 1)); [exact Ux|].
        apply pow2_le. lia.
      * rewrite <- (round_at_pow2 (Z.max (ey - 52) (-1074)) ey) at 1 by lia.
        now apply round_at_mono.
  - assert (E : (x == 0)%Q) by now apply Qle_antisym.
    unfold round64 at 1. rewrite (round_at_0 _ _ E).
    apply round64_nonneg. now apply Qle_trans with x.
Qed.

Lemma round64_Z (z : Z) :
  0 <= z < 2 ^ 53 -> (round64 (inject_Z z) == inject_Z z)%Q.
Proof.
  intros [Hz Hb].
  destruct (Z.eq_dec z 0) as [-> | Nz].
  - now apply round_at_0.
  - assert (Pz : (0 < inject_Z z)%Q).
    { change 0%Q with (inject_Z 0). rewrite <- Zlt_Qlt. lia. }
    unfold round64, ulp_exp. rewrite (Qabs_pos_eq _ Pz).
    destruct (Qlog2_spec _ Pz) as [L U].
    set (e := Qlog2 (inject_Z z)) in *.
    assert (He : 0 <= e < 53).
    { split.
      - assert (0 < e + 1); [|lia]. apply pow2_lt_inv.
        apply Qle_lt_trans with (inject_Z z); [|exact U].
        change (pow2 0) with (inject_Z 1). rewrite <- Zle_Qle. lia.
      - apply pow2_lt_inv. apply Qle_lt_trans with (inject_Z z); [exact L|].
        rewrite pow2_Z by lia. now rewrite <- Zlt_Qlt. }
    replace (Z.max (e - 52) (-1074)) with (e - 52) by lia.
    assert (E : (inject_Z z == inject_Z (z * 2 ^ (52 - e)) * pow2 (e - 52))%Q).
    { rewrite inject_Z_mult, <- pow2_Z by lia.
      rewrite <- Qmult_assoc, <- pow2_add.
      replace (52 - e + (e - 52)) with 0 by lia. change (pow2 0) with 1%Q. ring. }
    rewrite E at 1. rewrite round_at_fix. now rewrite <- E.
Qed.

Lemma Qtrunc_nonneg (q : Q) : (0 <= q)%Q -> Qtrunc q = Qfloor q.
Proof.
  destruct q as [n d]. unfold Qle, Qtrunc, Qfloor. simpl. intros Hn.
  apply Z.quot_div_nonneg; lia.
Qed.

Lemma finite64_small (r : Q) (b : Z) :
  (0 <= r)%Q -> (r <= inject_Z b)%Q -> b < 2 ^ 1024 -> finite64 r = true.
Proof.
  intros H0 Hb Hlt. unfold finite64.
  destruct (Qle_bool (pow2 1024) (Qabs r)) eqn:T; [|reflexivity].
  exfalso. apply Qle_bool_iff in T. rewrite Qabs_pos in T by exact H0.
  assert (C : (pow2 1024 <= inject_Z b)%Q) by now apply Qle_trans with r.
  rewrite pow2_Z in C by lia. rewrite <- Zle_Qle in C. lia.
Qed.

(** Rounding keeps an order between non-negative numbers, and keeps the
    integers below [2 ** 53]: so does scaling. *)

Lemma ratio_bounds (c : Q) :
  (0 <= c)%Q -> (c <= 1000)%Q ->
  (0 <= round64 (c / 1000))%Q /\ (round64 (c / 1000) <= 1)%Q.
Proof.
  intros H0 H1. split.
  - apply round64_nonneg. apply Qle_shift_div_l; [reflexivity|].
    now rewrite Qmult_0_l.
  - rewrite <- (round64_Z 1) by (cbn; lia).
    apply round64_mono.
    + apply Qle_shift_div_l; [reflexivity|]. now rewrite Qmult_0_l.
    + apply Qle_shift_div_r; [reflexivity|]. now rewrite Qmult_1_l.
Qed.

Lemma ratio_mono (c1 c2 : Q) :
  (0 <= c1)%Q -> (c1 <= c2)%Q ->
  (0 <= round64 (c1 / 1000))%Q
  /\ (round64 (c1 / 1000) <= round64 (c2 / 1000))%Q.
Proof.
  intros H0 H12.
  assert (N : (0 <= c1 / 1000)%Q).
  { apply Qle_shift_div_l; [reflexivity|]. now rewrite Qmult_0_l. }
  split; [now apply round64_nonneg|].
  apply round64_mono; [exact N|].
  unfold Qdiv. apply Qmult_le_compat_r; [exact H12 | discriminate].
Qed.

Lemma float_of_int_exact (size : Z) :
  0 <= size < max_exact_int ->
  float_of_int size = Ok (round64 (inject_Z size))
  /\ (round64 (inject_Z size) == inject_Z size)%Q.
Proof.
  intros Hs. pose proof (round64_Z size Hs) as E.
  split; [|exact E]. unfold float_of_int.
  rewrite (finite64_small _ size); [reflexivity | | | ].
  - rewrite E. change 0%Q with (inject_Z 0). rewrite <- Zle_Qle. lia.
  - rewrite E. apply Qle_refl.
  - unfold max_exact_int in Hs.
    apply Z.lt_trans with (2 ^ 53); [lia | reflexivity].
Qed.

Lemma scale_coord_inv (c : Q) (size s : Z) :
  scale_coord c size = Ok s ->
  exists size_f : Q,
    float_of_int size = Ok size_f
    /\ size_f = round64 (inject_Z size)
    /\ s = Qtrunc (round64 (round64 (c / 1000) * size_f)).
Proof.
  unfold scale_coord, float_of_int, int_of_rounded.
  destruct (finite64 (round64 (inject_Z size))); cbn [rbind]; [|discriminate].
  destruct (finite64 _); [|discriminate].
  intros [= <-]. eexists. repeat split.
Qed.

(** The scaled coordinate grows with the coordinate. *)
Lemma scale_coord_mono (c1 c2 : Q) (size s1 s2 : Z) :
  (0 <= c1)%Q -> (c1 <= c2)%Q -> 0 <= size ->
  scale_coord c1 size = Ok s1 -> scale_coord c2 size = Ok s2 ->
  0 <= s1 /\ s1 <= s2.
Proof.
  intros H0 H12 Hs E1 E2.
  destruct (scale_coord_inv _ _ _ E1) as [f1 [_ [F1 ->]]].
  destruct (scale_coord_inv _ _ _ E2) as [f2 [_ [F2 ->]]].
  subst f1 f2.
  destruct (ratio_mono c1 c2 H0 H12) as [R0 R12].
  assert (Hf : (0 <= round64 (inject_Z size))%Q).
  { apply round64_nonneg. change 0%Q with (inject_Z 0).
    now rewrite <- Zle_Qle. }
  assert (P1 : (0 <= round64 (c1 / 1000) * round64 (inject_Z size))%Q)
    by now apply Qmult_le_0_compat.
  assert (P12 : (round64 (c1 / 1000) * round64 (inject_Z size)
                 <= round64 (c2 / 1000) * round64 (inject_Z size))%Q)
    by now apply Qmult_le_compat_r.
  pose proof (round64_nonneg _ P1) as Q1.
  pose proof (round64_mono _ _ P1 P12) as Q12.
  rewrite !Qtrunc_nonneg by (try exact Q1; now apply Qle_trans with (1 := Q1)).
  split; [|now apply Qfloor_resp_le].
  change 0 with (Qfloor 0). now apply Qfloor_resp_le.
Qed.

(** A coordinate on the 0-1000 scale is scaled into the image. *)
Lemma scale_coord_in_scale (c : Q) (size : Z) :
  (0 <= c)%Q -> (c <= 1000)%Q -> 0 <= size < max_exact_int ->
  exists s : Z, scale_coord c size = Ok s /\ 0 <= s <= size.
Proof.
  intros H0 H1 Hs.
  destruct (float_of_int_exact size Hs) as [Ef Hf].
  destruct (ratio_bounds c H0 H1) as [R0 R1].
  assert (Hsz : (0 <= inject_Z size)%Q).
  { change 0%Q with (inject_Z 0). rewrite <- Zle_Qle. lia. }
  assert (P0 : (0 <= round64 (c / 1000) * round64 (inject_Z size))%Q).
  { apply Qmult_le_0_compat; [exact R0 | now rewrite Hf]. }
  assert (P1 : (round64 (c / 1000) * round64 (inject_Z size)
                <= inject_Z size)%Q).
  { rewrite Hf. rewrite <- (Qmult_1_l (inject_Z size)) at 2.
    now apply Qmult_le_compat_r. }
  pose proof (round64_nonneg _ P0) as Q0.
  assert (Q1 : (round64 (round64 (c / 1000) * round64 (inject_Z size))
                <= inject_Z size)%Q).
  { rewrite <- Hf at 2. now apply round64_mono. }
  unfold scale_coord. rewrite Ef. cbn [rbind]. unfold int_of_rounded.
  rewrite (finite64_small _ size Q0 Q1).
  2:{ unfold max_exact_int in Hs.
      apply Z.lt_trans with (2 ^ 53); [lia | reflexivity]. }
  eexists. split; [reflexivity|].
  rewrite (Qtrunc_nonneg _ Q0). split.
  - change 0 with (Qfloor 0). now apply Qfloor_resp_le.
  - rewrite <- (Qfloor_Z size) at 2. now apply Qfloor_resp_le.
Qed.

(** The two ends of an interval on the 0-1000 scale are scaled to an
    interval of the image. *)
Lemma scale_coord_interval (c1 c2 : Q) (size : Z) :
  (0 <= c1)%Q -> (c1 <= c2)%Q -> (c2 <= 1000)%Q ->
  0 <= size < max_exact_int ->
  exists s1 s2 : Z,
    scale_coord c1 size = Ok s1 /\ scale_coord c2 size = Ok s2
    /\ 0 <= s1 /\ s1 <= s2 /\ s2 <= size.
Proof.
  intros H0 H12 H1 Hs.
  destruct (scale_coord_in_scale c1 size H0 (Qle_trans _ _ _ H12 H1) Hs)
    as [s1 [E1 B1]].
  destruct (scale_coord_in_scale c2 size (Qle_trans _ _ _ H0 H12) H1 Hs)
    as [s2 [E2 B2]].
  exists s1, s2. split; [exact E1|]. split; [exact E2|].
  destruct (scale_coord_mono c1 c2 size s1 s2 H0 H12 (proj1 Hs) E1 E2).
  lia.
Qed.

(** Equal coordinates are scaled to the same pixel. *)
Lemma scale_coord_same (c1 c2 : Q) (size s1 s2 : Z) :
  (0 <= c1)%Q -> (c1 == c2)%Q -> 0 <= size ->
  scale_coord c1 size = Ok s1 -> scale_coord c2 size = Ok s2 -> s1 = s2.
Proof.
  intros H0 E Hs E1 E2.
  assert (H0' : (0 <= c2)%Q) by now rewrite <- E.
  assert (L : (c1 <= c2)%Q) by (rewrite E; apply Qle_refl).
  assert (L' : (c2 <= c1)%Q) by (rewrite E; apply Qle_refl).
  destruct (scale_coord_mono c1 c2 size s1 s2 H0 L Hs E1 E2).
  destruct (scale_coord_mono c2 c1 size s2 s1 H0' L' Hs E2 E1).
  lia.
Qed.

(** ** The crop engine *)

Section ImageServiceFacts.

Context {codec : Codec}.

(** What [_crop_segment] returns, by the shape of the padded, clamped
    rectangle: an artifact exactly when the rectangle has pixels. *)
Lemma _crop_segment_rect (self : ImageService) (img : Image)
    (bbox : BoundingBox) (width height x1 y1 x2 y2 : Z) :
  crop_rect self bbox width height = Ok (x1, y1, x2, y2) ->
  (x1 < x2 /\ y1 < y2 ->
   exists canvas,
     _crop_segment self img bbox width height
       = Ok (png_data_url (png_encode canvas))
     /\ im_width canvas = x2 - x1 /\ im_height canvas = y2 - y1)
  /\ (x2 <= x1 \/ y2 <= y1 ->
      exists e, _crop_segment self img bbox width height = Raise e).
Proof.
  intros Hrect. unfold _crop_segment. rewrite Hrect. cbn [rbind]. split.
  - intros [Hx Hy]. unfold pil_crop.
    destruct (x2 <? x1) eqn:E1; [apply Z.ltb_lt in E1; lia|].
    destruct (y2 <? y1) eqn:E2; [apply Z.ltb_lt in E2; lia|].
    cbn [rbind]. unfold pil_new.
    destruct (x2 - x1 <? 0) eqn:E3; [apply Z.ltb_lt in E3; lia|].
    destruct (y2 - y1 <? 0) eqn:E4; [apply Z.ltb_lt in E4; lia|].
    cbn [orb rbind]. unfold pil_save_png. cbn [pil_paste im_width im_height].
    destruct (x2 - x1 <=? 0) eqn:E5; [apply Z.leb_le in E5; lia|].
    destruct (y2 - y1 <=? 0) eqn:E6; [apply Z.leb_le in E6; lia|].
    cbn [orb rbind]. eexists. split; [reflexivity|]. split; reflexivity.
  - intros Hdeg. unfold pil_crop.
    destruct (x2 <? x1) eqn:E1; [eexists; reflexivity|].
    destruct (y2 <? y1) eqn:E2; [eexists; reflexivity|].
    apply Z.ltb_ge in E1, E2.
    cbn [rbind]. unfold pil_new.
    destruct (x2 - x1 <? 0) eqn:E3; [apply Z.ltb_lt in E3; lia|].
    destruct (y2 - y1 <? 0) eqn:E4; [apply Z.ltb_lt in E4; lia|].
    cbn [orb rbind]. unfold pil_save_png. cbn [pil_paste im_width im_height].
    destruct (x2 - x1 <=? 0) eqn:E5; [cbn [orb]; eexists; reflexivity|].
    destruct (y2 - y1 <=? 0) eqn:E6; [cbn [orb]; eexists; reflexivity|].
    apply Z.leb_gt in E5, E6. lia.
Qed.

(** When the scaling of a coordinate fails, so does the crop. *)
Lemma _crop_segment_no_rect (self : ImageService) (img : Image)
    (bbox : BoundingBox) (width height : Z) (e : exn) :
  crop_rect self bbox width height = Raise e ->
  _crop_segment self img bbox width height = Raise e.
Proof. intros Hrect. unfold _crop_segment. now rewrite Hrect. Qed.

(** The rectangle is the scaled box, padded and clamped. *)
Lemma crop_rect_inv (self : ImageService) (bbox : BoundingBox)
    (width height x1 y1 x2 y2 : Z) :
  crop_rect self bbox width height = Ok (x1, y1, x2, y2) ->
  exists sx1 sy1 sx2 sy2 : Z,
    scale_coord (xmin bbox) width = Ok sx1
    /\ scale_coord (ymin bbox) height = Ok sy1
    /\ scale_coord (xmax bbox) width = Ok sx2
    /\ scale_coord (ymax bbox) height = Ok sy2
    /\ x1 = Z.max 0 (sx1 - padding self)
    /\ y1 = Z.max 0 (sy1 - padding self)
    /\ x2 = Z.min width (sx2 + padding self)
    /\ y2 = Z.min height (sy2 + padding self).
Proof.
  unfold crop_rect.
  destruct (scale_coord (xmin bbox) width) as [sx1|]; [|discriminate].
  destruct (scale_coord (ymin bbox) height) as [sy1|]; [|discriminate].
  destruct (scale_coord (xmax bbox) width) as [sx2|]; [|discriminate].
  destruct (scale_coord (ymax bbox) height) as [sy2|]; [|discriminate].
  cbn [rbind]. intros [= <- <- <- <-].
  exists sx1, sy1, sx2, sy2. repeat split.
Qed.

(** A padded interval inside the image keeps at least one pixel. *)
Lemma padded_interval_positive (pad size s1 s2 : Z) :
  0 < pad -> 0 < size -> 0 <= s1 -> s1 <= s2 -> s2 <= size ->
  Z.max 0 (s1 - pad) < Z.min size (s2 + pad).
Proof. lia. Qed.

(** The rectangle of a box in scale: the scaled corners are in order and in
    the image. *)
Lemma crop_rect_in_scale (self : ImageService) (bbox : BoundingBox)
    (W H : Z) :
  0 <= W < max_exact_int -> 0 <= H < max_exact_int -> in_scale bbox ->
  exists sx1 sy1 sx2 sy2 : Z,
    scale_coord (xmin bbox) W = Ok sx1
    /\ scale_coord (ymin bbox) H = Ok sy1
    /\ scale_coord (xmax bbox) W = Ok sx2
    /\ scale_coord (ymax bbox) H = Ok sy2
    /\ (0 <= sx1 /\ sx1 <= sx2 /\ sx2 <= W)
    /\ (0 <= sy1 /\ sy1 <= sy2 /\ sy2 <= H)
    /\ crop_rect self bbox W H
       = Ok (Z.max 0 (sx1 - padding self), Z.max 0 (sy1 - padding self),
             Z.min W (sx2 + padding self), Z.min H (sy2 + padding self)).
Proof.
  intros HW HH [[Hy0 [Hy Hy1]] [Hx0 [Hx Hx1]]].
  destruct (scale_coord_interval _ _ W Hx0 Hx Hx1 HW)
    as [sx1 [sx2 [Ex1 [Ex2 Bx]]]].
  destruct (scale_coord_interval _ _ H Hy0 Hy Hy1 HH)
    as [sy1 [sy2 [Ey1 [Ey2 By]]]].
  exists sx1, sy1, sx2, sy2.
  do 4 (split; [assumption|]). split; [exact Bx|]. split; [exact By|].
  unfold crop_rect. rewrite Ex1, Ey1, Ex2, Ey2. reflexivity.
Qed.

(** On a box in scale, an image with pixels and a positive padding the
    crop succeeds, and the canvas has pixels. *)
Lemma _crop_segment_in_scale (self : ImageService) (img : Image)
    (bbox : BoundingBox) (W H : Z) :
  0 < W < max_exact_int -> 0 < H < max_exact_int -> 0 < padding self ->
  in_scale bbox ->
  exists (sx1 sy1 sx2 sy2 : Z) (canvas : Image),
    scale_coord (xmin bbox) W = Ok sx1
    /\ scale_coord (ymin bbox) H = Ok sy1
    /\ scale_coord (xmax bbox) W = Ok sx2
    /\ scale_coord (ymax bbox) H = Ok sy2
    /\ _crop_segment self img bbox W H = Ok (png_data_url (png_encode canvas))
    /\ im_width canvas
       = Z.min W (sx2 + padding self) - Z.max 0 (sx1 - padding self)
    /\ im_height canvas
       = Z.min H (sy2 + padding self) - Z.max 0 (sy1 - padding self)
    /\ 0 < im_width canvas /\ 0 < im_height canvas.
Proof.
  intros HW HH Hpad Hbox.
  destruct (crop_rect_in_scale self bbox W H ltac:(lia) ltac:(lia) Hbox)
    as (sx1 & sy1 & sx2 & sy2 & Ex1 & Ey1 & Ex2 & Ey2 & Bx & By & Hrect).
  pose proof (padded_interval_positive (padding self) W sx1 sx2
                Hpad ltac:(lia) ltac:(lia) ltac:(lia) ltac:(lia)) as Px.
  pose proof (padded_interval_positive (padding self) H sy1 sy2
                Hpad ltac:(lia) ltac:(lia) ltac:(lia) ltac:(lia)) as Py.
  destruct (_crop_segment_rect self img bbox W H _ _ _ _ Hrect)
    as [Hgood _].
  destruct (Hgood (conj Px Py)) as [canvas [Hrun [Hw Hh]]].
  exists sx1, sy1, sx2, sy2, canvas.
  repeat (split; [assumption|]). split; lia.
Qed.

(** The loop of [extract_crops] maps [crop_one] over the segments. *)
Lemma crop_loop_map (self : ImageService) (img : Image) (width height : Z)
    (segments : list QuestionSegment) (acc : list CroppedSegment) :
  crop_loop self img width height segments acc
  = acc ++ map (crop_one self img width height) segments.
Proof.
  revert acc. induction segments as [|s rest IH]; intros acc; simpl.
  - now rewrite app_nil_r.
  - rewrite IH, <- app_assoc. reflexivity.
Qed.

Lemma extract_crops_decoded (self : ImageService) (base64_image : string)
    (segments : list QuestionSegment) (img : Image) :
  _decode_image base64_image = Ok img ->
  extract_crops self base64_image segments
  = Ok (map (crop_one self img (im_width img) (im_height img)) segments).
Proof.
  intros Hd. unfold extract_crops. rewrite Hd. cbn [rbind].
  now rewrite crop_loop_map.
Qed.

Lemma extract_crops_undecodable (self : ImageService) (base64_image : string)
    (segments : list QuestionSegment) (e : exn) :
  _decode_image base64_image = Raise e ->
  extract_crops self base64_image segments = Raise e.
Proof. intros Hd. unfold extract_crops. now rewrite Hd. Qed.

Lemma extract_crops_inv (self : ImageService) (base64_image : string)
    (segments : list QuestionSegment) (out : list CroppedSegment) :
  extract_crops self base64_image segments = Ok out ->
  exists img,
    _decode_image base64_image = Ok img
    /\ out = map (crop_one self img (im_width img) (im_height img)) segments.
Proof.
  intros H. destruct (_decode_image base64_image) as [img|e] eqn:Hd.
  - exists img. split; [reflexivity|].
    rewrite (extract_crops_decoded _ _ _ _ Hd) in H. congruence.
  - rewrite (extract_crops_undecodable _ _ _ _ Hd) in H. discriminate.
Qed.

Lemma crop_one_failed (self : ImageService) (img : Image) (width height : Z)
    (segment : QuestionSegment) (e : exn) :
  _crop_segment self img (qs_boundingBox segment) width height = Raise e ->
  cs_cropUrl (crop_one self img width height segment) = "".
Proof. intros H. unfold crop_one. now rewrite H. Qed.

Lemma crop_one_frame (self : ImageService) (img : Image) (width height : Z)
    (segment : QuestionSegment) :
  let out := crop_one self img width height segment in
  cs_id out = qs_id segment
  /\ cs_boundingBox out = qs_boundingBox segment
  /\ cs_text out = qs_text segment
  /\ cs_subject out = qs_subject segment
  /\ cs_chapter out = qs_chapter segment
  /\ cs_correctAnswer out = qs_correctAnswer segment.
Proof.
  unfold crop_one.
  destruct (_crop_segment self img (qs_boundingBox segment) width height);
    cbn; repeat split.
Qed.

End ImageServiceFacts.

Section CropEngineClaims.

Context {codec : Codec}.

(** C1.  For a source image of positive size W x H and a box on the 0-1000
    scale with ymin <= ymax and xmin <= xmax, the crop engine scales the
    coordinates as the code does ([int((c / 1000) * W)], in binary64), pads,
    clamps and returns an artifact: the data URL of a PNG canvas whose width
    is min(W, x2+pad) - max(0, x1-pad) and whose height is the corresponding
    expression in H, clamped non-negative, where x1, y1, x2, y2 are the
    scaled coordinates.  The sides of the image are floats (Pillow keeps
    them in C integers, far below [max_exact_int]).  In particular the
    whole-image box on a 100 x 100 image with padding 10 gives a 100 x 100
    artifact. *)
Theorem crop_artifact_dimensions :
  (forall (self : ImageService) (img : Image) (bbox : BoundingBox),
      0 < im_width img < max_exact_int ->
      0 < im_height img < max_exact_int ->
      0 < padding self ->
      in_scale bbox ->
      let W := im_width img in
      let H := im_height img in
      let pad := padding self in
      exists (x1 y1 x2 y2 : Z) (canvas : Image),
        scale_coord (xmin bbox) W = Ok x1
        /\ scale_coord (ymin bbox) H = Ok y1
        /\ scale_coord (xmax bbox) W = Ok x2
        /\ scale_coord (ymax bbox) H = Ok y2
        /\ _crop_segment self img bbox W H
           = Ok (png_data_url (png_encode canvas))
        /\ im_width canvas = Z.max 0 (Z.min W (x2 + pad) - Z.max 0 (x1 - pad))
        /\ im_height canvas
           = Z.max 0 (Z.min H (y2 + pad) - Z.max 0 (y1 - pad)))
  /\ (forall img : Image,
         im_width img = 100 -> im_height img = 100 ->
         crop_rect default_image_service whole_image 100 100
         = Ok (0, 0, 100, 100)
         /\ exists canvas : Image,
              _crop_segment default_image_service img whole_image 100 100
              = Ok (png_data_url (png_encode canvas))
              /\ im_width canvas = 100 /\ im_height canvas = 100).
Proof.
  split.
  - intros self img bbox HW HH Hpad Hbox. cbv zeta.
    destruct (_crop_segment_in_scale self img bbox _ _ HW HH Hpad Hbox)
      as (x1 & y1 & x2 & y2 & canvas & Ex1 & Ey1 & Ex2 & Ey2 & Hrun
          & Hw & Hh & Pw & Ph).
    exists x1, y1, x2, y2, canvas.
    repeat (split; [assumption|]). split; lia.
  - intros img _ _.
    assert (Hrect : crop_rect default_image_service whole_image 100 100
                    = Ok (0, 0, 100, 100)) by (vm_compute; reflexivity).
    split; [exact Hrect|].
    destruct (_crop_segment_rect default_image_service img whole_image
                100 100 _ _ _ _ Hrect) as [Hgood _].
    destruct (Hgood ltac:(lia)) as [canvas [Hrun [Hw Hh]]].
    exists canvas. split; [exact Hrun|]. split; assumption.
Qed.

(** C3.  With a decodable source image the batch crop returns exactly one
    output segment per input segment, in order; a segment whose crop fails is
    still there, with [cropUrl = ""].  When the source image cannot be
    decoded the whole batch fails with the decoder's error. *)
Theorem batch_crop_partial_failure (self : ImageService)
    (base64_image : string) (segments : list QuestionSegment) :
  (forall img : Image,
      _decode_image base64_image = Ok img ->
      exists out : list CroppedSegment,
        extract_crops self base64_image segments = Ok out
        /\ List.length out = List.length segments
        /\ forall (i : nat) (seg : QuestionSegment),
             nth_error segments i = Some seg ->
             exists o : CroppedSegment,
               nth_error out i = Some o
               /\ cs_id o = qs_id seg
               /\ forall e : exn,
                    _crop_segment self img (qs_boundingBox seg)
                      (im_width img) (im_height img) = Raise e ->
                    cs_cropUrl o = "")
  /\ (forall e : exn,
         _decode_image base64_image = Raise e ->
         extract_crops self base64_image segments = Raise e).
Proof.
  split.
  - intros img Hd. eexists.
    split; [exact (extract_crops_decoded _ _ _ _ Hd)|].
    split; [now rewrite length_map|].
    intros i seg Hi. eexists. split; [exact (map_nth_error _ _ _ Hi)|].
    split; [apply crop_one_frame|].
    intros e He. now apply crop_one_failed with (e := e).
  - intros e Hd. now apply extract_crops_undecodable.
Qed.

(** C4, amended.  A segment whose box is degenerate, or whose padded and
    clamped rectangle is inverted, does not make the batch fail: the batch
    returns one output per input.  When the rectangle is inverted or has no
    area, the crop of that segment does fail inside the engine, and the
    segment is returned with the mark of a failed crop, [cropUrl = ""]: no
    artifact is produced.  When the rectangle has pixels the segment carries
    a canvas of the size of the rectangle; that is the case of every
    degenerate box in scale on an image with pixels and a positive padding,
    whose canvas is a strip of at most twice the padding across. *)
Theorem box_without_area_in_batch (self : ImageService)
    (base64_image : string) (img : Image) (segments : list QuestionSegment)
    (i : nat) (seg : QuestionSegment) :
  _decode_image base64_image = Ok img ->
  nth_error segments i = Some seg ->
  let bbox := qs_boundingBox seg in
  let W := im_width img in
  let H := im_height img in
  exists (out : list CroppedSegment) (o : CroppedSegment),
    extract_crops self base64_image segments = Ok out
    /\ List.length out = List.length segments
    /\ nth_error out i = Some o
    /\ (forall rect : Z * Z * Z * Z,
          crop_rect self bbox W H = Ok rect ->
          (inverted rect \/ rect_width rect = 0 \/ rect_height rect = 0 ->
           (exists e : exn, _crop_segment self img bbox W H = Raise e)
           /\ cs_cropUrl o = "")
          /\ (0 < rect_width rect /\ 0 < rect_height rect ->
              exists canvas : Image,
                cs_cropUrl o = png_data_url (png_encode canvas)
                /\ im_width canvas = rect_width rect
                /\ im_height canvas = rect_height rect))
    /\ (degenerate bbox -> in_scale bbox ->
        0 < W < max_exact_int -> 0 < H < max_exact_int ->
        0 < padding self ->
        exists canvas : Image,
          cs_cropUrl o = png_data_url (png_encode canvas)
          /\ 0 < im_width canvas /\ 0 < im_height canvas
          /\ Z.min (im_width canvas) (im_height canvas) <= 2 * padding self).
Proof.
  intros Hd Hi bbox W H.
  exists (map (crop_one self img W H) segments).
  exists (crop_one self img W H seg).
  split; [exact (extract_crops_decoded _ _ _ _ Hd)|].
  split; [now rewrite length_map|].
  split; [exact (map_nth_error _ _ _ Hi)|].
  split.
  - intros [[[x1 y1] x2] y2] Hrect.
    destruct (_crop_segment_rect self img bbox W H x1 y1 x2 y2 Hrect)
      as [Hgood Hbad].
    unfold inverted. cbn [rect_width rect_height]. split.
    + intros Hno. destruct Hbad as [e He]; [lia|].
      split; [now exists e | now apply crop_one_failed with e].
    + intros [Hx Hy].
      destruct (Hgood ltac:(lia)) as [canvas [Hrun [Hw Hh]]].
      exists canvas. unfold crop_one. fold bbox. rewrite Hrun.
      cbn [cs_cropUrl]. split; [reflexivity|]. split; assumption.
  - intros Hdeg Hscale HW HH Hpad.
    destruct (_crop_segment_in_scale self img bbox W H HW HH Hpad Hscale)
      as (sx1 & sy1 & sx2 & sy2 & canvas & Ex1 & Ey1 & Ex2 & Ey2 & Hrun
          & Hw & Hh & Pw & Ph).
    exists canvas. unfold crop_one. fold bbox. rewrite Hrun.
    cbn [cs_cropUrl]. split; [reflexivity|].
    split; [exact Pw|]. split; [exact Ph|].
    destruct Hscale as [[Hy0 _] [Hx0 _]].
    destruct Hdeg as [Ey | Ex].
    + pose proof (scale_coord_same _ _ H _ _ Hy0 Ey ltac:(lia) Ey1 Ey2).
      lia.
    + pose proof (scale_coord_same _ _ W _ _ Hx0 Ex ltac:(lia) Ex1 Ex2).
      lia.
Qed.

(** C10.  Each output segment of the batch crop keeps the id, boundingBox,
    text, subject, chapter and correctAnswer of the input segment at the same
    position; the output depends on nothing else of the input segments:
    their cropUrl, imageUrl and sourceImageUrl are not carried over. *)
Theorem batch_crop_frame (self : ImageService) (base64_image : string)
    (segments : list QuestionSegment) (out : list CroppedSegment) :
  extract_crops self base64_image segments = Ok out ->
  map cs_id out = map qs_id segments
  /\ map cs_boundingBox out = map qs_boundingBox segments
  /\ map cs_text out = map qs_text segments
  /\ map cs_subject out = map qs_subject segments
  /\ map cs_chapter out = map qs_chapter segments
  /\ map cs_correctAnswer out = map qs_correctAnswer segments
  /\ forall segments' : list QuestionSegment,
       Forall2 same_content segments segments' ->
       extract_crops self base64_image segments' = Ok out.
Proof.
  intros H. apply extract_crops_inv in H. destruct H as [img [Hd ->]].
  rewrite !map_map.
  repeat (split; [apply map_ext; intros s; apply crop_one_frame|]).
  intros segments' Hsame. rewrite (extract_crops_decoded _ _ _ _ Hd).
  f_equal. induction Hsame as [|s s' l l' Hs _ IH]; [reflexivity|].
  cbn [map]. rewrite IH. f_equal.
  destruct Hs as [E1 [E2 [E3 [E4 [E5 E6]]]]].
  unfold crop_one. rewrite E1, E2, E3, E4, E5, E6. reflexivity.
Qed.

End CropEngineClaims.

(** ** The segmentation client *)

Section GeminiServiceFacts.

Context {codec : Codec} {py : PyLib} {genai : GenAI} {clk : Clock}
        {env : Environ}.

Lemma float_field_decodes (o : option json) (d : Z) :
  Z.abs d <= max_exact_int ->
  absent_or is_number o = true ->
  exists x : Q,
    validate_float (match o with Some v => v | None => JInt d end) = Ok x
    /\ decodes o (inject_Z d) number_of x.
Proof.
  intros Hd. destruct o as [v|]; cbn [absent_or decodes]; intros H.
  - destruct v; try discriminate H; cbn [is_number] in H.
    + apply Z.leb_le in H.
      eexists; split; [now apply validate_float_JInt | reflexivity].
    + eexists; split; [apply validate_float_JFloat | reflexivity].
  - eexists; split; [now apply validate_float_JInt | reflexivity].
Qed.

Lemma str_field_decodes (o : option json) :
  absent_or is_str o = true ->
  exists s : string,
    validate_str (match o with Some v => v | None => JStr "" end) = Ok s
    /\ decodes o "" string_of s.
Proof.
  destruct o as [v|]; cbn [absent_or decodes]; intros H.
  - destruct v; try discriminate H.
    eexists; split; [apply validate_str_JStr | reflexivity].
  - eexists; split; [apply validate_str_JStr | reflexivity].
Qed.

Lemma opt_str_field_decodes (o : option json) :
  absent_or is_opt_str o = true ->
  exists s : option string,
    validate_opt_str (match o with Some v => v | None => JNull end) = Ok s
    /\ decodes o None opt_string_of s.
Proof.
  destruct o as [v|]; cbn [absent_or decodes]; intros H.
  - destruct v; try discriminate H.
    + eexists; split; [apply validate_opt_str_JNull | reflexivity].
    + eexists; split; [apply validate_opt_str_JStr | reflexivity].
  - eexists; split; [apply validate_opt_str_JNull | reflexivity].
Qed.

(** The coordinates of a well-typed box object are decoded: the ones that
    are present to their values, the absent ones to their defaults. *)
Lemma box_fields_decode (entries : list (string * json)) :
  well_typed_box (JDict entries) = true ->
  exists box : BoundingBox,
    (forall (A : Type) (k : BoundingBox -> result A),
        rbind (dict_get (JDict entries) "ymin" (JInt 0)) (fun ymin_v =>
        rbind (dict_get (JDict entries) "xmin" (JInt 0)) (fun xmin_v =>
        rbind (dict_get (JDict entries) "ymax" (JInt 1000)) (fun ymax_v =>
        rbind (dict_get (JDict entries) "xmax" (JInt 1000)) (fun xmax_v =>
        rbind (validate_BoundingBox ymin_v xmin_v ymax_v xmax_v) k))))
        = k box)
    /\ decodes (assoc "ymin" entries) 0%Q number_of (ymin box)
    /\ decodes (assoc "xmin" entries) 0%Q number_of (xmin box)
    /\ decodes (assoc "ymax" entries) 1000%Q number_of (ymax box)
    /\ decodes (assoc "xmax" entries) 1000%Q number_of (xmax box).
Proof.
  unfold well_typed_box. cbn [is_dict field andb dict_get rbind].
  intros H. apply andb_prop in H. destruct H as [H H4].
  apply andb_prop in H. destruct H as [H H3].
  apply andb_prop in H. destruct H as [H1 H2].
  assert (B0 : Z.abs 0 <= max_exact_int) by (cbn; discriminate).
  assert (B1 : Z.abs 1000 <= max_exact_int) by (cbn; discriminate).
  destruct (float_field_decodes _ 0 B0 H1) as [y0 [E1 D1]].
  destruct (float_field_decodes _ 0 B0 H2) as [x0 [E2 D2]].
  destruct (float_field_decodes _ 1000 B1 H3) as [y1 [E3 D3]].
  destruct (float_field_decodes _ 1000 B1 H4) as [x1 [E4 D4]].
  unfold validate_BoundingBox. rewrite E1, E2, E3, E4. cbn [rbind].
  eexists. split; [reflexivity|]. cbn [ymin xmin ymax xmax].
  repeat split; assumption.
Qed.

Lemma well_typed_box_of (q : json) :
  absent_or well_typed_box (field q "boundingBox") = true ->
  well_typed_box (box_of q) = true.
Proof.
  unfold box_of. destruct (field q "boundingBox"); [trivial | reflexivity].
Qed.

(** The accumulating loop over the question records: the accumulator is a
    prefix of the result. *)
Lemma parse_questions_acc (items : list json) (acc : list QuestionSegment) :
  parse_questions items acc
  = rbind (parse_questions items []) (fun segs => Ok (acc ++ segs)).
Proof.
  revert acc. induction items as [|q rest IH]; intros acc; cbn.
  - now rewrite app_nil_r.
  - destruct (parse_question q) as [seg|e]; cbn [rbind]; [|reflexivity].
    rewrite (IH (acc ++ [seg])), (IH [seg]).
    destruct (parse_questions rest []) as [tl|e]; cbn [rbind]; [|reflexivity].
    now rewrite <- app_assoc.
Qed.

Lemma parse_questions_Forall2 (items : list json)
    (segs : list QuestionSegment) :
  Forall2 (fun q seg => parse_question q = Ok seg) items segs ->
  parse_questions items [] = Ok segs.
Proof.
  induction 1 as [|q seg items segs Hq _ IH]; cbn; [reflexivity|].
  rewrite Hq. cbn [rbind]. rewrite parse_questions_acc, IH. reflexivity.
Qed.

Lemma parse_questions_inv (items : list json) (segs : list QuestionSegment) :
  parse_questions items [] = Ok segs ->
  Forall2 (fun q seg => parse_question q = Ok seg) items segs.
Proof.
  revert segs. induction items as [|q rest IH]; intros segs; cbn.
  - intros [= <-]. constructor.
  - destruct (parse_question q) as [seg|e] eqn:Hq; cbn [rbind]; [|discriminate].
    rewrite parse_questions_acc.
    destruct (parse_questions rest []) as [tl|e]; cbn [rbind]; [|discriminate].
    intros [= <-]. constructor; [exact Hq | now apply IH].
Qed.

(** A well-typed question record is decoded: every field that is present
    to its value, every absent one to its default, and nothing else is
    set. *)
Lemma parse_question_decodes (q : json) :
  well_typed_question q = true ->
  exists seg : QuestionSegment,
    parse_question q = Ok seg
    /\ decodes (field q "id") "" py_str (qs_id seg)
    /\ decodes (field q "text") "" string_of (qs_text seg)
    /\ decodes (field q "subject") None opt_string_of (qs_subject seg)
    /\ decodes (field q "correctAnswer") None opt_string_of
         (qs_correctAnswer seg)
    /\ decodes (field (box_of q) "ymin") 0%Q number_of
         (ymin (qs_boundingBox seg))
    /\ decodes (field (box_of q) "xmin") 0%Q number_of
         (xmin (qs_boundingBox seg))
    /\ decodes (field (box_of q) "ymax") 1000%Q number_of
         (ymax (qs_boundingBox seg))
    /\ decodes (field (box_of q) "xmax") 1000%Q number_of
         (xmax (qs_boundingBox seg))
    /\ fresh_question seg.
Proof.
  unfold well_typed_question. intros H.
  apply andb_prop in H. destruct H as [H Hbox].
  apply andb_prop in H. destruct H as [H Hcorrect].
  apply andb_prop in H. destruct H as [H Hsubject].
  apply andb_prop in H. destruct H as [Hdict Htext].
  apply well_typed_box_of in Hbox.
  destruct q as [| | | | | |entries]; try discriminate Hdict.
  unfold box_of in *. cbn [field] in *.
  unfold parse_question. cbn [dict_get rbind].
  destruct (str_field_decodes _ Htext) as [text [Et Dt]].
  destruct (opt_str_field_decodes _ Hsubject) as [subject [Es Ds]].
  destruct (opt_str_field_decodes _ Hcorrect) as [correct [Ec Dc]].
  set (b := match assoc "boundingBox" entries with
            | Some v => v
            | None => JDict []
            end) in *.
  destruct b as [| | | | | |bentries] eqn:Eb; try discriminate Hbox.
  destruct (box_fields_decode bentries Hbox) as [box [Ebox Dbox]].
  cbn [field].
  rewrite Ebox. cbn [rbind].
  unfold validate_QuestionSegment. rewrite Et, Es, Ec. cbn [rbind].
  eexists. split; [reflexivity|].
  cbn [qs_id qs_text qs_subject qs_correctAnswer qs_boundingBox].
  split; [destruct (assoc "id" entries); reflexivity|].
  split; [exact Dt|]. split; [exact Ds|]. split; [exact Dc|].
  destruct Dbox as [D1 [D2 [D3 D4]]].
  repeat (split; [assumption|]).
  repeat split.
Qed.

Lemma parse_questions_well_typed (items : list json) :
  forallb well_typed_question items = true ->
  exists segs : list QuestionSegment,
    Forall2 (fun q seg => parse_question q = Ok seg) items segs.
Proof.
  induction items as [|q rest IH]; cbn [forallb]; intros H.
  - exists []. constructor.
  - apply andb_prop in H. destruct H as [Hq Hrest].
    destruct (parse_question_decodes q Hq) as [seg [Eq _]].
    destruct (IH Hrest) as [segs Hsegs].
    exists (seg :: segs). now constructor.
Qed.

End GeminiServiceFacts.

Section SegmentationClaims.

Context {codec : Codec} {py : PyLib} {genai : GenAI} {clk : Clock}
        {env : Environ}.

(** C7.  A question record of a parsed segmentation response that misses
    optional fields is decoded without failure: an absent subject or
    correctAnswer becomes [None], an absent id or text the empty string, and
    an absent bounding-box coordinate its default (ymin, xmin: 0; ymax,
    xmax: 1000), so that a record without a box gets the whole image.  The
    fields that are present are decoded to their values: the id to its
    [str], the text to the string, subject and correctAnswer to the string
    or, for [null], to [None], a coordinate to the number; no other field of
    the question is set.  A response all of whose records are of this kind
    is decoded record by record, in order. *)
Theorem missing_fields_take_defaults :
  (forall q : json,
      well_typed_question q = true ->
      exists seg : QuestionSegment,
        parse_question q = Ok seg
        /\ decodes (field q "id") "" py_str (qs_id seg)
        /\ decodes (field q "text") "" string_of (qs_text seg)
        /\ decodes (field q "subject") None opt_string_of (qs_subject seg)
        /\ decodes (field q "correctAnswer") None opt_string_of
             (qs_correctAnswer seg)
        /\ decodes (field (box_of q) "ymin") 0%Q number_of
             (ymin (qs_boundingBox seg))
        /\ decodes (field (box_of q) "xmin") 0%Q number_of
             (xmin (qs_boundingBox seg))
        /\ decodes (field (box_of q) "ymax") 1000%Q number_of
             (ymax (qs_boundingBox seg))
        /\ decodes (field (box_of q) "xmax") 1000%Q number_of
             (xmax (qs_boundingBox seg))
        /\ fresh_question seg)
  /\ (forall (text : string) (data : json) (items : list json),
         empty_reply (Some text) = false ->
         json_loads (str_strip text) = Ok data ->
         field data "questions" = Some (JList items) ->
         forallb well_typed_question items = true ->
         exists segs : list QuestionSegment,
           parse_response (Some text) = Ok {| questions := segs |}
           /\ Forall2 (fun q seg => parse_question q = Ok seg) items segs)
  /\ parse_question (JDict [])
     = Ok {| qs_id := "";
             qs_boundingBox := whole_image;
             qs_text := "";
             qs_cropUrl := None;
             qs_imageUrl := None;
             qs_sourceImageUrl := None;
             qs_subject := None;
             qs_chapter := None;
             qs_correctAnswer := None |}.
Proof.
  split; [exact parse_question_decodes|]. split.
  - intros text data items Hne Hload Hq Hitems.
    destruct (parse_questions_well_typed items Hitems) as [segs Hsegs].
    exists segs. split; [|exact Hsegs].
    unfold parse_response.
    destruct text as [|c text']; [discriminate Hne|].
    rewrite Hload. cbn [rbind].
    destruct data as [| | | | | |entries]; try discriminate Hq.
    cbn [field] in Hq. cbn [dict_get]. rewrite Hq. cbn [rbind py_iter].
    rewrite (parse_questions_Forall2 _ _ Hsegs). reflexivity.
  - unfold parse_question. cbn [dict_get assoc rbind].
    unfold validate_BoundingBox.
    rewrite !validate_float_JInt by (cbn; discriminate). cbn [rbind].
    unfold validate_QuestionSegment.
    rewrite validate_str_JStr, validate_opt_str_JNull. reflexivity.
Qed.

End SegmentationClaims.

(** ** The monad [M] *)

Lemma bind_ok_inv {A B : Type} (m : M A) (k : A -> M B) (w w' : world)
    (b : B) :
  bind m k w = (Ok b, w') ->
  exists (a : A) (w1 : world), m w = (Ok a, w1) /\ k a w1 = (Ok b, w').
Proof.
  unfold bind. destruct (m w) as [[a|e] w1]; intros H; [|discriminate].
  now exists a, w1.
Qed.

Lemma lift_ok_inv {A : Type} (r : result A) (w w' : world) (a : A) :
  lift r w = (Ok a, w') -> r = Ok a /\ w' = w.
Proof. unfold lift. intros [= -> ->]. now split. Qed.

Lemma ret_ok_inv {A : Type} (a a' : A) (w w' : world) :
  ret a w = (Ok a', w') -> a' = a /\ w' = w.
Proof. unfold ret. intros [= -> ->]. now split. Qed.

Lemma time_time_eq {clk : Clock} (w : world) :
  time_time w = (Ok (clock (clock_reads w)), tick w).
Proof. reflexivity. Qed.

Lemma after_nil (w : world) : after w [] = w.
Proof. destruct w. unfold after. cbn. now rewrite app_nil_r. Qed.

Lemma after_after (w : world) (evs evs' : list event) :
  after (after w evs) evs' = after w (evs ++ evs').
Proof. unfold after. cbn. now rewrite app_assoc. Qed.

Lemma emit_after (ev : event) (w : world) : emit ev w = (Ok tt, after w [ev]).
Proof. reflexivity. Qed.

(** Inversion of a successful run, one [bind] at a time. *)
Ltac inv_bind H x w1 Hm :=
  apply bind_ok_inv in H; destruct H as [x [w1 [Hm H]]].

(** ** The page renderer *)

Section PDFServiceFacts.

Context {codec : Codec} {fitz : Fitz}.

(** [doc[page_num]] for the page numbers the loop visits. *)
Lemma doc_getitem_in_range (prefix suffix : list Page) (page : Page) :
  doc_getitem (prefix ++ page :: suffix) (Z.of_nat (List.length prefix))
  = Ok page.
Proof.
  unfold doc_getitem, page_count. rewrite length_app. cbn [List.length].
  destruct (Z.leb_spec (Z.of_nat (List.length prefix + S (List.length suffix)))
              (Z.of_nat (List.length prefix))) as [H|H]; [lia|].
  rewrite Z.mod_small by lia. rewrite Nat2Z.id.
  rewrite nth_error_app2 by lia. now rewrite Nat.sub_diag.
Qed.

Lemma range_seq_cons (k n : nat) :
  map Z.of_nat (seq k (S n)) = Z.of_nat k :: map Z.of_nat (seq (S k) n).
Proof. reflexivity. Qed.

(** The rendering loop over the remaining pages, when each of them renders:
    the images are appended in page order, and the trace records each
    rendering followed by the progress report. *)
Lemma render_loop_renders (self : PDFService) (total : Z) (progress : bool)
    (suffix : list Page) :
  forall (prefix : list Page) (pngs images : list string) (w : world),
    Forall2 (fun page png => render_png page (zoom self) = Ok png)
      suffix pngs ->
    render_loop self (prefix ++ suffix) total
      (if progress then Some record_progress else None)
      (map Z.of_nat (seq (List.length prefix) (List.length suffix)))
      images w
    = (Ok (images ++ map png_data_url pngs),
       after w (page_events progress total
                  (map Z.of_nat
                     (seq (List.length prefix) (List.length suffix))))).
Proof.
  induction suffix as [|page rest IH]; intros prefix pngs images w Hall.
  - inversion Hall; subst. cbn. now rewrite app_nil_r, after_nil.
  - inversion Hall as [|? png ? pngs' Hpng Hrest]; subst.
    cbn [List.length]. rewrite range_seq_cons.
    cbn [render_loop]. unfold bind at 1. unfold render_page.
    unfold bind at 1. unfold lift at 1.
    rewrite doc_getitem_in_range.
    unfold bind at 1. rewrite emit_after.
    unfold bind at 1. unfold lift at 1. rewrite Hpng. unfold ret at 1.
    unfold bind at 1.
    assert (Hdoc : prefix ++ page :: rest = (prefix ++ [page]) ++ rest)
      by now rewrite <- app_assoc.
    assert (Hlen : S (List.length prefix) = List.length (prefix ++ [page]))
      by (rewrite length_app; cbn; lia).
    destruct progress.
    + unfold record_progress at 1. rewrite emit_after, after_after.
      rewrite Hdoc, Hlen, (IH _ pngs' _ _ Hrest), after_after.
      cbn [map page_events flat_map app]. rewrite <- app_assoc.
      reflexivity.
    + unfold ret at 1.
      rewrite Hdoc, Hlen, (IH _ pngs' _ _ Hrest), after_after.
      cbn [map page_events flat_map app]. rewrite <- app_assoc.
      reflexivity.
Qed.

Lemma progress_calls_page_events (total : Z) (page_nums : list Z) :
  progress_calls (page_events true total page_nums)
  = map (fun page_num => (page_num + 1, total)) page_nums.
Proof.
  induction page_nums as [|n rest IH]; [reflexivity|].
  cbn. now rewrite <- IH.
Qed.

Lemma pdf_to_images_renders (self : PDFService) (pdf_bytes : string)
    (doc : list Page) (pngs : list string) (progress : bool) (w : world) :
  fitz_open pdf_bytes = Ok doc ->
  Forall2 (fun page png => render_png page (zoom self) = Ok png) doc pngs ->
  pdf_to_images self pdf_bytes
    (if progress then Some record_progress else None) w
  = (Ok (map png_data_url pngs),
     after w ([DocOpen]
              ++ page_events progress (page_count doc)
                   (range (List.length doc))
              ++ [DocClose])).
Proof.
  intros Hopen Hall. unfold pdf_to_images, open_document.
  unfold bind at 1. unfold bind at 1. unfold lift at 1. rewrite Hopen.
  unfold bind at 1. rewrite emit_after. unfold ret at 1.
  unfold try_finally, range.
  rewrite (render_loop_renders self (page_count doc) progress doc
             [] pngs [] _ Hall).
  rewrite emit_after, !after_after. reflexivity.
Qed.

(** The rendering loop, when it succeeds, has rendered every remaining
    page. *)
Lemma render_loop_inv (self : PDFService) (total : Z) (suffix : list Page) :
  forall (prefix : list Page) (images out : list string) (w w' : world),
    render_loop self (prefix ++ suffix) total None
      (map Z.of_nat (seq (List.length prefix) (List.length suffix)))
      images w = (Ok out, w') ->
    exists pngs : list string,
      Forall2 (fun page png => render_png page (zoom self) = Ok png)
        suffix pngs
      /\ out = images ++ map png_data_url pngs.
Proof.
  induction suffix as [|page rest IH]; intros prefix images out w w' H.
  - cbn in H. apply ret_ok_inv in H. destruct H as [-> _].
    exists []. split; [constructor|]. cbn. now rewrite app_nil_r.
  - cbn [List.length] in H. rewrite range_seq_cons in H.
    cbn [render_loop] in H. inv_bind H data_url w1 Hpage.
    inv_bind H u w2 Hcb. apply ret_ok_inv in Hcb. destruct Hcb as [_ ->].
    unfold render_page in Hpage. inv_bind Hpage pg w3 Hget.
    apply lift_ok_inv in Hget. destruct Hget as [Hget ->].
    rewrite doc_getitem_in_range in Hget. injection Hget as <-.
    inv_bind Hpage u' w4 Hemit. inv_bind Hpage png w5 Hpng.
    apply lift_ok_inv in Hpng. destruct Hpng as [Hpng ->].
    apply ret_ok_inv in Hpage. destruct Hpage as [-> ->].
    assert (Hdoc : prefix ++ page :: rest = (prefix ++ [page]) ++ rest)
      by now rewrite <- app_assoc.
    assert (Hlen : S (List.length prefix) = List.length (prefix ++ [page]))
      by (rewrite length_app; cbn; lia).
    rewrite Hdoc, Hlen in H. apply IH in H.
    destruct H as [pngs [Hall ->]].
    exists (png :: pngs). split; [now constructor|].
    cbn. now rewrite <- app_assoc.
Qed.

Lemma pdf_to_images_inv (self : PDFService) (pdf_bytes : string)
    (images : list string) (w w' : world) :
  pdf_to_images self pdf_bytes None w = (Ok images, w') ->
  exists (doc : list Page) (pngs : list string),
    fitz_open pdf_bytes = Ok doc
    /\ Forall2 (fun page png => render_png page (zoom self) = Ok png)
         doc pngs
    /\ images = map png_data_url pngs.
Proof.
  unfold pdf_to_images. intros H. inv_bind H doc0 w1 Hopen.
  unfold open_document in Hopen. inv_bind Hopen doc w2 Hfitz.
  apply lift_ok_inv in Hfitz. destruct Hfitz as [Hfitz ->].
  inv_bind Hopen u w3 Hemit. apply ret_ok_inv in Hopen.
  destruct Hopen as [-> ->].
  unfold try_finally in H.
  destruct (render_loop self doc (page_count doc) None
              (range (List.length doc)) [] w3) as [r w4] eqn:Hloop.
  rewrite emit_after in H. injection H as -> _.
  apply (render_loop_inv self (page_count doc) doc []) in Hloop.
  destruct Hloop as [pngs [Hall ->]].
  now exists doc, pngs.
Qed.

End PDFServiceFacts.

Section RendererClaims.

Context {codec : Codec} {fitz : Fitz}.

(** C8.  For a document of N pages, each of which renders, the page renderer
    returns the N encoded page images in page order; the progress callback,
    when given, is called after each page with (pages done, N); without a
    callback the same images are returned.  A single-page request for a page
    index of N or more fails with the validation error that names the index
    and the page count, and the document is closed. *)
Theorem renderer_pages_in_order (self : PDFService) (pdf_bytes : string)
    (doc : list Page) (pngs : list string) (w : world) :
  fitz_open pdf_bytes = Ok doc ->
  Forall2 (fun page png => render_png page (zoom self) = Ok png) doc pngs ->
  let N := page_count doc in
  let images := map png_data_url pngs in
  (exists w' : world,
      pdf_to_images self pdf_bytes (Some record_progress) w = (Ok images, w')
      /\ trace w'
         = trace w ++ [DocOpen]
           ++ page_events true N (range (List.length doc)) ++ [DocClose]
      /\ progress_calls (page_events true N (range (List.length doc)))
         = map (fun page_num => (page_num + 1, N)) (range (List.length doc)))
  /\ (exists w' : world,
         pdf_to_images self pdf_bytes None w = (Ok images, w'))
  /\ Z.of_nat (List.length images) = N
  /\ (forall page_num : Z,
         N <= page_num ->
         pdf_to_single_image self pdf_bytes page_num w
         = (Raise (ValueError
                     ("Page " ++ string_of_Z page_num
                      ++ " does not exist (PDF has "
                      ++ string_of_Z N ++ " pages)")%string),
            after w [DocOpen; DocClose])).
Proof.
  intros Hopen Hall N images. split; [|split; [|split]].
  - eexists. split.
    + exact (pdf_to_images_renders self pdf_bytes doc pngs true w Hopen Hall).
    + split; [reflexivity | apply progress_calls_page_events].
  - eexists.
    exact (pdf_to_images_renders self pdf_bytes doc pngs false w Hopen Hall).
  - unfold images, N, page_count. rewrite length_map.
    now rewrite (Forall2_length Hall).
  - intros page_num Hge. unfold pdf_to_single_image, open_document.
    unfold bind at 1. unfold bind at 1. unfold lift at 1. rewrite Hopen.
    unfold bind at 1. rewrite emit_after. unfold ret at 1.
    unfold try_finally. fold N.
    destruct (Z.leb_spec N page_num) as [_|Hlt]; [|lia].
    unfold raise. rewrite emit_after, after_after. reflexivity.
Qed.

End RendererClaims.

(** ** The segmentation client inside the endpoints *)

Section ClientRuns.

Context {codec : Codec} {py : PyLib} {genai : GenAI} {clk : Clock}
        {env : Environ}.

Lemma parse_response_empty (reply : option string) :
  empty_reply reply = true ->
  parse_response reply = Raise (ValueError "Empty response from Gemini").
Proof.
  destruct reply as [[|c s]|]; cbn; intros H; try reflexivity; discriminate.
Qed.

Lemma parse_response_unparseable (text : string) (e : exn) :
  empty_reply (Some text) = false ->
  json_loads (str_strip text) = Raise e ->
  parse_response (Some text) = Raise e.
Proof.
  destruct text as [|c s]; cbn [empty_reply]; intros H Hl; [discriminate|].
  unfold parse_response. now rewrite Hl.
Qed.

(** The client's outcome when the reply of the model cannot be decoded. *)
Lemma client_decode_failure (self : GeminiService) (base64_image : string)
    (mime_type : option string) (data : string) (reply : option string)
    (e : exn) (w : world) :
  _decode_base64 (strip_data_url_prefix base64_image) = Ok data ->
  generate_content (model self) data mime_type = Ok reply ->
  parse_response reply = Raise e ->
  GeminiService_analyze_image self base64_image mime_type w
  = (Raise (if is_JSONDecodeError e
            then ValueError
                   ("Failed to parse Gemini response: " ++ exn_str e)%string
            else e),
     after (tick w) [ModelCall (model self) mime_type]).
Proof.
  intros Hdec Hgen Hparse.
  unfold GeminiService_analyze_image, bind at 1. rewrite time_time_eq.
  unfold try_except, analyze_image_body.
  unfold bind at 1. unfold lift at 1. rewrite Hdec.
  unfold bind at 1. rewrite emit_after.
  unfold bind at 1. unfold lift at 1. rewrite Hgen.
  unfold bind at 1. unfold lift at 1. rewrite Hparse.
  destruct (is_JSONDecodeError e); reflexivity.
Qed.

End ClientRuns.

(** ** The endpoints *)

Section EndpointClaims.

Context {codec : Codec} {py : PyLib} {genai : GenAI} {clk : Clock}
        {env : Environ} {fitz : Fitz}.

(** The failure body of the single-image endpoints. *)
Lemma analyze_image_unfold (request : AnalyzeImageRequest) (w : world) :
  analyze_image request w
  = match analyze_image_try request (clock (clock_reads w)) (tick w) with
    | (Ok resp, w') => (Ok resp, w')
    | (Raise e, w') =>
        if is_ValueError e then (Raise (HTTPException 400 (exn_str e)), w')
        else (Ok {| air_success := false;
                    air_questions := [];
                    air_error := Some (exn_str e);
                    air_processingTimeMs := None |}, w')
    end.
Proof.
  unfold analyze_image, bind at 1. rewrite time_time_eq. unfold try_except.
  destruct (analyze_image_try request (clock (clock_reads w)) (tick w))
    as [[resp|e] w']; [reflexivity|].
  destruct (is_ValueError e); reflexivity.
Qed.

(** C2, as the code has it.  When the reply of the external model is empty
    or is not JSON, the single-image endpoint answers with the
    protocol-level client error 400 that carries the error text.  Of the
    failures of its [try] block it turns every [ValueError] into that client
    error, and answers the others with success=false, no questions and the
    error text.  The analyse-and-crop endpoint answers the same empty or
    unparseable reply with success=false, no questions and the error
    text. *)
Theorem upstream_parse_error_single_image (request : AnalyzeImageRequest)
    (w : world) (gemini : GeminiService) (data : string)
    (reply : option string) :
  get_gemini_service = Ok gemini ->
  _decode_base64 (strip_data_url_prefix (req_image request)) = Ok data ->
  generate_content (model gemini) data (req_mimeType request) = Ok reply ->
  let w' :=
    after (tick (tick w)) [ModelCall (model gemini) (req_mimeType request)] in
  let failure (msg : string) :=
    {| air_success := false;
       air_questions := [];
       air_error := Some msg;
       air_processingTimeMs := None |} in
  (empty_reply reply = true ->
   analyze_image request w
   = (Raise (HTTPException 400 "Empty response from Gemini"), w')
   /\ analyze_and_crop request w
      = (Ok (failure "Empty response from Gemini"), w'))
  /\ (forall text msg : string,
         reply = Some text ->
         empty_reply reply = false ->
         json_loads (str_strip text) = Raise (JSONDecodeError msg) ->
         let detail := ("Failed to parse Gemini response: " ++ msg)%string in
         analyze_image request w = (Raise (HTTPException 400 detail), w')
         /\ analyze_and_crop request w = (Ok (failure detail), w'))
  /\ (forall (e : exn) (w1 : world),
         analyze_image_try request (clock (clock_reads w)) (tick w)
         = (Raise e, w1) ->
         analyze_image request w
         = if is_ValueError e
           then (Raise (HTTPException 400 (exn_str e)), w1)
           else (Ok (failure (exn_str e)), w1)).
Proof.
  intros Hsvc Hdec Hgen w' failure.
  assert (Run : forall e : exn,
    parse_response reply = Raise e ->
    let e' := if is_JSONDecodeError e
              then ValueError
                     ("Failed to parse Gemini response: " ++ exn_str e)%string
              else e in
    (is_ValueError e' = true ->
     analyze_image request w = (Raise (HTTPException 400 (exn_str e')), w'))
    /\ analyze_and_crop request w = (Ok (failure (exn_str e')), w')).
  { intros e Hparse e'. split.
    - intros Hval. rewrite analyze_image_unfold. unfold analyze_image_try.
      unfold bind at 1. unfold lift at 1. rewrite Hsvc.
      unfold bind at 1.
      rewrite (client_decode_failure gemini _ _ data reply e _ Hdec Hgen Hparse).
      fold e'. rewrite Hval. reflexivity.
    - unfold analyze_and_crop, bind at 1. rewrite time_time_eq.
      unfold try_except.
      unfold bind at 1. unfold lift at 1. rewrite Hsvc.
      unfold bind at 1.
      rewrite (client_decode_failure gemini _ _ data reply e _ Hdec Hgen Hparse).
      reflexivity. }
  split; [|split].
  - intros Hempty.
    destruct (Run _ (parse_response_empty reply Hempty)) as [R1 R2].
    split; [exact (R1 eq_refl) | exact R2].
  - intros text msg -> Hne Hload detail.
    destruct (Run _ (parse_response_unparseable text _ Hne Hload)) as [R1 R2].
    split; [exact (R1 eq_refl) | exact R2].
  - intros e w1 Htry. rewrite analyze_image_unfold, Htry.
    destruct (is_ValueError e); reflexivity.
Qed.

(** Copying the crop artifacts into the questions, when there is one
    artifact per question. *)
Lemma attach_crops_offset (page_image : string)
    (qs : list QuestionSegment) :
  forall (done rest : list CroppedSegment),
    List.length rest = List.length qs ->
    Forall2 (fun q q' =>
               same_content q q'
               /\ (exists url, qs_cropUrl q' = Some url)
               /\ qs_sourceImageUrl q' = Some page_image)
      qs
      (map (fun jq : nat * QuestionSegment =>
              let (j, q) := jq in
              match nth_error (done ++ rest) j with
              | Some c =>
                  {| qs_id := qs_id q;
                     qs_boundingBox := qs_boundingBox q;
                     qs_text := qs_text q;
                     qs_cropUrl := Some (cs_cropUrl c);
                     qs_imageUrl := qs_imageUrl q;
                     qs_sourceImageUrl := Some page_image;
                     qs_subject := qs_subject q;
                     qs_chapter := qs_chapter q;
                     qs_correctAnswer := qs_correctAnswer q |}
              | None => q
              end)
         (enumerate_from (List.length done) qs)).
Proof.
  induction qs as [|q qs' IH]; intros done rest Hlen; cbn; [constructor|].
  destruct rest as [|c rest']; [discriminate Hlen|].
  constructor.
  - rewrite nth_error_app2 by lia. rewrite Nat.sub_diag. cbn.
    split; [repeat split|]. split; [eexists|]; reflexivity.
  - specialize (IH (done ++ [c]) rest').
    rewrite <- app_assoc, length_app in IH. cbn in IH.
    rewrite Nat.add_1_r in IH. apply IH. now injection Hlen.
Qed.

Lemma attach_crops_all (page_image : string) (qs : list QuestionSegment)
    (cropped : list CroppedSegment) :
  List.length cropped = List.length qs ->
  Forall2 (fun q q' =>
             same_content q q'
             /\ (exists url, qs_cropUrl q' = Some url)
             /\ qs_sourceImageUrl q' = Some page_image)
    qs (attach_crops (Some page_image) qs cropped).
Proof. intros H. exact (attach_crops_offset page_image qs [] cropped H). Qed.

Lemma same_content_refl (qs : list QuestionSegment) :
  Forall2 same_content qs qs.
Proof. induction qs; constructor; [repeat split | assumption]. Qed.

(** What a page contributes: the questions the client found for its image,
    in order, each with an artifact and the page reference when the page has
    questions. *)
Lemma analyze_page_inv (gemini : GeminiService) (image_service : ImageService)
    (page_image : string) (r : AnalysisResult) (w w' : world) :
  analyze_page gemini image_service page_image w = (Ok r, w') ->
  exists raw : AnalysisResult,
    GeminiService_analyze_image gemini page_image (Some "image/png") w
    = (Ok raw, w')
    /\ Forall2 same_content (questions raw) (questions r)
    /\ Forall (fun q => (exists url, qs_cropUrl q = Some url)
                        /\ qs_sourceImageUrl q = Some page_image)
         (if nonempty (questions raw) then questions r else []).
Proof.
  unfold analyze_page. intros H. inv_bind H raw w1 Hraw.
  exists raw. destruct (nonempty (questions raw)) eqn:Hne.
  - inv_bind H cropped w2 Hcrop.
    apply lift_ok_inv in Hcrop. destruct Hcrop as [Hcrop ->].
    apply ret_ok_inv in H. destruct H as [-> ->].
    split; [exact Hraw|]. cbn [questions].
    apply extract_crops_inv in Hcrop. destruct Hcrop as [img [_ ->]].
    pose proof (attach_crops_all page_image (questions raw)
                  (map (crop_one image_service img (im_width img)
                          (im_height img)) (questions raw))
                  (length_map _ _)) as Hall.
    split.
    + eapply Forall2_impl; [|exact Hall]. cbn. intros a b Hab; apply Hab.
    + clear Hne. induction Hall as [|q q' l l' Hq _ IH]; constructor.
      * apply Hq.
      * exact IH.
  - apply ret_ok_inv in H. destruct H as [-> ->].
    split; [exact Hraw|]. split; [apply same_content_refl | constructor].
Qed.


Lemma analyze_pdf_unfold (file : UploadFile) (w : world) :
  analyze_pdf file w
  = if negb (endswith (lower (filename file)) ".pdf") then
      (Raise (HTTPException 400 "File must be a PDF"), tick w)
    else
      match analyze_pdf_try file (clock (clock_reads w)) (tick w) with
      | (Ok resp, w') => (Ok resp, w')
      | (Raise e, w') => (Ok (pdf_failure e), w')
      end.
Proof.
  unfold analyze_pdf, bind at 1. rewrite time_time_eq.
  destruct (negb (endswith (lower (filename file)) ".pdf")); reflexivity.
Qed.

(** A successful run of the document pipeline, step by step. *)
Lemma analyze_pdf_try_ok (file : UploadFile) (start_time : Q)
    (resp : PDFAnalysisResponse) (w w' : world) :
  analyze_pdf_try file start_time w = (Ok resp, w') ->
  exists (pdf_bytes : string) (gemini : GeminiService)
         (page_images : list string) (all_questions : list QuestionSegment)
         (page_results : list AnalysisResult) (w1 w2 w3 : world),
    file_content file = Ok pdf_bytes
    /\ get_gemini_service = Ok gemini
    /\ pdf_to_images get_pdf_service pdf_bytes None w1 = (Ok page_images, w2)
    /\ pages_loop gemini get_image_service page_images [] [] w2
       = (Ok (all_questions, page_results), w3)
    /\ resp
       = {| success := true;
            taskId := ("pdf_" ++ string_of_Z
                                   (Qtrunc (clock (S (clock_reads w3)))))%string;
            pages := Z.of_nat (List.length page_images);
            allQuestions := all_questions;
            pageResults := page_results;
            error := None;
            processingTimeMs :=
              Some (elapsed_ms_between start_time
                      (clock (clock_reads w3))) |}.
Proof.
  unfold analyze_pdf_try. intros H.
  inv_bind H pdf_bytes w1 Hread. unfold file_read in Hread.
  inv_bind Hread u w0 Hemit. apply lift_ok_inv in Hread.
  destruct Hread as [Hread ->].
  inv_bind H gemini w1 Hsvc. apply lift_ok_inv in Hsvc.
  destruct Hsvc as [Hsvc ->].
  inv_bind H page_images w2 Himages.
  inv_bind H acc w3 Hloop. destruct acc as [all_questions page_results].
  inv_bind H now w4 Hnow. rewrite time_time_eq in Hnow.
  injection Hnow as <- <-.
  inv_bind H stamp w5 Hstamp. rewrite time_time_eq in Hstamp.
  injection Hstamp as <- <-.
  apply ret_ok_inv in H. destruct H as [-> _].
  exists pdf_bytes, gemini, page_images, all_questions, page_results,
    w0, w2, w3.
  repeat split; assumption.
Qed.

(** C9.  An upload whose file name does not end in [.pdf], whatever the
    case of its letters, is refused with the client error 400 and a detail
    that says "must be a PDF"; nothing has been read, opened, rendered or
    sent to the model by then. *)
Theorem non_pdf_upload_rejected (file : UploadFile) (w : world) :
  endswith (lower (filename file)) ".pdf" = false ->
  exists (detail : string) (w' : world),
    analyze_pdf file w = (Raise (HTTPException 400 detail), w')
    /\ contains "must be a PDF" detail = true
    /\ trace w' = trace w.
Proof.
  intros Hname. exists "File must be a PDF", (tick w).
  rewrite analyze_pdf_unfold, Hname. cbn [negb].
  split; [reflexivity|]. split; reflexivity.
Qed.

(** C6.  Once the file name is accepted the document endpoint never answers
    with a protocol-level error: a failure of any step of the pipeline gives
    the response with success=false, the error text, pages=0, no questions,
    no page results and an empty task id; a successful response has the task
    id [pdf_] followed by the whole seconds of a clock reading. *)
Theorem pdf_pipeline_failure_is_structured (file : UploadFile) (w : world) :
  endswith (lower (filename file)) ".pdf" = true ->
  (exists (resp : PDFAnalysisResponse) (w' : world),
      analyze_pdf file w = (Ok resp, w'))
  /\ (forall (e : exn) (w1 : world),
         analyze_pdf_try file (clock (clock_reads w)) (tick w)
         = (Raise e, w1) ->
         exists resp : PDFAnalysisResponse,
           analyze_pdf file w = (Ok resp, w1)
           /\ success resp = false
           /\ error resp = Some (exn_str e)
           /\ pages resp = 0
           /\ allQuestions resp = []
           /\ pageResults resp = []
           /\ taskId resp = "")
  /\ (forall (resp : PDFAnalysisResponse) (w' : world),
         analyze_pdf file w = (Ok resp, w') ->
         success resp = true ->
         exists n : nat,
           taskId resp
           = ("pdf_" ++ string_of_Z (Qtrunc (clock n)))%string).
Proof.
  intros Hname. split; [|split].
  - rewrite analyze_pdf_unfold, Hname. cbn [negb].
    destruct (analyze_pdf_try file (clock (clock_reads w)) (tick w))
      as [[resp|e] w']; eexists; eexists; reflexivity.
  - intros e w1 Htry. exists (pdf_failure e).
    rewrite analyze_pdf_unfold, Hname, Htry. cbn [negb].
    repeat split.
  - intros resp w'. rewrite analyze_pdf_unfold, Hname. cbn [negb].
    destruct (analyze_pdf_try file (clock (clock_reads w)) (tick w))
      as [[resp0|e] w0] eqn:Htry.
    + intros [= <- <-] _. apply analyze_pdf_try_ok in Htry.
      destruct Htry as (? & ? & ? & ? & ? & ? & ? & w3 & _ & _ & _ & _ & ->).
      eexists. reflexivity.
    + intros [= <- <-]. discriminate.
Qed.


End EndpointClaims.

(** * The properties on the sample world *)

#[local] Existing Instance Sample.codec.
#[local] Existing Instance Sample.pylib.
#[local] Existing Instance Sample.genai.
#[local] Existing Instance Sample.clk.
#[local] Existing Instance Sample.env.
#[local] Existing Instance Sample.fitz.

(** A box in the corner of a 100 x 100 page.  In binary64 the coordinate 290
    is scaled to the pixel 28 (the product is 28.999999999999996), so the
    canvas is 38 x 38. *)
Lemma crop_artifact_dimensions_witness :
  let bbox := {| ymin := 0; xmin := 0; ymax := 290; xmax := 290 |} in
  in_scale bbox
  /\ scale_coord 0 100 = Ok 0
  /\ scale_coord 290 100 = Ok 28
  /\ exists canvas : Image,
       _crop_segment default_image_service (Sample.blank 100 100) bbox 100 100
       = Ok (png_data_url (png_encode canvas))
       /\ im_width canvas = 38 /\ im_height canvas = 38.
Proof.
  intros bbox.
  assert (Hbox : in_scale bbox) by (unfold in_scale, bbox, Qle; cbn; lia).
  assert (HW : 0 < im_width (Sample.blank 100 100) < max_exact_int)
    by (split; reflexivity).
  assert (HH : 0 < im_height (Sample.blank 100 100) < max_exact_int)
    by (split; reflexivity).
  assert (Hpad : 0 < padding default_image_service) by reflexivity.
  assert (S0 : scale_coord 0 100 = Ok 0) by (vm_compute; reflexivity).
  assert (S1 : scale_coord 290 100 = Ok 28) by (vm_compute; reflexivity).
  split; [exact Hbox|]. split; [exact S0|]. split; [exact S1|].
  destruct (proj1 crop_artifact_dimensions default_image_service
              (Sample.blank 100 100) bbox HW HH Hpad Hbox)
    as (x1 & y1 & x2 & y2 & canvas & Ex1 & Ey1 & Ex2 & Ey2 & Hrun & Hw & Hh).
  change (scale_coord 0 100 = Ok x1) in Ex1.
  change (scale_coord 0 100 = Ok y1) in Ey1.
  change (scale_coord 290 100 = Ok x2) in Ex2.
  change (scale_coord 290 100 = Ok y2) in Ey2.
  assert (x1 = 0) by congruence. assert (y1 = 0) by congruence.
  assert (x2 = 28) by congruence. assert (y2 = 28) by congruence.
  subst x1 y1 x2 y2.
  exists canvas. split; [exact Hrun|]. split; [exact Hw | exact Hh].
Defined.

(** A batch of a good box and a box far outside the scale. *)
Lemma batch_crop_partial_failure_witness :
  let image := "data:image/png;base64,pg01" in
  let segments :=
    [Sample.segment "1" 0 0 1000 1000; Sample.segment "2" 2000 0 2000 1000] in
  _decode_image image = Ok (Sample.blank 100 100)
  /\ exists out : list CroppedSegment,
       extract_crops default_image_service image segments = Ok out
       /\ List.length out = 2%nat
       /\ map cs_cropUrl out = ["data:image/png;base64,PNG100x100"; ""].
Proof.
  intros image segments.
  assert (Hd : _decode_image image = Ok (Sample.blank 100 100))
    by reflexivity.
  split; [exact Hd|].
  destruct (proj1 (batch_crop_partial_failure default_image_service image
                     segments) (Sample.blank 100 100) Hd)
    as [out [Hrun [Hlen _]]].
  exists out. split; [exact Hrun|]. split; [exact Hlen|].
  injection Hrun as <-. reflexivity.
Defined.

(** A box without height in the middle of a 100 x 100 page: the canvas is
    the padding around line 50. *)
Lemma box_without_area_in_batch_witness :
  let image := "data:image/png;base64,pg01" in
  let seg := Sample.segment "3" 500 100 500 900 in
  degenerate (qs_boundingBox seg)
  /\ in_scale (qs_boundingBox seg)
  /\ exists (out : list CroppedSegment) (o : CroppedSegment) (canvas : Image),
       extract_crops default_image_service image [seg] = Ok out
       /\ nth_error out 0 = Some o
       /\ cs_cropUrl o = png_data_url (png_encode canvas)
       /\ 0 < im_width canvas /\ 0 < im_height canvas
       /\ Z.min (im_width canvas) (im_height canvas) <= 20.
Proof.
  intros image seg.
  assert (Hdeg : degenerate (qs_boundingBox seg)) by (left; reflexivity).
  assert (Hbox : in_scale (qs_boundingBox seg))
    by (unfold in_scale, seg, Qle; cbn; lia).
  assert (Hd : _decode_image image = Ok (Sample.blank 100 100))
    by reflexivity.
  assert (Hi : nth_error [seg] 0 = Some seg) by reflexivity.
  assert (HW : 0 < im_width (Sample.blank 100 100) < max_exact_int)
    by (split; reflexivity).
  assert (HH : 0 < im_height (Sample.blank 100 100) < max_exact_int)
    by (split; reflexivity).
  assert (Hpad : 0 < padding default_image_service) by reflexivity.
  split; [exact Hdeg|]. split; [exact Hbox|].
  destruct (box_without_area_in_batch default_image_service image
              (Sample.blank 100 100) [seg] 0 seg Hd Hi)
    as (out & o & Hrun & _ & Hnth & _ & Hstrip).
  destruct (Hstrip Hdeg Hbox HW HH Hpad) as (canvas & Hurl & Pw & Ph & Hmin).
  exists out, o, canvas. split; [exact Hrun|]. split; [exact Hnth|].
  split; [exact Hurl|]. split; [exact Pw|]. split; [exact Ph | exact Hmin].
Defined.

Lemma batch_crop_frame_witness :
  let image := "data:image/png;base64,pg01" in
  let segments :=
    [Sample.segment "1" 0 0 1000 1000; Sample.segment "2" 2000 0 2000 1000] in
  exists out : list CroppedSegment,
    extract_crops default_image_service image segments = Ok out
    /\ map cs_id out = ["1"; "2"]
    /\ map cs_subject out = [Some "Physics"; Some "Physics"].
Proof.
  intros image segments.
  assert (Hrun : exists out,
             extract_crops default_image_service image segments = Ok out)
    by (eexists; reflexivity).
  destruct Hrun as [out Hrun]. exists out. split; [exact Hrun|].
  destruct (batch_crop_frame default_image_service image segments out Hrun)
    as [Hid [_ [_ [Hsubject _]]]].
  split; [exact Hid | exact Hsubject].
Defined.

(** A question record with a text, an upper edge and nothing else. *)
Lemma missing_fields_take_defaults_witness :
  let q := JDict [("text", JStr "What is 2 + 2?");
                  ("boundingBox", JDict [("ymin", JInt 120)])] in
  well_typed_question q = true
  /\ exists seg : QuestionSegment,
       parse_question q = Ok seg
       /\ qs_id seg = ""
       /\ qs_text seg = "What is 2 + 2?"
       /\ qs_subject seg = None
       /\ qs_correctAnswer seg = None
       /\ ymin (qs_boundingBox seg) = 120%Q
       /\ xmin (qs_boundingBox seg) = 0%Q
       /\ ymax (qs_boundingBox seg) = 1000%Q
       /\ xmax (qs_boundingBox seg) = 1000%Q.
Proof.
  intros q.
  assert (Hq : well_typed_question q = true) by reflexivity.
  split; [exact Hq|].
  destruct (proj1 missing_fields_take_defaults q Hq)
    as (seg & Hrun & Hid & Htext & Hsub & Hcor & Hymin & Hxmin & Hymax
        & Hxmax & _).
  exists seg. split; [exact Hrun|].
  split; [exact Hid|]. split; [exact Htext|]. split; [exact Hsub|].
  split; [exact Hcor|]. split; [exact Hymin|]. split; [exact Hxmin|].
  split; [exact Hymax | exact Hxmax].
Defined.

(** The three-page sample document. *)
Lemma renderer_pages_in_order_witness :
  let doc := ["pg01"; "pg02"; "pg03"] in
  fitz_open "%PDF three" = Ok doc
  /\ (exists w' : world,
         pdf_to_images get_pdf_service "%PDF three" (Some record_progress)
           Sample.w0
         = (Ok (map png_data_url doc), w')
         /\ progress_calls (trace w') = [(1, 3); (2, 3); (3, 3)])
  /\ pdf_to_single_image get_pdf_service "%PDF three" 3 Sample.w0
     = (Raise (ValueError "Page 3 does not exist (PDF has 3 pages)"),
        after Sample.w0 [DocOpen; DocClose]).
Proof.
  intros doc.
  assert (Hall : Forall2 (fun page png =>
                            render_png page (zoom get_pdf_service) = Ok png)
                   doc doc) by (repeat constructor).
  destruct (renderer_pages_in_order (fitz := Sample.fitz) get_pdf_service
              "%PDF three" doc doc Sample.w0 eq_refl Hall)
    as [[w' [Hrun [Htrace _]]] [_ [_ Hsingle]]].
  split; [reflexivity|]. split.
  - exists w'. split; [exact Hrun|]. rewrite Htrace. reflexivity.
  - exact (Hsingle 3 ltac:(cbn; lia)).
Defined.

(** The model answers the image [pg05] with an empty body. *)
Lemma upstream_parse_error_single_image_witness :
  let request := {| req_image := "pg05"; req_mimeType := Some "image/png" |} in
  generate_content "gemini-2.0-flash" "pg05" (Some "image/png") = Ok None
  /\ exists w' : world,
       analyze_image request Sample.w0
       = (Raise (HTTPException 400 "Empty response from Gemini"), w').
Proof.
  intros request. split; [reflexivity|].
  set (gemini := {| api_key := "secret"; model := "gemini-2.0-flash" |}).
  assert (Hsvc : get_gemini_service = Ok gemini) by reflexivity.
  assert (Hdec : _decode_base64 (strip_data_url_prefix (req_image request))
                 = Ok "pg05") by reflexivity.
  assert (Hgen : generate_content (model gemini) "pg05" (req_mimeType request)
                 = Ok None) by reflexivity.
  destruct (upstream_parse_error_single_image request Sample.w0 gemini
              "pg05" None Hsvc Hdec Hgen)
    as [Hempty _].
  eexists. exact (proj1 (Hempty eq_refl)).
Defined.

(** Scenario C: [notes.txt]. *)
Lemma non_pdf_upload_rejected_witness :
  let file := {| filename := "notes.txt"; file_content := Ok "%PDF three" |} in
  endswith (lower (filename file)) ".pdf" = false
  /\ exists (detail : string) (w' : world),
       analyze_pdf file Sample.w0 = (Raise (HTTPException 400 detail), w')
       /\ contains "must be a PDF" detail = true
       /\ trace w' = [].
Proof.
  intros file.
  assert (Hname : endswith (lower (filename file)) ".pdf" = false)
    by reflexivity.
  split; [exact Hname|].
  exact (non_pdf_upload_rejected file Sample.w0 Hname).
Defined.

(** A document whose second page the model answers with something that is
    not JSON. *)
Lemma pdf_pipeline_failure_is_structured_witness :
  let file := {| filename := "Exam.PDF"; file_content := Ok "%PDF bad page" |} in
  endswith (lower (filename file)) ".pdf" = true
  /\ exists (resp : PDFAnalysisResponse) (w' : world),
       analyze_pdf file Sample.w0 = (Ok resp, w')
       /\ success resp = false
       /\ pages resp = 0
       /\ taskId resp = "".
Proof.
  intros file.
  assert (Hname : endswith (lower (filename file)) ".pdf" = true)
    by reflexivity.
  split; [exact Hname|].
  set (e := ValueError
              "Failed to parse Gemini response: Expecting value: line 1 column 1 (char 0)").
  set (w1 := {| trace := [FileRead "Exam.PDF"; DocOpen; PageRender 0;
                          PageRender 1; DocClose;
                          ModelCall "gemini-2.0-flash" (Some "image/png");
                          ModelCall "gemini-2.0-flash" (Some "image/png")];
                clock_reads := 4 |}).
  assert (Htry : analyze_pdf_try file (clock (clock_reads Sample.w0))
                   (tick Sample.w0) = (Raise e, w1)) by reflexivity.
  destruct (proj1 (proj2 (pdf_pipeline_failure_is_structured file Sample.w0
                            Hname)) e w1 Htry)
    as [resp [Hrun [Hs [_ [Hp [_ [_ Ht]]]]]]].
  exists resp. eexists. split; [exact Hrun|].
  split; [exact Hs|]. split; [exact Hp | exact Ht].
Defined.


(** C2, as the specification states it, fails: with an empty reply of the
    model, and with a reply that is not JSON, the single-image endpoint
    raises the client error 400 and returns no response body at all. *)
Lemma upstream_parse_error_counterexample :
  let empty := {| req_image := "pg05"; req_mimeType := Some "image/png" |} in
  let garbled := {| req_image := "pg04"; req_mimeType := Some "image/png" |} in
  generate_content "gemini-2.0-flash" "pg05" (Some "image/png") = Ok None
  /\ generate_content "gemini-2.0-flash" "pg04" (Some "image/png")
     = Ok (Some "<html>")
  /\ json_loads (str_strip "<html>")
     = Raise (JSONDecodeError "Expecting value: line 1 column 1 (char 0)")
  /\ fst (analyze_image empty Sample.w0)
     = Raise (HTTPException 400 "Empty response from Gemini")
  /\ fst (analyze_image garbled Sample.w0)
     = Raise (HTTPException 400
                "Failed to parse Gemini response: Expecting value: line 1 column 1 (char 0)")
  /\ ~ (exists (resp : AnalyzeImageResponse) (w' : world),
           analyze_image empty Sample.w0 = (Ok resp, w')
           /\ air_success resp = false /\ air_questions resp = [])
  /\ ~ (exists (resp : AnalyzeImageResponse) (w' : world),
           analyze_image garbled Sample.w0 = (Ok resp, w')
           /\ air_success resp = false /\ air_questions resp = []).
Proof.
  intros empty garbled. repeat (split; [reflexivity|]).
  split; intros [resp [w' [Hrun _]]]; discriminate Hrun.
Qed.

(** C4, as the specification states it, fails: the box far outside the
    scale is degenerate and its padded, clamped rectangle is inverted; the
    crop engine raises on it, and the batch returns the segment with the
    mark of a failed crop, not with an artifact. *)
Lemma box_without_area_counterexample :
  let image := "data:image/png;base64,pg01" in
  let seg := Sample.segment "2" 2000 2000 2000 2000 in
  let bbox := qs_boundingBox seg in
  degenerate bbox
  /\ crop_rect default_image_service bbox 100 100 = Ok (190, 190, 100, 100)
  /\ inverted (190, 190, 100, 100)
  /\ _decode_image image = Ok (Sample.blank 100 100)
  /\ (exists e : exn,
        _crop_segment default_image_service (Sample.blank 100 100) bbox
          100 100 = Raise e)
  /\ ~ (exists url : string,
          _crop_segment default_image_service (Sample.blank 100 100) bbox
            100 100 = Ok url)
  /\ (exists o : CroppedSegment,
        extract_crops default_image_service image [seg] = Ok [o]
        /\ cs_cropUrl o = "").
Proof.
  intros image seg bbox.
  assert (Hrun : _crop_segment default_image_service (Sample.blank 100 100)
                   bbox 100 100
                 = Raise (ValueError "Coordinate 'right' is less than 'left'"))
    by (vm_compute; reflexivity).
  split; [left; reflexivity|].
  split; [vm_compute; reflexivity|].
  split; [left; reflexivity|].
  split; [reflexivity|].
  split; [eexists; exact Hrun|].
  split; [intros [url Hurl]; rewrite Hrun in Hurl; discriminate Hurl|].
  eexists. split; [vm_compute; reflexivity | reflexivity].
Qed.

(** * Further properties of the code *)

(** ** services/image.py *)

Section CropEngineMore.

Context {codec : Codec}.

(** X1.  The clamps of the padded rectangle: for every box and padding for
    which the scaling succeeds, 0 <= x1, 0 <= y1, x2 <= W and y2 <= H; the
    other two sides are not bounded (the rectangle of a box outside the
    scale can be inverted), so it is a rectangle with pixels that lies
    inside the image.  For a box in scale, an image whose sides are floats
    and a non-negative padding the scaling succeeds and the rectangle
    contains the scaled box, which itself lies in the image. *)
Theorem crop_rect_within_image (self : ImageService) (bbox : BoundingBox)
    (W H : Z) :
  (forall x1 y1 x2 y2 : Z,
      crop_rect self bbox W H = Ok (x1, y1, x2, y2) ->
      (0 <= x1 /\ 0 <= y1 /\ x2 <= W /\ y2 <= H)
      /\ (x1 < x2 -> y1 < y2 ->
          (0 <= x1 /\ x1 < x2 /\ x2 <= W) /\ (0 <= y1 /\ y1 < y2 /\ y2 <= H)))
  /\ (in_scale bbox ->
      0 <= W < max_exact_int -> 0 <= H < max_exact_int ->
      0 <= padding self ->
      exists sx1 sy1 sx2 sy2 x1 y1 x2 y2 : Z,
        scale_coord (xmin bbox) W = Ok sx1
        /\ scale_coord (ymin bbox) H = Ok sy1
        /\ scale_coord (xmax bbox) W = Ok sx2
        /\ scale_coord (ymax bbox) H = Ok sy2
        /\ crop_rect self bbox W H = Ok (x1, y1, x2, y2)
        /\ (0 <= x1 /\ x1 <= sx1 /\ sx1 <= sx2 /\ sx2 <= x2 /\ x2 <= W)
        /\ (0 <= y1 /\ y1 <= sy1 /\ sy1 <= sy2 /\ sy2 <= y2 /\ y2 <= H)).
Proof.
  split.
  - intros x1 y1 x2 y2 Hrect.
    destruct (crop_rect_inv _ _ _ _ _ _ _ _ Hrect)
      as (sx1 & sy1 & sx2 & sy2 & _ & _ & _ & _ & -> & -> & -> & ->).
    split; [lia|]. intros Hx Hy. lia.
  - intros Hbox HW HH Hpad.
    destruct (crop_rect_in_scale self bbox W H HW HH Hbox)
      as (sx1 & sy1 & sx2 & sy2 & Ex1 & Ey1 & Ex2 & Ey2 & Bx & By & Hrect).
    exists sx1, sy1, sx2, sy2.
    eexists. eexists. eexists. eexists.
    do 4 (split; [eassumption|]). split; [exact Hrect|]. split; lia.
Qed.

(** X2.  A crop succeeds exactly when the scaling succeeds and the padded,
    clamped rectangle has pixels in both directions; the artifact is then
    the data URL of a canvas of the rectangle's size, which is never larger
    than the image. *)
Theorem crop_succeeds_iff_rect_has_pixels (self : ImageService) (img : Image)
    (bbox : BoundingBox) (W H : Z) :
  0 <= W -> 0 <= H ->
  ((exists url, _crop_segment self img bbox W H = Ok url)
   <-> exists rect : Z * Z * Z * Z,
         crop_rect self bbox W H = Ok rect
         /\ 0 < rect_width rect /\ 0 < rect_height rect)
  /\ (forall url : string,
         _crop_segment self img bbox W H = Ok url ->
         exists (rect : Z * Z * Z * Z) (canvas : Image),
           crop_rect self bbox W H = Ok rect
           /\ url = png_data_url (png_encode canvas)
           /\ im_width canvas = rect_width rect
           /\ im_height canvas = rect_height rect
           /\ 0 < im_width canvas <= W /\ 0 < im_height canvas <= H).
Proof.
  intros HW HH.
  destruct (crop_rect self bbox W H) as [[[[x1 y1] x2] y2]|e] eqn:Hrect.
  - destruct (_crop_segment_rect self img bbox W H x1 y1 x2 y2 Hrect)
      as [Hgood Hbad].
    assert (Hbounds : 0 <= x1 /\ x2 <= W /\ 0 <= y1 /\ y2 <= H).
    { destruct (crop_rect_inv _ _ _ _ _ _ _ _ Hrect)
        as (sx1 & sy1 & sx2 & sy2 & _ & _ & _ & _ & -> & -> & -> & ->).
      lia. }
    assert (Hiff : (exists url, _crop_segment self img bbox W H = Ok url)
                   <-> 0 < x2 - x1 /\ 0 < y2 - y1).
    { split.
      - intros [url Hrun].
        destruct (Z_lt_dec x1 x2) as [Hx|Hx];
          [destruct (Z_lt_dec y1 y2) as [Hy|Hy]; [lia|]|];
          (destruct Hbad as [e He]; [lia|]; rewrite He in Hrun; discriminate).
      - intros [Hx Hy]. destruct Hgood as [canvas [Hrun _]]; [lia|].
        eexists. exact Hrun. }
    split.
    + split.
      * intros Hrun. eexists. split; [reflexivity|].
        cbn [rect_width rect_height]. now apply Hiff.
      * intros [rect [[= <-] Hpos]]. now apply Hiff.
    + intros url Hrun. assert (Hpos : 0 < x2 - x1 /\ 0 < y2 - y1).
      { apply Hiff. now exists url. }
      destruct Hgood as [canvas [Hrun' [Hw Hh]]]; [lia|].
      rewrite Hrun' in Hrun. injection Hrun as <-.
      eexists. exists canvas. split; [reflexivity|]. split; [reflexivity|].
      cbn [rect_width rect_height]. rewrite Hw, Hh. lia.
  - pose proof (_crop_segment_no_rect self img bbox W H e Hrect) as Hno.
    split.
    + split.
      * intros [url Hrun]. rewrite Hno in Hrun. discriminate Hrun.
      * intros [rect [Hr _]]. discriminate Hr.
    + intros url Hrun. rewrite Hno in Hrun. discriminate Hrun.
Qed.

(** X3.  The batch crop is the single crop applied to each segment on its
    own: the artifact of a segment is what [extract_single_crop] returns for
    its box, or [""] where the single crop raises; so a batch of a
    concatenation is the concatenation of the batches. *)
Theorem batch_is_pointwise_single_crop (self : ImageService)
    (base64_image : string) (img : Image)
    (segments more : list QuestionSegment) :
  _decode_image base64_image = Ok img ->
  exists out out' : list CroppedSegment,
    extract_crops self base64_image segments = Ok out
    /\ extract_crops self base64_image more = Ok out'
    /\ extract_crops self base64_image (segments ++ more) = Ok (out ++ out')
    /\ map cs_cropUrl out
       = map (fun seg =>
                match extract_single_crop self base64_image
                        (qs_boundingBox seg) with
                | Ok url => url
                | Raise _ => ""
                end) segments.
Proof.
  intros Hd. eexists. eexists.
  split; [exact (extract_crops_decoded _ _ _ _ Hd)|].
  split; [exact (extract_crops_decoded _ _ _ _ Hd)|].
  split; [rewrite (extract_crops_decoded _ _ _ _ Hd), map_app; reflexivity|].
  rewrite map_map. apply map_ext. intros seg.
  unfold extract_single_crop, crop_one. rewrite Hd. cbn [rbind].
  destruct (_crop_segment self img (qs_boundingBox seg) (im_width img)
              (im_height img)); reflexivity.
Qed.

End CropEngineMore.

(** ** Data URLs and base64 *)

Lemma substring_all (e : string) : substring 0 (String.length e) e = e.
Proof.
  induction e as [|c e IH]; cbn [substring String.length];
    [reflexivity | now rewrite IH].
Qed.

Lemma substring_app_skip (p e : string) :
  substring (String.length p)
    (String.length (p ++ e) - String.length p) (p ++ e) = e.
Proof.
  induction p as [|c p IH].
  - cbn [String.append String.length]. rewrite Nat.sub_0_r.
    apply substring_all.
  - cbn [String.append String.length substring Nat.sub]. exact IH.
Qed.

Lemma prefix_app (sep e : string) : String.prefix sep (sep ++ e) = true.
Proof.
  induction sep as [|c sep IH]; cbn [String.append].
  - destruct e; reflexivity.
  - cbn [String.prefix]. destruct (ascii_dec c c) as [_|N]; [exact IH|].
    now elim N.
Qed.

Lemma index_skip (sep : string) (c : ascii) (s : string) :
  String.prefix sep (String c s) = false ->
  String.index 0 sep (String c s)
  = match String.index 0 sep s with
    | Some n => Some (S n)
    | None => None
    end.
Proof. intros H. cbn [String.index]. now rewrite H. Qed.

Lemma index_here (sep : string) (c : ascii) (s : string) :
  String.prefix sep (String c s) = true ->
  String.index 0 sep (String c s) = Some 0%nat.
Proof. intros H. cbn [String.index]. now rewrite H. Qed.

Lemma split_fuel_absent (fuel : nat) (sep e : string) :
  String.index 0 sep e = None -> split_fuel fuel sep e = [e].
Proof.
  intros H. destruct fuel; cbn [split_fuel]; [reflexivity | now rewrite H].
Qed.

Lemma split_fuel_step (fuel : nat) (sep s : string) (i : nat) :
  String.index 0 sep s = Some i ->
  split_fuel (S fuel) sep s
  = substring 0 i s
      :: split_fuel fuel sep
           (substring (i + String.length sep)
              (String.length s - (i + String.length sep)) s).
Proof. intros H. cbn [split_fuel]. now rewrite H. Qed.

(** The marker of a PNG data URL is found right after the media type. *)
Lemma index_png_data_url (e : string) :
  String.index 0 "base64," ("data:image/png;base64," ++ e) = Some 15%nat.
Proof.
  cbn [String.append].
  do 15 (rewrite index_skip by reflexivity).
  rewrite index_here by exact (prefix_app "base64," e). reflexivity.
Qed.

Lemma strip_png_prefix (e : string) :
  contains "base64," e = false ->
  strip_data_url_prefix ("data:image/png;base64," ++ e) = e.
Proof.
  unfold contains. intros H.
  destruct (String.index 0 "base64," e) as [i|] eqn:He; [discriminate|].
  unfold strip_data_url_prefix, contains, split.
  rewrite index_png_data_url.
  rewrite (split_fuel_step _ _ _ 15 (index_png_data_url e)).
  change (15 + String.length "base64,")%nat
    with (String.length "data:image/png;base64,").
  rewrite substring_app_skip, (split_fuel_absent _ _ _ He).
  reflexivity.
Qed.

Lemma length_append_repeat_eq (s : string) (k : nat) :
  String.length (s ++ repeat_eq k) = (String.length s + k)%nat.
Proof.
  induction s as [|c s IH]; cbn [String.append String.length].
  - induction k as [|k IHk]; cbn [repeat_eq String.length]; [reflexivity|].
    now rewrite IHk.
  - now rewrite IH.
Qed.

Lemma append_empty_r (s : string) : (s ++ "")%string = s.
Proof.
  induction s as [|c s IH]; cbn [String.append]; [reflexivity|].
  now rewrite IH.
Qed.

Section DataUrlMore.

Context {codec : Codec}.

(** X4.  The data URLs the services emit are read back by the services: when
    the base64 text holds no marker [base64,] (its alphabet has no comma),
    stripping the prefix of [png_data_url png] gives the base64 text again,
    and decoding the URL opens the very bytes that were encoded.  A string
    without the marker is taken as it is. *)
Theorem data_url_round_trip (png : string) :
  contains "base64," (b64encode png) = false ->
  strip_data_url_prefix (png_data_url png) = b64encode png
  /\ strip_data_url_prefix (b64encode png) = b64encode png
  /\ (b64decode (b64encode png) = Ok png ->
      _decode_image (png_data_url png) = image_open png
      /\ _decode_image (b64encode png) = image_open png).
Proof.
  intros Hclean.
  assert (H1 : strip_data_url_prefix (png_data_url png) = b64encode png)
    by exact (strip_png_prefix _ Hclean).
  assert (H2 : strip_data_url_prefix (b64encode png) = b64encode png)
    by (unfold strip_data_url_prefix; now rewrite Hclean).
  split; [exact H1|]. split; [exact H2|].
  intros Hdec. unfold _decode_image. rewrite H1, H2, Hdec. now split.
Qed.

(** X5.  Before decoding, the segmentation client completes the base64 text
    with at most three [=] signs to a length that is a multiple of four, and
    adds nothing to a text whose length already is one. *)
Theorem _decode_base64_pads_to_multiple_of_4 (base64_string : string) :
  exists k : nat,
    (k < 4)%nat
    /\ _decode_base64 base64_string
       = b64decode (base64_string ++ repeat_eq k)
    /\ (String.length (base64_string ++ repeat_eq k) mod 4 = 0)%nat
    /\ ((String.length base64_string mod 4 = 0)%nat <-> k = 0%nat).
Proof.
  unfold _decode_base64.
  pose proof (Nat.mod_upper_bound (String.length base64_string) 4
                ltac:(discriminate)) as Hlt.
  pose proof (Nat.div_mod_eq (String.length base64_string) 4) as Hdiv.
  destruct (Nat.eqb_spec (4 - String.length base64_string mod 4) 4)
    as [E|E].
  - exists 0%nat. cbn [repeat_eq]. rewrite append_empty_r.
    split; [lia|]. split; [reflexivity|]. split; lia.
  - exists (4 - String.length base64_string mod 4)%nat.
    split; [lia|]. split; [reflexivity|].
    rewrite length_append_repeat_eq. split; [|lia].
    rewrite Hdiv at 1.
    replace (4 * (String.length base64_string / 4)
             + String.length base64_string mod 4
             + (4 - String.length base64_string mod 4))%nat
      with ((1 + String.length base64_string / 4) * 4)%nat by lia.
    apply Nat.Div0.mod_mul.
Qed.

End DataUrlMore.

(** ** services/gemini.py *)

Section ClientMore.

Context {codec : Codec} {py : PyLib} {genai : GenAI} {clk : Clock}
        {env : Environ}.

(** Every run of the client, by the step that fails first. *)
Lemma client_run (self : GeminiService) (base64_image : string)
    (mime_type : option string) (w : world) :
  GeminiService_analyze_image self base64_image mime_type w
  = match _decode_base64 (strip_data_url_prefix base64_image) with
    | Raise e => (Raise (reraised e), tick w)
    | Ok data =>
        let w1 := after (tick w) [ModelCall (model self) mime_type] in
        match generate_content (model self) data mime_type with
        | Raise e => (Raise (reraised e), w1)
        | Ok reply =>
            match parse_response reply with
            | Raise e => (Raise (reraised e), w1)
            | Ok result => (Ok result, tick w1)
            end
        end
    end.
Proof.
  unfold GeminiService_analyze_image, bind at 1. rewrite time_time_eq.
  unfold try_except, analyze_image_body, reraised.
  unfold bind at 1. unfold lift at 1.
  destruct (_decode_base64 (strip_data_url_prefix base64_image))
    as [data|e]; [|destruct (is_JSONDecodeError e); reflexivity].
  unfold bind at 1. rewrite emit_after.
  unfold bind at 1. unfold lift at 1.
  destruct (generate_content (model self) data mime_type)
    as [reply|e]; [|destruct (is_JSONDecodeError e); reflexivity].
  unfold bind at 1. unfold lift at 1.
  destruct (parse_response reply)
    as [result|e]; [|destruct (is_JSONDecodeError e); reflexivity].
  unfold bind at 1. rewrite time_time_eq. reflexivity.
Qed.

Lemma reraised_not_JSONDecodeError (e : exn) :
  is_JSONDecodeError (reraised e) = false.
Proof. unfold reraised. destruct e; reflexivity. Qed.

(** X6.  One call of the client invokes the external model at most once,
    and not at all when the image is not valid base64; a result is returned
    only after exactly one invocation; and no [JSONDecodeError] ever leaves
    the client. *)
Theorem client_calls_model_at_most_once (self : GeminiService)
    (base64_image : string) (mime_type : option string) (w : world) :
  let run := GeminiService_analyze_image self base64_image mime_type w in
  let call := ModelCall (model self) mime_type in
  (trace (snd run) = trace w \/ trace (snd run) = trace w ++ [call])
  /\ (forall e : exn,
         _decode_base64 (strip_data_url_prefix base64_image) = Raise e ->
         run = (Raise (reraised e), tick w))
  /\ (forall result : AnalysisResult,
         fst run = Ok result -> trace (snd run) = trace w ++ [call])
  /\ (forall e : exn, fst run = Raise e -> is_JSONDecodeError e = false).
Proof.
  intros run call. subst run. rewrite client_run.
  destruct (_decode_base64 (strip_data_url_prefix base64_image))
    as [data|e0].
  - cbv zeta.
    destruct (generate_content (model self) data mime_type) as [reply|e1];
      [destruct (parse_response reply) as [result|e2]|]; cbn [fst snd];
      (split; [right; reflexivity|]); (split; [discriminate|]);
      (split; [intros ? _; reflexivity || discriminate|]);
      try (intros e [= <-]; apply reraised_not_JSONDecodeError);
      discriminate.
  - cbn [fst snd]. split; [left; reflexivity|].
    split; [intros e [= <-]; reflexivity|].
    split; [discriminate|].
    intros e [= <-]. apply reraised_not_JSONDecodeError.
Qed.

(** A decoded question is fresh. *)
Lemma parse_question_fresh (q : json) (seg : QuestionSegment) :
  parse_question q = Ok seg -> fresh_question seg.
Proof.
  unfold parse_question, validate_QuestionSegment.
  repeat match goal with
         | |- rbind ?m _ = Ok _ -> _ =>
             destruct m; cbn [rbind]; [|discriminate]
         end.
  intros [= <-]. repeat split.
Qed.

Lemma parse_response_inv (reply : option string) (result : AnalysisResult) :
  parse_response reply = Ok result ->
  exists (text : string) (data qs : json) (items : list json),
    reply = Some text
    /\ empty_reply reply = false
    /\ json_loads (str_strip text) = Ok data
    /\ dict_get data "questions" (JList []) = Ok qs
    /\ py_iter qs = Ok items
    /\ Forall2 (fun q seg => parse_question q = Ok seg)
         items (questions result).
Proof.
  unfold parse_response.
  destruct reply as [[|c text]|]; try discriminate.
  destruct (json_loads (str_strip (String c text))) as [data|e] eqn:Hload;
    cbn [rbind]; [|discriminate].
  destruct (dict_get data "questions" (JList [])) as [qs|e] eqn:Hqs;
    cbn [rbind]; [|discriminate].
  destruct (py_iter qs) as [items|e] eqn:Hitems; cbn [rbind]; [|discriminate].
  destruct (parse_questions items []) as [segs|e] eqn:Hsegs;
    cbn [rbind]; [|discriminate].
  intros [= <-]. exists (String c text), data, qs, items.
  repeat split; try assumption.
  cbn [questions]. now apply parse_questions_inv.
Qed.

(** X7.  Every question the client returns is fresh: it carries no crop
    artifact, no image reference, no source-page reference and no chapter;
    only a later stage can set them. *)
Theorem client_questions_are_fresh (self : GeminiService)
    (base64_image : string) (mime_type : option string)
    (result : AnalysisResult) (w w' : world) :
  GeminiService_analyze_image self base64_image mime_type w
  = (Ok result, w') ->
  Forall fresh_question (questions result).
Proof.
  rewrite client_run.
  destruct (_decode_base64 (strip_data_url_prefix base64_image))
    as [data|e0]; [|discriminate].
  cbv zeta.
  destruct (generate_content (model self) data mime_type) as [reply|e1];
    [|discriminate].
  destruct (parse_response reply) as [result'|e2] eqn:Hparse; [|discriminate].
  intros [= <- _]. apply parse_response_inv in Hparse.
  destruct Hparse as (_ & _ & _ & items & _ & _ & _ & _ & _ & Hall).
  induction Hall as [|q seg items' segs Hq _ IH]; constructor.
  - exact (parse_question_fresh q seg Hq).
  - exact IH.
Qed.

(** X8.  Decoding a reply is all or nothing: the question list is returned
    exactly when every record decodes, record by record and in order; and
    when records decode up to one that raises, that error is the outcome and
    nothing of the decoded prefix is kept. *)
Theorem decode_is_all_or_nothing (items : list json) :
  (forall segs : list QuestionSegment,
      parse_questions items [] = Ok segs
      <-> Forall2 (fun q seg => parse_question q = Ok seg) items segs)
  /\ (forall (good rest : list json) (bad : json)
             (segs : list QuestionSegment) (e : exn),
         items = good ++ bad :: rest ->
         Forall2 (fun q seg => parse_question q = Ok seg) good segs ->
         parse_question bad = Raise e ->
         parse_questions items [] = Raise e).
Proof.
  split.
  - intros segs. split;
      [apply parse_questions_inv | apply parse_questions_Forall2].
  - intros good rest bad segs e -> Hgood Hbad.
    induction Hgood as [|q seg good' segs' Hq _ IH]; cbn [app parse_questions].
    + now rewrite Hbad.
    + rewrite Hq. cbn [rbind]. rewrite parse_questions_acc, IH. reflexivity.
Qed.

End ClientMore.

(** ** routers/analyze.py and main.py *)

Section EndpointsMore.

Context {codec : Codec} {py : PyLib} {genai : GenAI} {clk : Clock}
        {env : Environ} {fitz : Fitz}.

(** The single-image endpoint, by the outcome of the client. *)
Lemma analyze_image_of_client (request : AnalyzeImageRequest) (w : world)
    (gemini : GeminiService) :
  get_gemini_service = Ok gemini ->
  analyze_image request w
  = match GeminiService_analyze_image gemini (req_image request)
            (req_mimeType request) (tick w) with
    | (Ok result, w1) =>
        (Ok {| air_success := true;
               air_questions := questions result;
               air_error := None;
               air_processingTimeMs :=
                 Some (elapsed_ms_between (clock (clock_reads w))
                         (clock (clock_reads w1))) |}, tick w1)
    | (Raise e, w1) =>
        if is_ValueError e then (Raise (HTTPException 400 (exn_str e)), w1)
        else (Ok (image_failure (exn_str e)), w1)
    end.
Proof.
  intros Hsvc. rewrite analyze_image_unfold. unfold analyze_image_try.
  unfold bind at 1. unfold lift at 1. rewrite Hsvc.
  unfold bind at 1.
  destruct (GeminiService_analyze_image gemini (req_image request)
              (req_mimeType request) (tick w)) as [[result|e] w1];
    [|reflexivity].
  unfold bind at 1. rewrite time_time_eq. reflexivity.
Qed.

Lemma analyze_image_unconfigured (request : AnalyzeImageRequest) (w : world)
    (e : exn) :
  get_gemini_service = Raise e ->
  analyze_image request w
  = if is_ValueError e then (Raise (HTTPException 400 (exn_str e)), tick w)
    else (Ok (image_failure (exn_str e)), tick w).
Proof.
  intros Hsvc. rewrite analyze_image_unfold. unfold analyze_image_try.
  unfold bind at 1. unfold lift at 1. rewrite Hsvc. reflexivity.
Qed.

Lemma get_gemini_service_cases :
  (truthy (getenv "GEMINI_API_KEY") = true
   /\ exists key : string,
        getenv "GEMINI_API_KEY" = Some key
        /\ get_gemini_service
           = Ok {| api_key := key;
                   model := match getenv "GEMINI_MODEL" with
                            | Some m => m
                            | None => "gemini-2.0-flash"
                            end |})
  \/ (truthy (getenv "GEMINI_API_KEY") = false
      /\ get_gemini_service
         = Raise (ValueError
                    "GEMINI_API_KEY environment variable is required")).
Proof.
  unfold get_gemini_service, new_GeminiService, truthy.
  destruct (getenv "GEMINI_API_KEY") as [[|c k]|].
  - right. now split.
  - left. split; [reflexivity|]. eexists. split; reflexivity.
  - right. now split.
Qed.

(** X9.  A reply that is a JSON object without a [questions] entry is not an
    error: the single-image endpoint answers success=true with no
    questions. *)
Theorem reply_without_questions_is_empty_success
    (request : AnalyzeImageRequest) (w : world) (gemini : GeminiService)
    (data text : string) (entries : list (string * json)) :
  get_gemini_service = Ok gemini ->
  _decode_base64 (strip_data_url_prefix (req_image request)) = Ok data ->
  generate_content (model gemini) data (req_mimeType request)
  = Ok (Some text) ->
  empty_reply (Some text) = false ->
  json_loads (str_strip text) = Ok (JDict entries) ->
  assoc "questions" entries = None ->
  exists (ms : Z) (w' : world),
    analyze_image request w
    = (Ok {| air_success := true;
             air_questions := [];
             air_error := None;
             air_processingTimeMs := Some ms |}, w').
Proof.
  intros Hsvc Hdec Hgen Hne Hload Hkey.
  rewrite (analyze_image_of_client request w gemini Hsvc), client_run.
  rewrite Hdec. cbv zeta. rewrite Hgen.
  assert (Hparse : parse_response (Some text) = Ok {| questions := [] |}).
  { unfold parse_response. destruct text as [|c text']; [discriminate Hne|].
    rewrite Hload. cbn [rbind dict_get]. rewrite Hkey. reflexivity. }
  rewrite Hparse. eexists. eexists. reflexivity.
Qed.

(** X10.  A reply that is valid JSON of the wrong shape (not an object, or
    an object whose [questions] entry cannot be iterated) is a business
    failure of the single-image endpoint, unlike a reply that is not JSON:
    the answer is success=false with no questions and an error text. *)
Theorem wrong_shape_reply_is_business_failure
    (request : AnalyzeImageRequest) (w : world) (gemini : GeminiService)
    (data text : string) (v : json) :
  get_gemini_service = Ok gemini ->
  _decode_base64 (strip_data_url_prefix (req_image request)) = Ok data ->
  generate_content (model gemini) data (req_mimeType request)
  = Ok (Some text) ->
  empty_reply (Some text) = false ->
  json_loads (str_strip text) = Ok v ->
  is_dict v = false
  \/ (exists qs : json,
         field v "questions" = Some qs
         /\ (qs = JNull \/ (exists b, qs = JBool b) \/ (exists z, qs = JInt z)
             \/ (exists x, qs = JFloat x))) ->
  exists (msg : string) (w' : world),
    analyze_image request w = (Ok (image_failure msg), w').
Proof.
  intros Hsvc Hdec Hgen Hne Hload Hshape.
  rewrite (analyze_image_of_client request w gemini Hsvc), client_run.
  rewrite Hdec. cbv zeta. rewrite Hgen.
  assert (Hparse : exists e, parse_response (Some text) = Raise e
                             /\ is_ValueError e = false
                             /\ is_JSONDecodeError e = false).
  { unfold parse_response. destruct text as [|c text']; [discriminate Hne|].
    rewrite Hload. cbn [rbind].
    destruct Hshape as [Hnd | [qs [Hqs Hbad]]].
    - destruct v; try discriminate Hnd; cbn [dict_get rbind];
        eexists; (split; [reflexivity|]); split; reflexivity.
    - destruct v; try discriminate Hqs. cbn [field] in Hqs.
      cbn [dict_get]. rewrite Hqs. cbn [rbind].
      destruct Hbad as [-> | [[b ->] | [[z ->] | [x ->]]]];
        cbn [py_iter rbind];
        eexists; (split; [reflexivity|]); split; reflexivity. }
  destruct Hparse as [e [-> [Hv Hj]]].
  unfold reraised. rewrite Hj, Hv. eexists. eexists. reflexivity.
Qed.

(** X11.  Without an API key (absent or empty) no client can be built, and
    the endpoints fail before anything is sent to the model: the
    single-image endpoint raises the client error 400, the
    analyse-and-crop endpoint answers success=false, and the document
    endpoint answers success=false after reading the upload, without
    opening the document. *)
Theorem missing_api_key_fails_fast (request : AnalyzeImageRequest)
    (file : UploadFile) (pdf_bytes : string) (w : world) :
  truthy (getenv "GEMINI_API_KEY") = false ->
  let msg := "GEMINI_API_KEY environment variable is required" in
  get_gemini_service = Raise (ValueError msg)
  /\ analyze_image request w = (Raise (HTTPException 400 msg), tick w)
  /\ analyze_and_crop request w = (Ok (image_failure msg), tick w)
  /\ (endswith (lower (filename file)) ".pdf" = true ->
      file_content file = Ok pdf_bytes ->
      analyze_pdf file w
      = (Ok (pdf_failure (ValueError msg)),
         after (tick w) [FileRead (filename file)])).
Proof.
  intros Hkey msg.
  destruct get_gemini_service_cases as [[Hyes _] | [_ Hsvc]];
    [rewrite Hkey in Hyes; discriminate|].
  split; [exact Hsvc|]. split; [|split].
  - now rewrite (analyze_image_unconfigured request w _ Hsvc).
  - unfold analyze_and_crop, bind at 1. rewrite time_time_eq.
    unfold try_except. unfold bind at 1. unfold lift at 1.
    rewrite Hsvc. reflexivity.
  - intros Hname Hread. rewrite analyze_pdf_unfold, Hname. cbn [negb].
    unfold analyze_pdf_try. unfold bind at 1. unfold file_read.
    unfold bind at 1. rewrite emit_after. unfold lift at 1. rewrite Hread.
    unfold bind at 1. unfold lift at 1. rewrite Hsvc. reflexivity.
Qed.

(** X12.  The health endpoints report [geminiConfigured] exactly when the
    client can be built; a client that was built is always configured, and
    uses the model [gemini-2.0-flash] unless the environment names
    another. *)
Theorem health_flag_agrees_with_client :
  (geminiConfigured health_check = true
   <-> exists gemini : GeminiService, get_gemini_service = Ok gemini)
  /\ geminiConfigured root = geminiConfigured health_check
  /\ (forall gemini : GeminiService,
         get_gemini_service = Ok gemini ->
         is_configured gemini = true
         /\ getenv "GEMINI_API_KEY" = Some (api_key gemini)
         /\ model gemini = match getenv "GEMINI_MODEL" with
                           | Some m => m
                           | None => "gemini-2.0-flash"
                           end).
Proof.
  unfold health_check, root. cbn [geminiConfigured].
  destruct get_gemini_service_cases as [[Hyes [key [Hkey Hsvc]]] | [Hno Hsvc]].
  - split; [|split].
    + split; [intros _; eexists; exact Hsvc | intros _; exact Hyes].
    + reflexivity.
    + intros gemini Hg. rewrite Hsvc in Hg. injection Hg as <-.
      cbn [api_key model]. unfold is_configured. cbn [api_key].
      rewrite <- Hkey. repeat split; assumption.
  - split; [|split].
    + split; [intros H; rewrite Hno in H; discriminate|].
      intros [gemini Hg]. rewrite Hsvc in Hg. discriminate.
    + reflexivity.
    + intros gemini Hg. rewrite Hsvc in Hg. discriminate.
Qed.

End EndpointsMore.

Section EndpointRuns.

Context {codec : Codec} {py : PyLib} {genai : GenAI} {clk : Clock}
        {env : Environ} {fitz : Fitz}.

Lemma client_ok_inv (self : GeminiService) (base64_image : string)
    (mime_type : option string) (result : AnalysisResult) (w w' : world) :
  GeminiService_analyze_image self base64_image mime_type w
  = (Ok result, w') ->
  (exists reply : option string, parse_response reply = Ok result)
  /\ w' = tick (after (tick w) [ModelCall (model self) mime_type]).
Proof.
  rewrite client_run.
  destruct (_decode_base64 (strip_data_url_prefix base64_image))
    as [data|e0]; [|discriminate].
  cbv zeta.
  destruct (generate_content (model self) data mime_type) as [reply|e1];
    [|discriminate].
  destruct (parse_response reply) as [result'|e2] eqn:Hparse; [|discriminate].
  intros [= <- <-]. split; [now exists reply | reflexivity].
Qed.

Lemma parse_response_fresh (reply : option string) (result : AnalysisResult) :
  parse_response reply = Ok result ->
  Forall fresh_question (questions result).
Proof.
  intros Hparse. apply parse_response_inv in Hparse.
  destruct Hparse as (_ & _ & _ & items & _ & _ & _ & _ & _ & Hall).
  induction Hall as [|q seg items' segs Hq _ IH]; constructor.
  - exact (parse_question_fresh q seg Hq).
  - exact IH.
Qed.

(** Copying the crop artifacts, for either caller: every question gets an
    artifact; the page reference is set when the caller has one. *)
Lemma attach_crops_from (source : option string) (qs : list QuestionSegment) :
  forall (done rest : list CroppedSegment),
    List.length rest = List.length qs ->
    Forall2 (fun q q' =>
               same_content q q'
               /\ (exists url, qs_cropUrl q' = Some url)
               /\ qs_imageUrl q' = qs_imageUrl q
               /\ qs_sourceImageUrl q'
                  = match source with
                    | Some page_image => Some page_image
                    | None => qs_sourceImageUrl q
                    end)
      qs
      (map (fun jq : nat * QuestionSegment =>
              let (j, q) := jq in
              match nth_error (done ++ rest) j with
              | Some c =>
                  {| qs_id := qs_id q;
                     qs_boundingBox := qs_boundingBox q;
                     qs_text := qs_text q;
                     qs_cropUrl := Some (cs_cropUrl c);
                     qs_imageUrl := qs_imageUrl q;
                     qs_sourceImageUrl :=
                       match source with
                       | Some page_image => Some page_image
                       | None => qs_sourceImageUrl q
                       end;
                     qs_subject := qs_subject q;
                     qs_chapter := qs_chapter q;
                     qs_correctAnswer := qs_correctAnswer q |}
              | None => q
              end)
         (enumerate_from (List.length done) qs)).
Proof.
  induction qs as [|q qs' IH]; intros done rest Hlen; cbn; [constructor|].
  destruct rest as [|c rest']; [discriminate Hlen|].
  constructor.
  - rewrite nth_error_app2 by lia. rewrite Nat.sub_diag. cbn.
    split; [repeat split|]. split; [eexists; reflexivity|].
    split; reflexivity.
  - specialize (IH (done ++ [c]) rest').
    rewrite <- app_assoc, length_app in IH. cbn in IH.
    rewrite Nat.add_1_r in IH. apply IH. now injection Hlen.
Qed.

(** X13.  The single-image endpoint has three outcomes and no other: a
    success response (no error text, a processing time, fresh questions
    without crop artifacts), a failure response (no questions, an error
    text), or the client error 400; no other exception leaves it. *)
Theorem analyze_image_outcomes (request : AnalyzeImageRequest) (w : world) :
  match fst (analyze_image request w) with
  | Ok resp =>
      (air_success resp = true
       /\ air_error resp = None
       /\ (exists ms, air_processingTimeMs resp = Some ms)
       /\ Forall fresh_question (air_questions resp))
      \/ (exists msg : string, resp = image_failure msg)
  | Raise e => exists detail : string, e = HTTPException 400 detail
  end.
Proof.
  rewrite analyze_image_unfold.
  destruct (analyze_image_try request (clock (clock_reads w)) (tick w))
    as [[resp|e] w1] eqn:Htry.
  - cbn [fst]. left. unfold analyze_image_try in Htry.
    inv_bind Htry gemini w2 Hsvc. inv_bind Htry res w3 Hrun.
    inv_bind Htry now w4 Hnow. apply ret_ok_inv in Htry.
    destruct Htry as [-> _]. cbn.
    split; [reflexivity|]. split; [reflexivity|].
    split; [eexists; reflexivity|].
    apply client_ok_inv in Hrun. destruct Hrun as [[reply Hparse] _].
    exact (parse_response_fresh reply res Hparse).
  - destruct (is_ValueError e); cbn [fst].
    + eexists. reflexivity.
    + right. eexists. reflexivity.
Qed.

(** X14.  The crop endpoint never raises and touches nothing outside: with
    a decodable image it answers success=true with one cropped segment per
    input segment, otherwise success=false with no segments and the
    decoder's error text. *)
Theorem crop_endpoint_never_raises (request : CropImageRequest) (w : world) :
  exists resp : CropImageResponse,
    crop_image request w = (Ok resp, w)
    /\ (forall img : Image,
           _decode_image (creq_image request) = Ok img ->
           cir_success resp = true
           /\ cir_error resp = None
           /\ List.length (cir_segments resp)
              = List.length (creq_segments request))
    /\ (forall e : exn,
           _decode_image (creq_image request) = Raise e ->
           cir_success resp = false
           /\ cir_segments resp = []
           /\ cir_error resp = Some (exn_str e)).
Proof.
  unfold crop_image, try_except, bind, lift, ret, get_image_service.
  destruct (_decode_image (creq_image request)) as [img|e] eqn:Hd.
  - rewrite (extract_crops_decoded _ _ _ _ Hd).
    eexists. split; [reflexivity|]. split.
    + intros _ _. cbn. now rewrite length_map.
    + discriminate.
  - rewrite (extract_crops_undecodable _ _ _ _ Hd).
    eexists. split; [reflexivity|]. split.
    + discriminate.
    + intros e' [= <-]. cbn. repeat split.
Qed.

(** X15.  The analyse-and-crop endpoint never raises.  A failure response
    has no questions and an error text; in a success response every
    question carries a crop artifact (possibly the empty one) and still no
    page or image reference. *)
Theorem analyze_and_crop_never_raises (request : AnalyzeImageRequest)
    (w : world) :
  exists (resp : AnalyzeImageResponse) (w' : world),
    analyze_and_crop request w = (Ok resp, w')
    /\ ((exists msg : string, resp = image_failure msg)
        \/ (air_success resp = true
            /\ air_error resp = None
            /\ Forall (fun q => (exists url, qs_cropUrl q = Some url)
                                /\ qs_imageUrl q = None
                                /\ qs_sourceImageUrl q = None)
                 (air_questions resp))).
Proof.
  unfold analyze_and_crop, bind at 1. rewrite time_time_eq.
  unfold try_except.
  match goal with
  | |- context [ match ?m (tick w) with _ => _ end ] =>
      destruct (m (tick w)) as [[resp|e] w1] eqn:Htry
  end.
  2:{ eexists. eexists. split; [reflexivity|]. left. eexists. reflexivity. }
  exists resp, w1. split; [reflexivity|]. right.
  inv_bind Htry gemini w2 Hsvc. inv_bind Htry res w3 Hrun.
  apply client_ok_inv in Hrun. destruct Hrun as [[reply Hparse] _].
  pose proof (parse_response_fresh reply res Hparse) as Hfresh.
  inv_bind Htry qs w4 Hqs. inv_bind Htry now w5 Hnow.
  apply ret_ok_inv in Htry. destruct Htry as [-> _]. cbn.
  split; [reflexivity|]. split; [reflexivity|].
  destruct (nonempty (questions res)) eqn:Hne.
  - inv_bind Hqs cropped w6 Hcrop.
    apply lift_ok_inv in Hcrop. destruct Hcrop as [Hcrop _].
    apply ret_ok_inv in Hqs. destruct Hqs as [-> _].
    apply extract_crops_inv in Hcrop. destruct Hcrop as [img [_ ->]].
    pose proof (attach_crops_from None (questions res) []
                  (map (crop_one get_image_service img (im_width img)
                          (im_height img)) (questions res))
                  (length_map _ _)) as Hall.
    change (Forall2 (fun q q' =>
                       same_content q q'
                       /\ (exists url, qs_cropUrl q' = Some url)
                       /\ qs_imageUrl q' = qs_imageUrl q
                       /\ qs_sourceImageUrl q' = qs_sourceImageUrl q)
              (questions res)
              (attach_crops None (questions res)
                 (map (crop_one get_image_service img (im_width img)
                         (im_height img)) (questions res)))) in Hall.
    clear Hne. induction Hall as [|q q' l l' Hq _ IH].
    + constructor.
    + inversion Hfresh as [|? ? Hfq Hfl]; subst.
      destruct Hq as (_ & Hurl & Himg & Hsrc).
      destruct Hfq as (_ & Hi & Hs & _).
      constructor; [|exact (IH Hfl)].
      split; [exact Hurl|]. split; congruence.
  - apply ret_ok_inv in Hqs. destruct Hqs as [-> _].
    destruct (questions res); [constructor | discriminate Hne].
Qed.

End EndpointRuns.

(** ** services/pdf.py *)

Section RendererMore.

Context {codec : Codec} {fitz : Fitz}.

Lemma page_events_without_progress (total : Z) (page_nums : list Z) :
  page_events false total page_nums = map PageRender page_nums.
Proof.
  induction page_nums as [|n rest IH]; [reflexivity|].
  cbn. unfold page_events in IH. now rewrite IH.
Qed.

(** Without a callback the rendering loop does nothing but render pages,
    whatever its outcome. *)
Lemma render_loop_only_renders (self : PDFService) (doc : list Page)
    (total : Z) (page_nums : list Z) :
  forall (images : list string) (w : world),
    exists evs : list event,
      snd (render_loop self doc total None page_nums images w) = after w evs
      /\ forallb is_page_render evs = true.
Proof.
  induction page_nums as [|n rest IH]; intros images w.
  - exists []. cbn. now rewrite after_nil.
  - cbn [render_loop]. unfold bind at 1. unfold render_page.
    unfold bind at 1. unfold lift at 1.
    destruct (doc_getitem doc n) as [page|e].
    2:{ exists []. cbn. now rewrite after_nil. }
    unfold bind at 1. rewrite emit_after.
    unfold bind at 1. unfold lift at 1.
    destruct (render_png page (zoom self)) as [png|e].
    2:{ exists [PageRender n]. now split. }
    unfold ret at 1. unfold bind at 1. unfold ret at 1.
    destruct (IH (images ++ [png_data_url png]) (after w [PageRender n]))
      as [evs [Hw Hall]].
    exists (PageRender n :: evs). rewrite Hw, after_after. now split.
Qed.

(** X16.  The document is closed on every path: whenever it could be
    opened, [DocClose] is the last event of [pdf_to_images] (whatever the
    callback does, even when it raises) and of [pdf_to_single_image]
    (whatever the page number); without a callback the events in between are
    page renderings only.  When the document cannot be opened nothing
    happens and the error of the library is raised. *)
Theorem document_closed_on_every_path (self : PDFService) (pdf_bytes : string)
    (on_progress : option (Z -> Z -> M unit)) (page_num : Z) (w : world) :
  (forall doc : list Page,
      fitz_open pdf_bytes = Ok doc ->
      (exists tr : list event,
          trace (snd (pdf_to_images self pdf_bytes on_progress w))
          = tr ++ [DocClose])
      /\ (exists tr : list event,
             trace (snd (pdf_to_single_image self pdf_bytes page_num w))
             = tr ++ [DocClose])
      /\ (exists evs : list event,
             snd (pdf_to_images self pdf_bytes None w)
             = after w ([DocOpen] ++ evs ++ [DocClose])
             /\ forallb is_page_render evs = true))
  /\ (forall e : exn,
         fitz_open pdf_bytes = Raise e ->
         pdf_to_images self pdf_bytes on_progress w = (Raise e, w)
         /\ pdf_to_single_image self pdf_bytes page_num w = (Raise e, w)).
Proof.
  split.
  - intros doc Hopen. split; [|split].
    + unfold pdf_to_images, open_document.
      unfold bind at 1. unfold bind at 1. unfold lift at 1. rewrite Hopen.
      unfold bind at 1. rewrite emit_after. unfold ret at 1.
      unfold try_finally.
      destruct (render_loop self doc (page_count doc) on_progress
                  (range (List.length doc)) [] (after w [DocOpen]))
        as [r w1].
      rewrite emit_after. cbn [snd]. now exists (trace w1).
    + unfold pdf_to_single_image, open_document.
      unfold bind at 1. unfold bind at 1. unfold lift at 1. rewrite Hopen.
      unfold bind at 1. rewrite emit_after. unfold ret at 1.
      unfold try_finally.
      match goal with
      | |- context [ match ?m (after w [DocOpen]) with _ => _ end ] =>
          destruct (m (after w [DocOpen])) as [r w1]
      end.
      rewrite emit_after. cbn [snd]. now exists (trace w1).
    + unfold pdf_to_images, open_document.
      unfold bind at 1. unfold bind at 1. unfold lift at 1. rewrite Hopen.
      unfold bind at 1. rewrite emit_after. unfold ret at 1.
      unfold try_finally.
      destruct (render_loop_only_renders self doc (page_count doc)
                  (range (List.length doc)) [] (after w [DocOpen]))
        as [evs [Hw Hall]].
      destruct (render_loop self doc (page_count doc) None
                  (range (List.length doc)) [] (after w [DocOpen]))
        as [r w1].
      cbn [snd] in Hw. subst w1. rewrite emit_after, !after_after.
      exists evs. cbn [snd]. split; [reflexivity | exact Hall].
  - intros e Hopen. split.
    + unfold pdf_to_images, open_document.
      unfold bind at 1. unfold bind at 1. unfold lift at 1.
      now rewrite Hopen.
    + unfold pdf_to_single_image, open_document.
      unfold bind at 1. unfold bind at 1. unfold lift at 1.
      now rewrite Hopen.
Qed.

(** The rendering loop up to the first page that does not render. *)
Lemma render_loop_fails (self : PDFService) (total : Z) (bad : Page)
    (rest : list Page) (e : exn) (good : list Page) :
  forall (prefix : list Page) (pngs images : list string) (w : world),
    Forall2 (fun page png => render_png page (zoom self) = Ok png)
      good pngs ->
    render_png bad (zoom self) = Raise e ->
    render_loop self (prefix ++ good ++ bad :: rest) total None
      (map Z.of_nat
         (seq (List.length prefix) (List.length (good ++ bad :: rest))))
      images w
    = (Raise e,
       after w (map PageRender
                  (map Z.of_nat
                     (seq (List.length prefix) (S (List.length good)))))).
Proof.
  induction good as [|page good' IH];
    intros prefix pngs images w Hall Hbad.
  - cbn [app List.length]. rewrite range_seq_cons.
    cbn [render_loop]. unfold bind at 1. unfold render_page.
    unfold bind at 1. unfold lift at 1. rewrite doc_getitem_in_range.
    unfold bind at 1. rewrite emit_after.
    unfold bind at 1. unfold lift at 1. rewrite Hbad. reflexivity.
  - inversion Hall as [|? png ? pngs' Hpng Hrest]; subst.
    cbn [app List.length]. rewrite range_seq_cons.
    cbn [render_loop]. unfold bind at 1. unfold render_page.
    unfold bind at 1. unfold lift at 1.
    change (prefix ++ page :: good' ++ bad :: rest)
      with (prefix ++ page :: (good' ++ bad :: rest)).
    rewrite doc_getitem_in_range.
    unfold bind at 1. rewrite emit_after.
    unfold bind at 1. unfold lift at 1. rewrite Hpng. unfold ret at 1.
    unfold bind at 1. unfold ret at 1.
    assert (Hdoc : prefix ++ page :: (good' ++ bad :: rest)
                   = (prefix ++ [page]) ++ good' ++ bad :: rest)
      by now rewrite <- app_assoc.
    assert (Hlen : S (List.length prefix) = List.length (prefix ++ [page]))
      by (rewrite length_app; cbn; lia).
    rewrite Hdoc, Hlen, (IH _ pngs' _ _ Hrest Hbad), after_after.
    rewrite <- Hlen. reflexivity.
Qed.

(** X17.  Rendering stops at the first page that fails: the pages before it
    are rendered in order, the failing page is attempted, no later page is
    touched, no image is returned, the document is closed and the error of
    that page is raised. *)
Theorem render_stops_at_first_failing_page (self : PDFService)
    (pdf_bytes : string) (good rest : list Page) (bad : Page)
    (pngs : list string) (e : exn) (w : world) :
  fitz_open pdf_bytes = Ok (good ++ bad :: rest) ->
  Forall2 (fun page png => render_png page (zoom self) = Ok png) good pngs ->
  render_png bad (zoom self) = Raise e ->
  pdf_to_images self pdf_bytes None w
  = (Raise e,
     after w ([DocOpen]
              ++ map PageRender (range (S (List.length good)))
              ++ [DocClose])).
Proof.
  intros Hopen Hall Hbad. unfold pdf_to_images, open_document.
  unfold bind at 1. unfold bind at 1. unfold lift at 1. rewrite Hopen.
  unfold bind at 1. rewrite emit_after. unfold ret at 1.
  unfold try_finally, range.
  rewrite (render_loop_fails self _ bad rest e good [] pngs [] _ Hall Hbad).
  rewrite emit_after, !after_after. reflexivity.
Qed.

Lemma Forall2_nth_error {A B : Type} (R : A -> B -> Prop) (l : list A)
    (l' : list B) (k : nat) (a : A) :
  Forall2 R l l' -> nth_error l k = Some a ->
  exists b : B, nth_error l' k = Some b /\ R a b.
Proof.
  intros Hall. revert k. induction Hall as [|x y l l' Hxy _ IH]; intros k.
  - destruct k; discriminate.
  - destruct k as [|k]; cbn.
    + intros [= <-]. now exists y.
    + apply IH.
Qed.

(** X18.  Rendering one page agrees with rendering all: for a page index
    inside the document whose page renders, [pdf_to_single_image] returns
    the data URL of that page, touching only that page; and whenever
    [pdf_to_images] succeeds, that URL is its entry at the same index. *)
Theorem single_page_agrees_with_batch (self : PDFService)
    (pdf_bytes : string) (doc : list Page) (k : nat) (page : Page)
    (png : string) (w : world) :
  fitz_open pdf_bytes = Ok doc ->
  nth_error doc k = Some page ->
  render_png page (zoom self) = Ok png ->
  pdf_to_single_image self pdf_bytes (Z.of_nat k) w
  = (Ok (png_data_url png),
     after w [DocOpen; PageRender (Z.of_nat k); DocClose])
  /\ (forall (images : list string) (w1 w2 : world),
         pdf_to_images self pdf_bytes None w1 = (Ok images, w2) ->
         nth_error images k = Some (png_data_url png)).
Proof.
  intros Hopen Hk Hpng. split.
  - destruct (nth_error_split doc k Hk) as (prefix & suffix & -> & <-).
    unfold pdf_to_single_image, open_document.
    unfold bind at 1. unfold bind at 1. unfold lift at 1. rewrite Hopen.
    unfold bind at 1. rewrite emit_after. unfold ret at 1.
    unfold try_finally, page_count. rewrite length_app. cbn [List.length].
    destruct (Z.leb_spec
                (Z.of_nat (List.length prefix + S (List.length suffix)))
                (Z.of_nat (List.length prefix))) as [Hle|_]; [lia|].
    unfold render_page. unfold bind at 1. unfold lift at 1.
    rewrite doc_getitem_in_range.
    unfold bind at 1. rewrite emit_after.
    unfold bind at 1. unfold lift at 1. rewrite Hpng. unfold ret at 1.
    rewrite emit_after, !after_after. reflexivity.
  - intros images w1 w2 Hrun. apply pdf_to_images_inv in Hrun.
    destruct Hrun as (doc' & pngs & Hopen' & Hall & ->).
    rewrite Hopen in Hopen'. injection Hopen' as <-.
    destruct (Forall2_nth_error _ _ _ _ _ Hall Hk) as [png' [Hnth Hr]].
    rewrite Hpng in Hr. injection Hr as <-.
    now apply map_nth_error.
Qed.

End RendererMore.

(** ** The document endpoint: order of effects, timing, file names *)

Lemma elapsed_ms_nonneg (start_time now : Q) :
  (start_time <= now)%Q -> 0 <= elapsed_ms_between start_time now.
Proof.
  intros H. unfold elapsed_ms_between.
  assert (Hq : (0 <= (now - start_time) * 1000)%Q).
  { apply Qmult_le_0_compat; [|discriminate].
    unfold Qminus. rewrite <- (Qplus_opp_r start_time).
    apply Qplus_le_l. exact H. }
  rewrite (Qtrunc_nonneg _ Hq). change 0 with (Qfloor 0).
  now apply Qfloor_resp_le.
Qed.

Lemma substring_split (s : string) :
  forall i : nat,
    (i <= String.length s)%nat ->
    s = (substring 0 i s ++ substring i (String.length s - i) s)%string.
Proof.
  induction s as [|c s IH]; intros i Hi.
  - destruct i; [reflexivity | cbn in Hi; lia].
  - destruct i as [|i].
    + cbn [substring String.append String.length Nat.sub].
      now rewrite substring_all.
    + cbn [substring String.append String.length Nat.sub].
      rewrite <- IH by (cbn in Hi; lia). reflexivity.
Qed.

Lemma length_append (a b : string) :
  String.length (a ++ b) = (String.length a + String.length b)%nat.
Proof.
  induction a as [|c a IH]; cbn [String.append String.length];
    [reflexivity | now rewrite IH].
Qed.

Lemma endswith_iff (s suffix : string) :
  endswith s suffix = true <-> exists p : string, s = (p ++ suffix)%string.
Proof.
  unfold endswith. split.
  - intros H. apply andb_prop in H. destruct H as [Hle Heq].
    apply Nat.leb_le in Hle. apply String.eqb_eq in Heq.
    exists (substring 0 (String.length s - String.length suffix) s).
    pose proof (substring_split s (String.length s - String.length suffix)
                  ltac:(lia)) as Hs.
    replace (String.length s - (String.length s - String.length suffix))%nat
      with (String.length suffix) in Hs by lia.
    rewrite Heq in Hs. exact Hs.
  - intros [p ->]. rewrite length_append.
    replace (String.length p + String.length suffix
             - String.length suffix)%nat
      with (String.length p) by lia.
    apply andb_true_intro. split; [apply Nat.leb_le; lia|].
    apply String.eqb_eq.
    pose proof (substring_app_skip p suffix) as H.
    rewrite length_append in H.
    replace (String.length p + String.length suffix - String.length p)%nat
      with (String.length suffix) in H by lia.
    exact H.
Qed.

Lemma lower_app (a b : string) :
  lower (a ++ b) = (lower a ++ lower b)%string.
Proof.
  induction a as [|c a IH]; cbn [String.append lower];
    [reflexivity | now rewrite IH].
Qed.

Lemma lower_split (s a b : string) :
  lower s = (a ++ b)%string ->
  exists p e : string, s = (p ++ e)%string /\ lower p = a /\ lower e = b.
Proof.
  revert s. induction a as [|c a IH]; intros s H.
  - exists "", s. now split.
  - destruct s as [|d s]; [discriminate H|].
    cbn [lower String.append] in H. injection H as Hc Hs.
    destruct (IH s Hs) as (p & e & -> & <- & <-).
    exists (String d p), e. cbn [lower String.append]. now rewrite Hc.
Qed.

Section DocumentEndpointMore.

Context {codec : Codec} {py : PyLib} {genai : GenAI} {clk : Clock}
        {env : Environ} {fitz : Fitz}.

Lemma analyze_page_world (gemini : GeminiService)
    (image_service : ImageService) (page_image : string)
    (r : AnalysisResult) (w w' : world) :
  analyze_page gemini image_service page_image w = (Ok r, w') ->
  w' = tick (after (tick w) [ModelCall (model gemini) (Some "image/png")]).
Proof.
  intros H. apply analyze_page_inv in H. destruct H as (raw & Hraw & _).
  apply client_ok_inv in Hraw. apply Hraw.
Qed.

(** A successful loop over the pages calls the model once per page and
    reads the clock twice per page. *)
Lemma pages_loop_world (gemini : GeminiService) (image_service : ImageService)
    (page_images : list string) :
  forall (all_questions : list QuestionSegment)
         (page_results : list AnalysisResult)
         (acc : list QuestionSegment * list AnalysisResult) (w w' : world),
    pages_loop gemini image_service page_images all_questions page_results w
    = (Ok acc, w') ->
    trace w'
    = trace w ++ repeat (ModelCall (model gemini) (Some "image/png"))
                   (List.length page_images)
    /\ clock_reads w'
       = (clock_reads w + 2 * List.length page_images)%nat.
Proof.
  induction page_images as [|page_image rest IH];
    intros aq pr acc w w' H; cbn [pages_loop] in H.
  - apply ret_ok_inv in H. destruct H as [_ ->]. cbn.
    rewrite app_nil_r. split; [reflexivity | lia].
  - inv_bind H r w1 Hr. apply analyze_page_world in Hr. subst w1.
    apply IH in H. destruct H as [Ht Hc]. rewrite Ht, Hc.
    cbn [trace clock_reads tick after List.length repeat].
    rewrite <- app_assoc. split; [reflexivity | lia].
Qed.

Lemma pdf_to_images_world (self : PDFService) (pdf_bytes : string)
    (images : list string) (w w' : world) :
  pdf_to_images self pdf_bytes None w = (Ok images, w') ->
  exists doc : list Page,
    fitz_open pdf_bytes = Ok doc
    /\ List.length images = List.length doc
    /\ w' = after w ([DocOpen]
                     ++ map PageRender (range (List.length doc))
                     ++ [DocClose]).
Proof.
  intros H. pose proof H as Hinv. apply pdf_to_images_inv in Hinv.
  destruct Hinv as (doc & pngs & Hopen & Hall & ->).
  rewrite (pdf_to_images_renders self pdf_bytes doc pngs false w Hopen Hall)
    in H.
  injection H as <-. exists doc. split; [exact Hopen|].
  split; [rewrite length_map; symmetry; exact (Forall2_length Hall)|].
  now rewrite page_events_without_progress.
Qed.

(** A successful run of the document endpoint, with its effects. *)
Lemma analyze_pdf_ok_world (file : UploadFile) (resp : PDFAnalysisResponse)
    (w w' : world) :
  analyze_pdf file w = (Ok resp, w') ->
  success resp = true ->
  exists (gemini : GeminiService) (N : nat),
    get_gemini_service = Ok gemini
    /\ pages resp = Z.of_nat N
    /\ processingTimeMs resp
       = Some (elapsed_ms_between (clock (clock_reads w))
                 (clock (clock_reads w + 2 * N + 1)))
    /\ trace w'
       = trace w ++ [FileRead (filename file); DocOpen]
         ++ map PageRender (range N) ++ [DocClose]
         ++ repeat (ModelCall (model gemini) (Some "image/png")) N
    /\ clock_reads w' = (clock_reads w + 2 * N + 3)%nat.
Proof.
  intros Hrun Hok. rewrite analyze_pdf_unfold in Hrun.
  destruct (negb (endswith (lower (filename file)) ".pdf"));
    [discriminate Hrun|].
  destruct (analyze_pdf_try file (clock (clock_reads w)) (tick w))
    as [[resp0|e] w0] eqn:Htry.
  2:{ injection Hrun as <- _. discriminate Hok. }
  injection Hrun as <- <-. clear Hok. unfold analyze_pdf_try in Htry.
  inv_bind Htry pdf_bytes w1 Hread. unfold file_read in Hread.
  inv_bind Hread u w2 Hemit. rewrite emit_after in Hemit.
  injection Hemit as _ <-.
  apply lift_ok_inv in Hread. destruct Hread as [_ ->].
  inv_bind Htry gemini w3 Hsvc. apply lift_ok_inv in Hsvc.
  destruct Hsvc as [Hsvc ->].
  inv_bind Htry page_images w4 Himages.
  apply pdf_to_images_world in Himages.
  destruct Himages as (doc & _ & Hlen & ->).
  inv_bind Htry acc w5 Hloop. destruct acc as [all_questions page_results].
  apply pages_loop_world in Hloop. destruct Hloop as [Ht Hc].
  inv_bind Htry now w6 Hnow. rewrite time_time_eq in Hnow.
  injection Hnow as <- <-.
  inv_bind Htry stamp w7 Hstamp. rewrite time_time_eq in Hstamp.
  injection Hstamp as <- <-.
  apply ret_ok_inv in Htry. destruct Htry as [-> ->].
  exists gemini, (List.length doc). split; [exact Hsvc|].
  cbn [pages processingTimeMs trace clock_reads tick after] in *.
  rewrite Hlen in *. rewrite Ht, Hc.
  split; [reflexivity|]. split; [do 3 f_equal; lia|].
  split; [|lia].
  rewrite <- !app_assoc. reflexivity.
Qed.

(** X19.  A successful document analysis of N pages has exactly these
    effects, in this order: the upload is read once, the document is
    opened, its N pages are rendered in order, the document is closed, and
    only then the model is called, once per page; the clock is read
    2 N + 3 times. *)
Theorem document_analysis_effects (file : UploadFile)
    (resp : PDFAnalysisResponse) (w w' : world) :
  analyze_pdf file w = (Ok resp, w') ->
  success resp = true ->
  exists (gemini : GeminiService) (N : nat),
    get_gemini_service = Ok gemini
    /\ pages resp = Z.of_nat N
    /\ trace w'
       = trace w ++ [FileRead (filename file); DocOpen]
         ++ map PageRender (range N) ++ [DocClose]
         ++ repeat (ModelCall (model gemini) (Some "image/png")) N
    /\ clock_reads w' = (clock_reads w + 2 * N + 3)%nat.
Proof.
  intros Hrun Hok.
  destruct (analyze_pdf_ok_world file resp w w' Hrun Hok)
    as (gemini & N & Hsvc & Hpages & _ & Ht & Hc).
  now exists gemini, N.
Qed.

(** X20.  With a clock that never runs backwards the processing time that a
    successful response of the document endpoint or of the single-image
    endpoint reports is not negative. *)
Theorem processing_time_not_negative (file : UploadFile)
    (request : AnalyzeImageRequest) (w : world) :
  monotone_clock clk ->
  (forall (resp : PDFAnalysisResponse) (w' : world),
      analyze_pdf file w = (Ok resp, w') ->
      success resp = true ->
      exists ms : Z, processingTimeMs resp = Some ms /\ 0 <= ms)
  /\ (forall (resp : AnalyzeImageResponse) (w' : world),
         analyze_image request w = (Ok resp, w') ->
         air_success resp = true ->
         exists ms : Z, air_processingTimeMs resp = Some ms /\ 0 <= ms).
Proof.
  intros Hmono. split.
  - intros resp w' Hrun Hok.
    destruct (analyze_pdf_ok_world file resp w w' Hrun Hok)
      as (gemini & N & _ & _ & Htime & _).
    eexists. split; [exact Htime|].
    apply elapsed_ms_nonneg, Hmono. lia.
  - intros resp w' Hrun Hok. rewrite analyze_image_unfold in Hrun.
    destruct (analyze_image_try request (clock (clock_reads w)) (tick w))
      as [[resp0|e] w0] eqn:Htry.
    2:{ destruct (is_ValueError e); [discriminate Hrun|].
        injection Hrun as <- _. discriminate Hok. }
    injection Hrun as <- _. unfold analyze_image_try in Htry.
    inv_bind Htry gemini w2 Hsvc. apply lift_ok_inv in Hsvc.
    destruct Hsvc as [_ ->].
    inv_bind Htry res w3 Hrun. apply client_ok_inv in Hrun.
    destruct Hrun as [_ ->].
    inv_bind Htry now w4 Hnow. rewrite time_time_eq in Hnow.
    injection Hnow as <- _.
    apply ret_ok_inv in Htry. destruct Htry as [-> _].
    cbn [air_processingTimeMs]. eexists. split; [reflexivity|].
    apply elapsed_ms_nonneg, Hmono. cbn. lia.
Qed.

(** X21.  The document endpoint answers with a response body exactly for
    the uploads whose file name ends in [.pdf] in any mix of upper and lower
    case; for every other name it raises the client error. *)
Theorem accepted_file_names (file : UploadFile) (w : world) :
  ((exists stem ext : string,
       filename file = (stem ++ ext)%string /\ lower ext = ".pdf")
   <-> exists (resp : PDFAnalysisResponse) (w' : world),
         analyze_pdf file w = (Ok resp, w'))
  /\ (endswith (lower (filename file)) ".pdf" = true
      <-> exists stem ext : string,
            filename file = (stem ++ ext)%string /\ lower ext = ".pdf").
Proof.
  assert (Hname : endswith (lower (filename file)) ".pdf" = true
                  <-> exists stem ext : string,
                        filename file = (stem ++ ext)%string
                        /\ lower ext = ".pdf").
  { rewrite endswith_iff. split.
    - intros [p Hp]. apply lower_split in Hp.
      destruct Hp as (stem & ext & Hs & _ & He). now exists stem, ext.
    - intros (stem & ext & -> & He). exists (lower stem).
      now rewrite lower_app, He. }
  split; [|exact Hname].
  rewrite <- Hname. rewrite analyze_pdf_unfold.
  destruct (endswith (lower (filename file)) ".pdf"); cbn [negb].
  - split; [intros _|reflexivity].
    destruct (analyze_pdf_try file (clock (clock_reads w)) (tick w))
      as [[resp|e] w']; eexists; eexists; reflexivity.
  - split; [discriminate|]. intros (resp & w' & H). discriminate H.
Qed.

End DocumentEndpointMore.

(** ** The further properties on the sample world *)

Lemma crop_rect_within_image_witness :
  let bbox := {| ymin := 100; xmin := 250; ymax := 300; xmax := 750 |} in
  crop_rect default_image_service bbox 100 100 = Ok (15, 0, 85, 40)
  /\ (0 <= 15 /\ 15 < 85 /\ 85 <= 100) /\ (0 <= 0 /\ 0 < 40 /\ 40 <= 100).
Proof.
  intros bbox.
  assert (Hrect : crop_rect default_image_service bbox 100 100
                  = Ok (15, 0, 85, 40)) by (vm_compute; reflexivity).
  assert (Hx : 15 < 85) by lia. assert (Hy : 0 < 40) by lia.
  split; [exact Hrect|].
  exact (proj2 (proj1 (crop_rect_within_image default_image_service bbox
                         100 100) 15 0 85 40 Hrect) Hx Hy).
Defined.

Lemma crop_succeeds_iff_rect_has_pixels_witness :
  let bbox := {| ymin := 100; xmin := 250; ymax := 300; xmax := 750 |} in
  exists url : string,
    _crop_segment default_image_service (Sample.blank 100 100) bbox 100 100
    = Ok url.
Proof.
  intros bbox. assert (H0 : 0 <= 100) by lia.
  assert (Hrect : crop_rect default_image_service bbox 100 100
                  = Ok (15, 0, 85, 40)) by (vm_compute; reflexivity).
  apply (proj1 (crop_succeeds_iff_rect_has_pixels default_image_service
                  (Sample.blank 100 100) bbox 100 100 H0 H0)).
  exists (15, 0, 85, 40). split; [exact Hrect|]. split; reflexivity.
Defined.

Lemma batch_is_pointwise_single_crop_witness :
  let image := "data:image/png;base64,pg01" in
  let segments := [Sample.segment "1" 0 0 1000 1000] in
  let more := [Sample.segment "2" 2000 0 2000 1000] in
  exists out out' : list CroppedSegment,
    extract_crops default_image_service image segments = Ok out
    /\ extract_crops default_image_service image more = Ok out'
    /\ extract_crops default_image_service image (segments ++ more)
       = Ok (out ++ out').
Proof.
  intros image segments more.
  assert (Hd : _decode_image image = Ok (Sample.blank 100 100))
    by reflexivity.
  destruct (batch_is_pointwise_single_crop default_image_service image
              (Sample.blank 100 100) segments more Hd)
    as (out & out' & H1 & H2 & H3 & _).
  now exists out, out'.
Defined.

Lemma data_url_round_trip_witness :
  contains "base64," (b64encode "pg01") = false
  /\ strip_data_url_prefix (png_data_url "pg01") = "pg01"
  /\ _decode_image (png_data_url "pg01") = image_open "pg01".
Proof.
  assert (Hclean : contains "base64," (b64encode "pg01") = false)
    by reflexivity.
  destruct (data_url_round_trip "pg01" Hclean) as (H1 & _ & H3).
  split; [exact Hclean|]. split; [exact H1|].
  exact (proj1 (H3 eq_refl)).
Defined.

Lemma client_questions_are_fresh_witness :
  exists (result : AnalysisResult) (w' : world),
    GeminiService_analyze_image
      {| api_key := "secret"; model := "gemini-2.0-flash" |}
      "data:image/png;base64,pg01" (Some "image/png") Sample.w0
    = (Ok result, w')
    /\ Forall fresh_question (questions result).
Proof.
  destruct (GeminiService_analyze_image
              {| api_key := "secret"; model := "gemini-2.0-flash" |}
              "data:image/png;base64,pg01" (Some "image/png") Sample.w0)
    as [[result|e] w'] eqn:Hrun; [|discriminate Hrun].
  exists result, w'. split; [reflexivity|].
  exact (client_questions_are_fresh _ _ _ result Sample.w0 w' Hrun).
Defined.

Lemma reply_without_questions_is_empty_success_witness :
  let request := {| req_image := "pg01"; req_mimeType := None |} in
  json_loads (PyLib := Sample.pylib_shapes) "{}" = Ok (JDict [])
  /\ exists (ms : Z) (w' : world),
       analyze_image (py := Sample.pylib_shapes)
         (genai := Sample.genai_shapes) request Sample.w0
       = (Ok {| air_success := true;
                air_questions := [];
                air_error := None;
                air_processingTimeMs := Some ms |}, w').
Proof.
  intros request. split; [reflexivity|].
  set (gemini := {| api_key := "secret"; model := "gemini-2.0-flash" |}).
  assert (Hsvc : get_gemini_service = Ok gemini) by reflexivity.
  assert (Hdec : _decode_base64 (strip_data_url_prefix (req_image request))
                 = Ok "pg01") by reflexivity.
  assert (Hgen : generate_content (GenAI := Sample.genai_shapes)
                   (model gemini) "pg01" (req_mimeType request)
                 = Ok (Some "{}")) by reflexivity.
  assert (Hload : json_loads (PyLib := Sample.pylib_shapes)
                    (str_strip (PyLib := Sample.pylib_shapes) "{}")
                  = Ok (JDict [])) by reflexivity.
  exact (reply_without_questions_is_empty_success
           (py := Sample.pylib_shapes) (genai := Sample.genai_shapes)
           request Sample.w0 gemini "pg01" "{}" [] Hsvc Hdec Hgen
           eq_refl Hload eq_refl).
Defined.

Lemma wrong_shape_reply_is_business_failure_witness :
  let request := {| req_image := "pg02"; req_mimeType := None |} in
  json_loads (PyLib := Sample.pylib_shapes) "[]" = Ok (JList [])
  /\ exists (msg : string) (w' : world),
       analyze_image (py := Sample.pylib_shapes)
         (genai := Sample.genai_shapes) request Sample.w0
       = (Ok (image_failure msg), w').
Proof.
  intros request. split; [reflexivity|].
  set (gemini := {| api_key := "secret"; model := "gemini-2.0-flash" |}).
  assert (Hsvc : get_gemini_service = Ok gemini) by reflexivity.
  assert (Hdec : _decode_base64 (strip_data_url_prefix (req_image request))
                 = Ok "pg02") by reflexivity.
  assert (Hgen : generate_content (GenAI := Sample.genai_shapes)
                   (model gemini) "pg02" (req_mimeType request)
                 = Ok (Some "[]")) by reflexivity.
  assert (Hload : json_loads (PyLib := Sample.pylib_shapes)
                    (str_strip (PyLib := Sample.pylib_shapes) "[]")
                  = Ok (JList [])) by reflexivity.
  exact (wrong_shape_reply_is_business_failure
           (py := Sample.pylib_shapes) (genai := Sample.genai_shapes)
           request Sample.w0 gemini "pg02" "[]" (JList []) Hsvc Hdec Hgen
           eq_refl Hload (or_introl eq_refl)).
Defined.

Lemma missing_api_key_fails_fast_witness :
  let request := {| req_image := "pg01"; req_mimeType := None |} in
  truthy (getenv (Environ := Sample.env_unset) "GEMINI_API_KEY") = false
  /\ analyze_image (env := Sample.env_unset) request Sample.w0
     = (Raise (HTTPException 400
                 "GEMINI_API_KEY environment variable is required"),
        tick Sample.w0).
Proof.
  intros request.
  assert (Hkey : truthy (getenv (Environ := Sample.env_unset)
                           "GEMINI_API_KEY") = false) by reflexivity.
  split; [exact Hkey|].
  exact (proj1 (proj2 (missing_api_key_fails_fast (env := Sample.env_unset)
                         request
                         {| filename := "a.pdf"; file_content := Ok "x" |}
                         "x" Sample.w0 Hkey))).
Defined.

Lemma render_stops_at_first_failing_page_witness :
  fitz_open (Fitz := Sample.fitz_torn) "%PDF torn"
  = Ok ["pg01"; "torn"; "pg03"]
  /\ pdf_to_images (fitz := Sample.fitz_torn) get_pdf_service "%PDF torn"
       None Sample.w0
     = (Raise (RuntimeError "cannot render page"),
        after Sample.w0 [DocOpen; PageRender 0; PageRender 1; DocClose]).
Proof.
  assert (Hopen : fitz_open (Fitz := Sample.fitz_torn) "%PDF torn"
                  = Ok (["pg01"] ++ "torn" :: ["pg03"])) by reflexivity.
  assert (Hall : Forall2 (fun page png =>
                            render_png (Fitz := Sample.fitz_torn) page
                              (zoom get_pdf_service) = Ok png)
                   ["pg01"] ["pg01"]) by (repeat constructor).
  assert (Hbad : render_png (Fitz := Sample.fitz_torn) "torn"
                   (zoom get_pdf_service)
                 = Raise (RuntimeError "cannot render page")) by reflexivity.
  split; [exact Hopen|].
  exact (render_stops_at_first_failing_page (fitz := Sample.fitz_torn)
           get_pdf_service "%PDF torn" ["pg01"] ["pg03"] "torn" ["pg01"]
           _ Sample.w0 Hopen Hall Hbad).
Defined.

Lemma single_page_agrees_with_batch_witness :
  pdf_to_single_image (fitz := Sample.fitz) get_pdf_service "%PDF three" 1
    Sample.w0
  = (Ok (png_data_url "pg02"),
     after Sample.w0 [DocOpen; PageRender 1; DocClose]).
Proof.
  assert (Hopen : fitz_open (Fitz := Sample.fitz) "%PDF three"
                  = Ok ["pg01"; "pg02"; "pg03"]) by reflexivity.
  assert (Hpng : render_png (Fitz := Sample.fitz) "pg02"
                   (zoom get_pdf_service) = Ok "pg02") by reflexivity.
  exact (proj1 (single_page_agrees_with_batch (fitz := Sample.fitz)
                  get_pdf_service "%PDF three" ["pg01"; "pg02"; "pg03"]
                  1 "pg02" "pg02" Sample.w0 Hopen eq_refl Hpng)).
Defined.

Lemma document_analysis_effects_witness :
  let file := {| filename := "exam.pdf"; file_content := Ok "%PDF three" |} in
  exists (resp : PDFAnalysisResponse) (w' : world),
    analyze_pdf file Sample.w0 = (Ok resp, w')
    /\ success resp = true
    /\ clock_reads w' = 9%nat
    /\ List.length (trace w') = 9%nat.
Proof.
  intros file.
  assert (Hrun : exists resp w', analyze_pdf file Sample.w0 = (Ok resp, w')
                                 /\ success resp = true /\ pages resp = 3)
    by (vm_compute; eexists; eexists; repeat split).
  destruct Hrun as (resp & w' & Hrun & Hok & H3).
  exists resp, w'. split; [exact Hrun|]. split; [exact Hok|].
  destruct (document_analysis_effects file resp Sample.w0 w' Hrun Hok)
    as (gemini & N & _ & Hpages & Ht & Hc).
  assert (HN : N = 3%nat).
  { apply Nat2Z.inj. rewrite <- Hpages. exact H3. }
  subst N. split; [exact Hc|]. rewrite Ht. reflexivity.
Defined.

Lemma sample_clock_monotone : monotone_clock Sample.clk.
Proof.
  intros n m Hnm. cbn [clock Sample.clk]. rewrite <- Zle_Qle. lia.
Defined.

Lemma processing_time_not_negative_witness :
  let file := {| filename := "exam.pdf"; file_content := Ok "%PDF three" |} in
  monotone_clock Sample.clk
  /\ exists (resp : PDFAnalysisResponse) (w' : world) (ms : Z),
       analyze_pdf file Sample.w0 = (Ok resp, w')
       /\ processingTimeMs resp = Some ms /\ 0 <= ms.
Proof.
  intros file. split; [exact sample_clock_monotone|].
  assert (Hrun : exists resp w', analyze_pdf file Sample.w0 = (Ok resp, w')
                                 /\ success resp = true)
    by (vm_compute; eexists; eexists; split; reflexivity).
  destruct Hrun as (resp & w' & Hrun & Hok).
  destruct (proj1 (processing_time_not_negative file
                     {| req_image := "pg01"; req_mimeType := None |}
                     Sample.w0 sample_clock_monotone) resp w' Hrun Hok)
    as [ms [Hms Hpos]].
  exists resp, w', ms. split; [exact Hrun|]. split; [exact Hms | exact Hpos].
Defined.

Section PageCountMore.

Context {codec : Codec} {fitz : Fitz}.

(** X22.  [get_page_count] opens the document, returns its number of pages
    and closes it; that number is the number of images a successful
    [pdf_to_images] returns for the same bytes. *)
Theorem page_count_agrees_with_rendering (self : PDFService)
    (pdf_bytes : string) (doc : list Page) (w : world) :
  fitz_open pdf_bytes = Ok doc ->
  get_page_count pdf_bytes w
  = (Ok (page_count doc), after w [DocOpen; DocClose])
  /\ (forall (images : list string) (w1 w2 : world),
         pdf_to_images self pdf_bytes None w1 = (Ok images, w2) ->
         Z.of_nat (List.length images) = page_count doc).
Proof.
  intros Hopen. split.
  - unfold get_page_count, open_document.
    unfold bind at 1. unfold bind at 1. unfold lift at 1. rewrite Hopen.
    unfold bind at 1. rewrite emit_after. unfold ret at 1.
    unfold bind at 1. rewrite emit_after, after_after. reflexivity.
  - intros images w1 w2 Hrun. apply pdf_to_images_inv in Hrun.
    destruct Hrun as (doc' & pngs & Hopen' & Hall & ->).
    rewrite Hopen in Hopen'. injection Hopen' as <-.
    unfold page_count. rewrite length_map.
    now rewrite (Forall2_length Hall).
Qed.

End PageCountMore.

Lemma page_count_agrees_with_rendering_witness :
  get_page_count (fitz := Sample.fitz) "%PDF three" Sample.w0
  = (Ok 3, after Sample.w0 [DocOpen; DocClose]).
Proof.
  assert (Hopen : fitz_open (Fitz := Sample.fitz) "%PDF three"
                  = Ok ["pg01"; "pg02"; "pg03"]) by reflexivity.
  exact (proj1 (page_count_agrees_with_rendering (fitz := Sample.fitz)
                  get_pdf_service "%PDF three" ["pg01"; "pg02"; "pg03"]
                  Sample.w0 Hopen)).
Defined.
